(** * dingz-adapter: device state synchronisation and event normalisation

    A shallow embedding of the dingz gateway adapter.  Two revisions of the
    adapter are covered:

    - [IndexJs]: [src/index.js], the HTTP + webhook revision
      ([handleGenericEvent], UDP discovery);
    - [Part000]: [src/unnamed/part_000], the MQTT revision ([mqttEvent],
      [DingzMQTT]).

    Functions whose text is identical in both files ([apiCall], [asDict],
    [updateFromDiscovery], [connectedNotify], [addShade], [addKey], the
    dip-switch decoding) are embedded once; functions that differ take the
    revision as an argument. *)

From Stdlib Require Import ZArith String Ascii List Bool Lia.
From stdpp Require Import base gmap strings list pretty.

Set Warnings "-register-all".

Open Scope string_scope.
Open Scope Z_scope.

(** ** JavaScript values *)

(** JSON numbers are kept at integer precision: every number the adapter
    inspects (indices, dip codes, status codes, RGB channels) is integral and
    the remaining ones (temperatures, power readings) are only tested for
    zero and stored. *)
Inductive Value : Type :=
| VUndefined
| VNull
| VBool (b : bool)
| VNum (n : Z)
| VStr (s : string)
| VArr (items : list Value)
| VObj (fields : list (string * Value)).

(** ToBoolean. *)
Definition truthy (v : Value) : bool :=
  match v with
  | VUndefined | VNull => false
  | VBool b => b
  | VNum n => negb (n =? 0)
  | VStr s => negb (bool_decide (s = EmptyString))
  | VArr _ | VObj _ => true
  end.

(** [a || b] *)
Definition js_or (a b : Value) : Value := if truthy a then a else b.

(** A thrown JavaScript error, with the two fields [apiCall] looks at. *)
Record Error := mkError {
  e_message : string;
  e_type : option string;
  e_code : option string
}.

Definition TypeError (msg : string) : Error := mkError msg None None.

(** [new Error(message)] *)
Definition newError (msg : string) : Error := mkError msg None None.

(** ** Strings *)

Module Str.

Definition startsWith (s pre : string) : bool := String.prefix pre s.

Fixpoint drop (n : nat) (s : string) : string :=
  match n, s with
  | O, _ => s
  | S n', String _ s' => drop n' s'
  | S _, EmptyString => EmptyString
  end.

Fixpoint take (n : nat) (s : string) : string :=
  match n, s with
  | O, _ => EmptyString
  | S n', String c s' => String c (take n' s')
  | S _, EmptyString => EmptyString
  end.

(** [s.endsWith(suf)] *)
Definition endsWith (s suf : string) : bool :=
  (String.length suf <=? String.length s)%nat
  && bool_decide (drop (String.length s - String.length suf) s = suf).

(** [s.indexOf(pat)]: position of the first occurrence. *)
Fixpoint indexOf (pat s : string) : option nat :=
  if String.prefix pat s then Some O
  else match s with
       | EmptyString => None
       | String _ s' => S <$> indexOf pat s'
       end.

Definition includes (s pat : string) : bool :=
  match indexOf pat s with Some _ => true | None => false end.

(** [s.replace(pat, rep)] with a string pattern: only the first occurrence
    is replaced.  [rep] must not contain [$] (none of the adapter's
    replacement strings does). *)
Definition replace (s pat rep : string) : string :=
  match indexOf pat s with
  | None => s
  | Some i => take i s +:+ rep +:+ drop (i + String.length pat) s
  end.

(** [s.split(sep)] for a one-character separator: never returns the empty
    list. *)
Fixpoint split (sep : ascii) (s : string) : list string :=
  match s with
  | EmptyString => [EmptyString]
  | String c s' =>
      if Ascii.eqb c sep then EmptyString :: split sep s'
      else match split sep s' with
           | [] => [String c EmptyString]
           | w :: ws => String c w :: ws
           end
  end.

(** [parts.join(sep)] *)
Fixpoint join (sep : string) (parts : list string) : string :=
  match parts with
  | [] => EmptyString
  | [w] => w
  | w :: ws => w +:+ sep +:+ join sep ws
  end.

Definition upper_char (c : ascii) : ascii :=
  let n := nat_of_ascii c in
  if ((97 <=? n) && (n <=? 122))%nat then ascii_of_nat (n - 32) else c.

Definition lower_char (c : ascii) : ascii :=
  let n := nat_of_ascii c in
  if ((65 <=? n) && (n <=? 90))%nat then ascii_of_nat (n + 32) else c.

Fixpoint map_chars (f : ascii -> ascii) (s : string) : string :=
  match s with
  | EmptyString => EmptyString
  | String c s' => String (f c) (map_chars f s')
  end.

(** ASCII case mapping (MAC addresses and topic segments are ASCII). *)
Definition toUpperCase : string -> string := map_chars upper_char.
Definition toLowerCase : string -> string := map_chars lower_char.

Definition is_space (c : ascii) : bool :=
  let n := nat_of_ascii c in
  ((n =? 32) || ((9 <=? n) && (n <=? 13)))%nat.

Fixpoint trimStart (s : string) : string :=
  match s with
  | String c s' => if is_space c then trimStart s' else s
  | EmptyString => EmptyString
  end.

Definition digit_of (c : ascii) : option Z :=
  let n := nat_of_ascii c in
  if ((48 <=? n) && (n <=? 57))%nat then Some (Z.of_nat (n - 48))
  else if ((97 <=? n) && (n <=? 102))%nat then Some (Z.of_nat (n - 87))
  else if ((65 <=? n) && (n <=? 70))%nat then Some (Z.of_nat (n - 55))
  else None.

(** Longest prefix of digits below [radix], accumulated left to right;
    [None] when there is no digit at all. *)
Fixpoint digits (radix : Z) (acc : option Z) (s : string) : option Z :=
  match s with
  | EmptyString => acc
  | String c s' =>
      match digit_of c with
      | Some d =>
          if d <? radix
          then digits radix (Some (default 0 acc * radix + d)) s'
          else acc
      | None => acc
      end
  end.

Definition signed (s : string) : Z * string :=
  match s with
  | String "-" s' => (-1, s')
  | String "+" s' => (1, s')
  | _ => (1, s)
  end.

(** [parseInt(s, 10)]; [None] is [NaN]. *)
Definition parseInt10 (s : string) : option Z :=
  let '(sign, body) := signed (trimStart s) in
  (fun n => sign * n) <$> digits 10 None body.

(** [parseInt(s)] without a radix: a [0x]/[0X] prefix selects base 16. *)
Definition parseInt (s : string) : option Z :=
  let '(sign, body) := signed (trimStart s) in
  (fun n => sign * n) <$>
    match body with
    | String "0" (String "x" hex) | String "0" (String "X" hex) =>
        digits 16 None hex
    | _ => digits 10 None body
    end.

End Str.

(** A number inside a template literal; [None] is [NaN]. *)
Definition show (n : option Z) : string :=
  match n with
  | Some z => pretty z
  | None => "NaN"
  end.

(** [n + k] on a possibly-[NaN] number. *)
Definition nan_plus (n : option Z) (k : Z) : option Z := (fun z => z + k) <$> n.

(** ** The device object *)

Inductive PropertyClass := BasicDingzProperty | DingzProperty.

Record Property := mkProperty {
  p_class : PropertyClass;
  p_title : string;
  p_type : string;
  p_atType : option string;
  p_unit : option string;
  p_readOnly : bool;
  p_minimum : option Z;
  p_maximum : option Z;
  p_enum : list string;
  p_visible : bool;
  p_value : Value
}.

(** Action metadata as registered with [addAction]; [visible] is only
    present once [setDimmerConfig] has assigned it. *)
Record Action := mkAction {
  a_title : string;
  a_atType : option string;
  a_visible : option bool
}.

Record EventMeta := mkEventMeta {
  ev_title : string;
  ev_atType : option string
}.

Inductive Revision := IndexJs | Part000.

Record Dingz := mkDingz {
  id : string;
  address : Value;
  mac : string;
  connected : Value;
  title : string;
  atType : list string;
  shade1 : bool;
  shade2 : bool;
  dimmerGroup1 : bool;
  dimmerGroup2 : bool;
  motionSensor : bool;
  thermostat : bool;
  thermostatOutput : option Z;
  deviceType : Value;
  properties : gmap string Property;
  actions : gmap string Action;
  events : gmap string EventMeta
}.

(** What the device does to the outside world, in program order. *)
Inductive Effect :=
| Fetch (address : Value) (path method : string)
| Publish (topic : string) (message : Value)
| EventNotify (name : string)
| ConnectedNotify (state : Value)
| HandleDeviceAdded (deviceId : string)
| NewDingz (mac : string) (address : Value)
| Console (level : string).

(** ** Field updates *)

Definition with_value (v : Value) (p : Property) : Property :=
  mkProperty (p_class p) (p_title p) (p_type p) (p_atType p) (p_unit p)
    (p_readOnly p) (p_minimum p) (p_maximum p) (p_enum p) (p_visible p) v.

Definition with_visible (b : bool) (p : Property) : Property :=
  mkProperty (p_class p) (p_title p) (p_type p) (p_atType p) (p_unit p)
    (p_readOnly p) (p_minimum p) (p_maximum p) (p_enum p) b (p_value p).

Definition with_title (t : string) (p : Property) : Property :=
  mkProperty (p_class p) t (p_type p) (p_atType p) (p_unit p)
    (p_readOnly p) (p_minimum p) (p_maximum p) (p_enum p) (p_visible p)
    (p_value p).

Definition with_bounds (lo hi : option Z) (p : Property) : Property :=
  mkProperty (p_class p) (p_title p) (p_type p) (p_atType p) (p_unit p)
    (p_readOnly p) lo hi (p_enum p) (p_visible p) (p_value p).

Definition action_with_title (t : string) (a : Action) : Action :=
  mkAction t (a_atType a) (a_visible a).

Definition action_with_visible (b : bool) (a : Action) : Action :=
  mkAction (a_title a) (a_atType a) (Some b).

Definition set_properties (ps : gmap string Property) (d : Dingz) : Dingz :=
  mkDingz (id d) (address d) (mac d) (connected d) (title d) (atType d)
    (shade1 d) (shade2 d) (dimmerGroup1 d) (dimmerGroup2 d) (motionSensor d)
    (thermostat d) (thermostatOutput d) (deviceType d) ps (actions d)
    (events d).

Definition set_actions (acts : gmap string Action) (d : Dingz) : Dingz :=
  mkDingz (id d) (address d) (mac d) (connected d) (title d) (atType d)
    (shade1 d) (shade2 d) (dimmerGroup1 d) (dimmerGroup2 d) (motionSensor d)
    (thermostat d) (thermostatOutput d) (deviceType d) (properties d) acts
    (events d).

Definition set_events (evs : gmap string EventMeta) (d : Dingz) : Dingz :=
  mkDingz (id d) (address d) (mac d) (connected d) (title d) (atType d)
    (shade1 d) (shade2 d) (dimmerGroup1 d) (dimmerGroup2 d) (motionSensor d)
    (thermostat d) (thermostatOutput d) (deviceType d) (properties d)
    (actions d) evs.

Definition set_connected (v : Value) (d : Dingz) : Dingz :=
  mkDingz (id d) (address d) (mac d) v (title d) (atType d)
    (shade1 d) (shade2 d) (dimmerGroup1 d) (dimmerGroup2 d) (motionSensor d)
    (thermostat d) (thermostatOutput d) (deviceType d) (properties d)
    (actions d) (events d).

Definition set_address (v : Value) (d : Dingz) : Dingz :=
  mkDingz (id d) v (mac d) (connected d) (title d) (atType d)
    (shade1 d) (shade2 d) (dimmerGroup1 d) (dimmerGroup2 d) (motionSensor d)
    (thermostat d) (thermostatOutput d) (deviceType d) (properties d)
    (actions d) (events d).

Definition set_deviceType (v : Value) (d : Dingz) : Dingz :=
  mkDingz (id d) (address d) (mac d) (connected d) (title d) (atType d)
    (shade1 d) (shade2 d) (dimmerGroup1 d) (dimmerGroup2 d) (motionSensor d)
    (thermostat d) (thermostatOutput d) v (properties d) (actions d)
    (events d).

Definition set_title (t : string) (d : Dingz) : Dingz :=
  mkDingz (id d) (address d) (mac d) (connected d) t (atType d)
    (shade1 d) (shade2 d) (dimmerGroup1 d) (dimmerGroup2 d) (motionSensor d)
    (thermostat d) (thermostatOutput d) (deviceType d) (properties d)
    (actions d) (events d).

Definition set_atType (ts : list string) (d : Dingz) : Dingz :=
  mkDingz (id d) (address d) (mac d) (connected d) (title d) ts
    (shade1 d) (shade2 d) (dimmerGroup1 d) (dimmerGroup2 d) (motionSensor d)
    (thermostat d) (thermostatOutput d) (deviceType d) (properties d)
    (actions d) (events d).

(** The four wiring flags and the motion flag, assigned together by the
    [device] query. *)
Definition set_wiring (s1 s2 g1 g2 pir : bool) (d : Dingz) : Dingz :=
  mkDingz (id d) (address d) (mac d) (connected d) (title d) (atType d)
    s1 s2 g1 g2 pir
    (thermostat d) (thermostatOutput d) (deviceType d) (properties d)
    (actions d) (events d).

Definition set_thermostat (b : bool) (d : Dingz) : Dingz :=
  mkDingz (id d) (address d) (mac d) (connected d) (title d) (atType d)
    (shade1 d) (shade2 d) (dimmerGroup1 d) (dimmerGroup2 d) (motionSensor d)
    b (thermostatOutput d) (deviceType d) (properties d) (actions d)
    (events d).

Definition set_thermostatOutput (o : option Z) (d : Dingz) : Dingz :=
  mkDingz (id d) (address d) (mac d) (connected d) (title d) (atType d)
    (shade1 d) (shade2 d) (dimmerGroup1 d) (dimmerGroup2 d) (motionSensor d)
    (thermostat d) o (deviceType d) (properties d) (actions d) (events d).

(** ** Execution monad

    Device methods mutate [this], emit effects and may throw; mutations made
    before a throw persist.  An [async] method that rejects is a computation
    that throws. *)

Inductive Outcome (A : Type) : Type :=
| Return (a : A)
| Throw (e : Error).
Arguments Return {A} a.
Arguments Throw {A} e.

Record World := mkWorld {
  self : Dingz;
  emitted : list Effect
}.

Definition Js (A : Type) : Type := World -> Outcome A * World.

Definition ret {A} (a : A) : Js A := fun w => (Return a, w).

Definition throw {A} (e : Error) : Js A := fun w => (Throw e, w).

Definition bind {A B} (m : Js A) (k : A -> Js B) : Js B :=
  fun w =>
    match m w with
    | (Return a, w') => k a w'
    | (Throw e, w') => (Throw e, w')
    end.

(** [try { m } catch (error) { h error }] *)
Definition try_catch {A} (m : Js A) (h : Error -> Js A) : Js A :=
  fun w =>
    match m w with
    | (Return a, w') => (Return a, w')
    | (Throw e, w') => h e w'
    end.

Notation "'do' x <- m ; k" := (bind m (fun x => k))
  (at level 10, x name, m at level 100, k at level 200).
Notation "m >> k" := (bind m (fun _ => k))
  (at level 199, right associativity).

Definition emit (e : Effect) : Js unit :=
  fun w => (Return tt, mkWorld (self w) (emitted w ++ [e])).

Definition modify (f : Dingz -> Dingz) : Js unit :=
  fun w => (Return tt, mkWorld (f (self w)) (emitted w)).

Definition this {A} (f : Dingz -> A) : Js A :=
  fun w => (Return (f (self w)), w).

Definition when (b : bool) (m : Js unit) : Js unit :=
  if b then m else ret tt.

(** [for (const x of xs) body] *)
Fixpoint for_of {A} (xs : list A) (body : A -> Js unit) : Js unit :=
  match xs with
  | [] => ret tt
  | x :: xs' => body x >> for_of xs' body
  end.

(** Run a method on a device, from an empty journal. *)
Definition run {A} (m : Js A) (d : Dingz) : Outcome A * World :=
  m (mkWorld d []).

(** ** gateway-addon container operations

    [Device] and [Property] come from the [gateway-addon] package, which the
    adapter only calls.  Their operations are embedded at their interface:
    [properties] and [actions] are [Map]s keyed by name, [findProperty] is a
    lookup returning [undefined] when absent, [setCachedValueAndNotify]
    stores the value as the property's cached value, [eventNotify] and
    [connectedNotify] report to the gateway. *)

Definition findProperty (name : string) : Js (option Property) :=
  this (fun d => properties d !! name).

Definition hasProperty (name : string) : Js bool :=
  this (fun d => bool_decide (is_Some (properties d !! name))).

Definition addProperty (name : string) (p : Property) : Js unit :=
  modify (fun d => set_properties (<[name := p]> (properties d)) d).

Definition addAction (name : string) (a : Action) : Js unit :=
  modify (fun d => set_actions (<[name := a]> (actions d)) d).

Definition addEvent (name : string) (e : EventMeta) : Js unit :=
  modify (fun d => set_events (<[name := e]> (events d)) d).

Definition eventNotify (name : string) : Js unit := emit (EventNotify name).

(** In-place update of a property object held in the map. *)
Definition update_property (name : string) (f : Property -> Property) : Js unit :=
  modify (fun d => set_properties (alter f name (properties d)) d).

Definition update_action (name : string) (f : Action -> Action) : Js unit :=
  modify (fun d => set_actions (alter f name (actions d)) d).

(** [this.findProperty(name).setCachedValueAndNotify(arg)]: the receiver is
    looked up first (a missing property is a [TypeError]), then the argument
    is evaluated.  The value is cached as the argument gives it: what the
    property class of gateway-addon does to a value on the way (a property
    of type [boolean] keeps [!!value]) is not part of this model. *)
Definition set_cached (name : string) (arg : Js Value) : Js unit :=
  do p <- findProperty name;
  match p with
  | None => throw (TypeError "Cannot read properties of undefined")
  | Some _ => do v <- arg; update_property name (with_value v)
  end.

(** [this.findProperty(name)?.setCachedValueAndNotify(arg)]: when the
    property is missing the call is skipped and [arg] is not evaluated. *)
Definition set_cached_opt (name : string) (arg : Js Value) : Js unit :=
  do p <- findProperty name;
  match p with
  | None => ret tt
  | Some _ => do v <- arg; update_property name (with_value v)
  end.

(** [Dingz.connectedNotify] *)
Definition connectedNotify (state : Value) : Js unit :=
  emit (ConnectedNotify state) >>
  modify (set_connected state).

(** [Dingz.updateFromDiscovery] *)
Definition updateFromDiscovery (addr : Value) : Js unit :=
  connectedNotify (VBool true) >>
  if truthy addr then
    match addr with
    | VStr a => when (negb (Str.includes a ":")) (modify (set_address addr))
    | VArr items =>
        when (negb (existsb (fun v => match v with
                                      | VStr ":" => true
                                      | _ => false
                                      end) items))
             (modify (set_address addr))
    | _ => throw (TypeError "address.includes is not a function")
    end
  else ret tt.

(** ** Capability resolution and schema registration (the constructor) *)

Record DeviceSpec := mkDeviceSpec {
  spec_mac : string;
  spec_address : Value
}.

Record SystemConfig := mkSystemConfig {
  room_name : string;
  dingz_name : string
}.

Record DeviceInfo := mkDeviceInfo {
  dip_config : Z;
  has_pir : bool
}.

(** [GET thermostat]; [out] is only read by [src/index.js]. *)
Record ThermostatInfo := mkThermostatInfo {
  ti_active : bool;
  ti_out : option Z
}.

(** One entry of [GET outputs] ([src/unnamed/part_000] only). *)
Record Output := mkOutput {
  o_type : string;
  o_enable : bool;
  o_ph_out_id : option Z
}.

Record Blind := mkBlind {
  b_type : string;
  b_min_value : option Z;
  b_max_value : option Z;
  b_name : string
}.

(** One entry of [GET dimmer_config]: [output] is read by [src/index.js],
    [active] and [type] by [src/unnamed/part_000]. *)
Record DimmerLine := mkDimmerLine {
  dl_output : string;
  dl_active : bool;
  dl_type : string;
  dl_name : string
}.

Definition undefined_access {A} : Js A :=
  throw (TypeError "Cannot read properties of undefined").

(** The object under construction, right after the synchronous part of the
    constructor. *)
Definition newDingz (spec : DeviceSpec) : Dingz :=
  {| id := "dingz-" +:+ Str.toLowerCase (spec_mac spec);
     address := spec_address spec;
     mac := Str.toUpperCase (spec_mac spec);
     connected := VBool true;
     title := EmptyString;
     atType := ["ColorControl"; "PushButton"; "TemperatureSensor"];
     shade1 := false; shade2 := false;
     dimmerGroup1 := false; dimmerGroup2 := false;
     motionSensor := false;
     thermostat := false;
     thermostatOutput := None;
     deviceType := VUndefined;
     properties := ∅; actions := ∅; events := ∅ |}.

(** [apiCall('system_config').then(...)] *)
Definition onSystemConfig (systemConfig : option SystemConfig) : Js unit :=
  match systemConfig with
  | None => undefined_access
  | Some c => modify (set_title (room_name c +:+ " - " +:+ dingz_name c))
  end.

(** [apiCall('device').then(...)]: the dip-switch truth table. *)
Definition onDevice (info : option (gmap string DeviceInfo)) : Js unit :=
  match info with
  | None => undefined_access
  | Some info =>
      do m <- this mac;
      match info !! m with
      | None => undefined_access
      | Some deviceInfo =>
          let dipConfig := dip_config deviceInfo in
          modify (set_wiring
                    ((dipConfig =? 0) || (dipConfig =? 2))
                    (dipConfig <=? 1)
                    ((dipConfig =? 1) || (dipConfig =? 3))
                    (dipConfig >=? 2)
                    (has_pir deviceInfo))
      end
  end.

(** [apiCall('thermostat').then(...)] *)
Definition onThermostat (rev : Revision) (thermostatState : option ThermostatInfo)
  : Js unit :=
  match thermostatState with
  | None => undefined_access
  | Some t =>
      modify (set_thermostat (ti_active t)) >>
      match rev with
      | IndexJs => modify (set_thermostatOutput (ti_out t))
      | Part000 => ret tt
      end
  end.

(** [apiCall('outputs').then(...)] ([src/unnamed/part_000]); a [null] entry
    of the array is [None]. *)
Definition onOutputs (outputs : option (list (option Output))) : Js unit :=
  match outputs with
  | None => undefined_access
  | Some outputs =>
      match List.find (fun o => match o with
                                | Some o => bool_decide (o_type o = "heating_valve")
                                | None => false
                                end) outputs with
      | Some (Some thermostatOutput) =>
          when (o_enable thermostatOutput)
               (modify (set_thermostatOutput (o_ph_out_id thermostatOutput)))
      | _ => ret tt
      end
  end.

(** [new BasicDingzProperty(...)] / [new DingzProperty(...)].  In
    [src/index.js] the constructor sets [visible = true] whatever the
    descriptor says; in [src/unnamed/part_000] it takes [spec.visible] when
    defined. *)
Definition newProperty (rev : Revision) (cls : PropertyClass)
    (ttl type : string) (at_type unit : option string) (readOnly : bool)
    (minimum maximum : option Z) (enum : list string)
    (spec_visible : option bool) : Property :=
  mkProperty cls ttl type at_type unit readOnly minimum maximum enum
    (match rev with
     | IndexJs => true
     | Part000 => default true spec_visible
     end)
    VUndefined.

Definition addKey (rev : Revision) (index : Z) : Js unit :=
  let keyID := "key" +:+ pretty index in
  addProperty keyID
    (newProperty rev BasicDingzProperty ("Key " +:+ pretty index) "boolean"
       (Some "PushedProperty") None true None None [] None) >>
  addEvent (keyID +:+ "single")
    (mkEventMeta ("Key " +:+ pretty index +:+ " single press") (Some "PressedEvent")) >>
  addEvent (keyID +:+ "double")
    (mkEventMeta ("Key " +:+ pretty index +:+ " double press") (Some "DoublePressedEvent")) >>
  addEvent (keyID +:+ "tripple")
    (mkEventMeta ("Key " +:+ pretty index +:+ " tripple press") None) >>
  addEvent (keyID +:+ "quadruple")
    (mkEventMeta ("Key " +:+ pretty index +:+ " quadruple press") None) >>
  addEvent (keyID +:+ "long")
    (mkEventMeta ("Key " +:+ pretty index +:+ " long press") (Some "LongPressedEvent")).

Definition addShade (rev : Revision) (index : Z) : Js unit :=
  let shadeID := "shade" +:+ pretty index in
  addProperty shadeID
    (newProperty rev DingzProperty ("Shade " +:+ pretty index +:+ " Position")
       "integer" (Some "LevelProperty") (Some "percent") false
       (Some 0) (Some 100) [] None) >>
  addProperty (shadeID +:+ "Lamella")
    (newProperty rev DingzProperty ("Shade " +:+ pretty index +:+ " Lamella")
       "integer" (Some "LevelProperty") (Some "percent") false
       (Some 0) (Some 100) [] None) >>
  addProperty (shadeID +:+ "Power")
    (newProperty rev BasicDingzProperty ("Shade " +:+ pretty index +:+ " Power")
       "number" (Some "InstantaneousPowerProperty") (Some "watt") true
       (Some 0) (Some 300) [] None) >>
  addAction (shadeID +:+ "up")
    (mkAction ("Shade " +:+ pretty index +:+ " up") None None) >>
  addAction (shadeID +:+ "down")
    (mkAction ("Shade " +:+ pretty index +:+ " down") None None) >>
  addAction (shadeID +:+ "stop")
    (mkAction ("Shade " +:+ pretty index +:+ " stop") None None).

(** [(index - 1) !== this.thermostatOutput] *)
Definition not_thermostat_output (index : Z) (d : Dingz) : bool :=
  negb (bool_decide (Some (index - 1) = thermostatOutput d)).

Definition addDimmer (rev : Revision) (index : Z) : Js unit :=
  let dimmerID := "dimmer" +:+ pretty index in
  do visible <- this (not_thermostat_output index);
  addProperty dimmerID
    (newProperty rev DingzProperty ("Dimmer " +:+ pretty index) "boolean"
       (Some "OnOffProperty") None false None None [] (Some visible)) >>
  addProperty (dimmerID +:+ "Brightness")
    (newProperty rev DingzProperty ("Dimmer " +:+ pretty index +:+ " Brightness")
       "integer" (Some "BrightnessProperty") (Some "percent") false
       (Some 0) (Some 100) [] (Some visible)) >>
  addProperty (dimmerID +:+ "Power")
    (newProperty rev BasicDingzProperty ("Dimmer " +:+ pretty index +:+ " Power")
       "number" (Some "InstantaneousPowerProperty") (Some "watt") true
       (Some 0) (Some 300) [] (Some true)) >>
  when visible
    (addAction (dimmerID +:+ "toggle")
       (mkAction ("Toggle dimmer " +:+ pretty index) (Some "ToggleAction") None)).

Definition push_type (t : string) : Js unit :=
  modify (fun d => set_atType (atType d ++ [t]) d).

Definition push_type_once (t : string) : Js unit :=
  do ts <- this atType;
  when (negb (bool_decide (t ∈ ts))) (push_type t).

(** The first [.then] of the constructor: capability tags and the schema. *)
Definition registerSchema (rev : Revision) : Js unit :=
  do d <- this (fun d => d);
  when (motionSensor d) (push_type "MotionSensor") >>
  when (shade1 d || shade2 d)
    (push_type "EnergyMonitor" >> push_type "Shade") >>
  when (dimmerGroup1 d || dimmerGroup2 d)
    (push_type "Light" >> push_type_once "EnergyMonitor") >>
  when (thermostat d)
    (push_type "Thermostat" >> push_type_once "EnergyMonitor") >>
  addProperty "led"
    (newProperty rev DingzProperty "LED" "boolean" (Some "OnOffProperty")
       None false None None [] None) >>
  addProperty "ledColor"
    (newProperty rev DingzProperty "LED Color" "string" (Some "ColorProperty")
       None false None None [] None) >>
  addProperty "lightLevel"
    (newProperty rev BasicDingzProperty "Brightness" "integer" None
       (Some "lux") true (Some 0) None [] None) >>
  addProperty "temperature"
    (newProperty rev BasicDingzProperty "Temperature" "number"
       (Some "TemperatureProperty") (Some "degree celsius") true None None []
       None) >>
  addKey rev 1 >> addKey rev 2 >> addKey rev 3 >> addKey rev 4 >>
  when (dimmerGroup1 d) (addDimmer rev 1 >> addDimmer rev 2) >>
  when (dimmerGroup2 d) (addDimmer rev 3 >> addDimmer rev 4) >>
  when (shade1 d) (addShade rev 1) >>
  when (shade2 d) (addShade rev 2) >>
  when (motionSensor d)
    (addProperty "motion"
       (newProperty rev BasicDingzProperty "Motion" "boolean"
          (Some "MotionProperty") None true None None [] None)) >>
  when (thermostat d)
    (addProperty "targetTemperature"
       (newProperty rev DingzProperty "Target Temperature" "number"
          (Some "TargetTemperatureProperty") (Some "degree celsius") false
          (Some (-55)) (Some 125) [] None) >>
     addProperty "thermostatMode"
       (newProperty rev DingzProperty "Thermostat Mode" "string"
          (Some "ThermostatModeProperty") None false None None
          ["off"; "heat"; "cool"] None) >>
     addProperty "thermostatState"
       (newProperty rev BasicDingzProperty "Thermostat State" "string"
          (Some "HeatingCoolingProperty") None true None None
          ["off"; "heating"; "cooling"] None) >>
     let dimmerID := "dimmer" +:+ show (nan_plus (thermostatOutput d) 1) in
     do present <- hasProperty (dimmerID +:+ "Power");
     if negb present then
       addProperty (dimmerID +:+ "Power")
         (newProperty rev BasicDingzProperty "Thermostat Valve Power" "number"
            (Some "InstantaneousPowerProperty") (Some "watt") true
            (Some 0) (Some 300) [] (Some true))
     else
       update_property (dimmerID +:+ "Power")
         (with_title "Thermostat Valve Power")).

(** [xs[i]] for a numeric index: [undefined] out of range. *)
Definition at_index {A} (xs : list A) (i : Z) : option A :=
  if i <? 0 then None else xs !! Z.to_nat i.

(** Assignment to a field of [this.findProperty(name)]: a [TypeError] when
    the property is missing. *)
Definition assign_property (name : string) (f : Property -> Property) : Js unit :=
  do p <- findProperty name;
  match p with
  | None => undefined_access
  | Some _ => update_property name f
  end.

(** Assignment to a field of [this.actions.get(name)]. *)
Definition assign_action (name : string) (f : Action -> Action) : Js unit :=
  do a <- this (fun d => actions d !! name);
  match a with
  | None => undefined_access
  | Some _ => update_action name f
  end.

(** The blind type that carries a lamella: ['lamella_90'] in
    [src/index.js], ['blind'] in [src/unnamed/part_000]. *)
Definition lamella_type (rev : Revision) : string :=
  match rev with
  | IndexJs => "lamella_90"
  | Part000 => "blind"
  end.

Definition setShadeConfig (rev : Revision) (index : Z) (blinds : list Blind)
  : Js unit :=
  let shadeID := "shade" +:+ pretty index in
  match at_index blinds (index - 1) with
  | None =>
      (* [shadeConfig] is undefined: the first field read throws *)
      undefined_access
  | Some shadeConfig =>
      assign_property (shadeID +:+ "Lamella")
        (with_visible (bool_decide (b_type shadeConfig = lamella_type rev))) >>
      assign_property shadeID
        (with_bounds (b_min_value shadeConfig) (b_max_value shadeConfig)) >>
      let name := b_name shadeConfig in
      when (truthy (VStr name))
        (assign_property shadeID (with_title name) >>
         assign_property (shadeID +:+ "Lamella") (with_title (name +:+ " Lamella")) >>
         assign_property (shadeID +:+ "Power") (with_title (name +:+ " Power")) >>
         assign_action (shadeID +:+ "up") (action_with_title (name +:+ " up")) >>
         assign_action (shadeID +:+ "down") (action_with_title (name +:+ " down")) >>
         assign_action (shadeID +:+ "stop") (action_with_title ("Stop " +:+ name)))
  end.

(** Whether a dimmer line is shown: [config.output !== 'not_connected'] in
    [src/index.js], [config.active && config.type == "light"] in
    [src/unnamed/part_000]. *)
Definition line_visible (rev : Revision) (config : DimmerLine) : bool :=
  match rev with
  | IndexJs => negb (bool_decide (dl_output config = "not_connected"))
  | Part000 => dl_active config && bool_decide (dl_type config = "light")
  end.

Definition setDimmerConfig (rev : Revision) (index : Z)
    (dimmers : list DimmerLine) : Js unit :=
  do applies <- this (not_thermostat_output index);
  when applies
    (let dimmerID := "dimmer" +:+ pretty index in
     match at_index dimmers (index - 1) with
     | None => undefined_access
     | Some config =>
         let visible := line_visible rev config in
         assign_property dimmerID (with_visible visible) >>
         assign_property (dimmerID +:+ "Brightness") (with_visible visible) >>
         assign_property (dimmerID +:+ "Power") (with_visible visible) >>
         assign_action (dimmerID +:+ "toggle") (action_with_visible visible) >>
         let name := dl_name config in
         when (truthy (VStr name))
           (assign_property dimmerID (with_title name) >>
            assign_property (dimmerID +:+ "Brightness")
              (with_title (name +:+ " Brightness")) >>
            assign_property (dimmerID +:+ "Power") (with_title (name +:+ " Power")) >>
            assign_action (dimmerID +:+ "toggle")
              (action_with_title ("Toggle " +:+ name))) >>
         when (negb visible)
           (modify (fun d =>
                      set_actions (delete (dimmerID +:+ "toggle") (actions d)) d))
     end).

(** The last [.then] of the constructor; a configuration that was not
    fetched (or came back empty) is [None]. *)
Definition applyDetails (rev : Revision) (blindConfig : option (list Blind))
    (dimmerConfig : option (list DimmerLine)) : Js unit :=
  do d <- this (fun d => d);
  match blindConfig with
  | Some blinds =>
      when (shade1 d) (setShadeConfig rev 1 blinds) >>
      when (shade2 d) (setShadeConfig rev 2 blinds)
  | None => ret tt
  end >>
  match dimmerConfig with
  | Some dimmers =>
      when (dimmerGroup1 d)
        (setDimmerConfig rev 1 dimmers >> setDimmerConfig rev 2 dimmers) >>
      when (dimmerGroup2 d)
        (setDimmerConfig rev 3 dimmers >> setDimmerConfig rev 4 dimmers)
  | None => ret tt
  end >>
  emit (HandleDeviceAdded (id d)).

(** The resolved values of the constructor's queries. *)
Record Responses := mkResponses {
  r_system_config : option SystemConfig;
  r_device : option (gmap string DeviceInfo);
  r_thermostat : option ThermostatInfo;
  r_outputs : option (list (option Output));
  r_blind_config : option (list Blind);
  r_dimmer_config : option (list DimmerLine)
}.

(** The constructor's promise chain, for queries that resolved to
    [r]: the four callbacks of the first [Promise.all] in source order (they
    assign disjoint fields), then the two [.then] stages.  The detail
    configurations are only requested for the groups that are present.  The
    requests themselves ([configureMqtt], [registerEventListener] and the
    [apiCall]s behind [r]) are not journaled here; a query that fails leaves
    the device unregistered. *)
Definition construct (rev : Revision) (spec : DeviceSpec) (r : Responses)
  : Outcome unit * World :=
  run (onSystemConfig (r_system_config r) >>
       onDevice (r_device r) >>
       onThermostat rev (r_thermostat r) >>
       match rev with
       | IndexJs => ret tt
       | Part000 => onOutputs (r_outputs r)
       end >>
       registerSchema rev >>
       do d <- this (fun d => d);
       applyDetails rev
         (if shade1 d || shade2 d then r_blind_config r else None)
         (if dimmerGroup1 d || dimmerGroup2 d then r_dimmer_config r else None))
      (newDingz spec).

(** ** Serialisation *)

Record DeviceDict := mkDeviceDict {
  dict_id : string;
  dict_title : string;
  dict_atType : list string;
  dict_properties : gmap string Property;
  dict_actions : gmap string Action;
  dict_events : gmap string EventMeta
}.

(** [Device.asDict] of gateway-addon: every registered property (each
    through its own [asDict], to which [BasicDingzProperty.asDict] adds
    [visible]) and every registered action, keyed by name. *)
Definition Device_asDict (d : Dingz) : DeviceDict :=
  mkDeviceDict (id d) (title d) (atType d) (properties d) (actions d)
    (events d).

(** [for (const [key, x] of Object.entries(obj)) if (hidden x) delete obj[key]] *)
Definition delete_hidden {A} (hidden : A -> bool) (obj : gmap string A)
  : gmap string A :=
  foldl (fun acc entry => if hidden entry.2 then delete entry.1 acc else acc)
        obj (map_to_list obj).

(** [property.visible === false] *)
Definition property_hidden (p : Property) : bool := negb (p_visible p).

(** [action.visible === false]: an action without the field is kept. *)
Definition action_hidden (a : Action) : bool :=
  bool_decide (a_visible a = Some false).

(** [Dingz.asDict] *)
Definition asDict (d : Dingz) : DeviceDict :=
  let dict := Device_asDict d in
  mkDeviceDict (dict_id dict) (dict_title dict) (dict_atType dict)
    (delete_hidden property_hidden (dict_properties dict))
    (delete_hidden action_hidden (dict_actions dict))
    (dict_events dict).

(** ** Device HTTP calls *)

Section ApiCall.

(** The decoded body type is left open: [apiCall] hands back whatever
    [response.json()] produces without looking at it.  Reading the body can
    fail, for the decoded body as for the text. *)
Context {J : Type}.

Record Response := mkResponse {
  status : Z;
  text : Outcome string;   (* [await response.text()] *)
  json : Outcome J         (* what the promise [response.json()] settles to *)
}.

(** What [await fetch(...)] settles to. *)
Inductive FetchOutcome :=
| Rejected (e : Error)
| Responded (r : Response).

(** [response.ok] as the Fetch standard defines it. *)
Definition response_ok (r : Response) : bool :=
  (200 <=? status r) && (status r <=? 299).

(** The catch clause's test. *)
Definition unreachable (error : Error) : bool :=
  bool_decide (e_type error = Some "system")
  && (bool_decide (e_code error = Some "ETIMEDOUT")
      || bool_decide (e_code error = Some "EHOSTUNREACH")).

(** [Dingz.apiCall].  The [try] statement yields what its [return] hands
    over: [return response.json()] hands over the promise without [await], so
    the promise settles outside the [try] statement and a rejected body read
    does not pass through the [catch] clause. *)
Definition apiCall (path method : string) (net : FetchOutcome)
  : Js (option J) :=
  do addr <- this address;
  if negb (truthy addr) then
    emit (Console "warn") >> ret None
  else
    do returned <-
      try_catch
        (emit (Fetch addr path method) >>
         match net with
         | Rejected e => throw e
         | Responded response =>
             if response_ok response && (status response <? 400) then
               if negb (status response =? 204)
                  && negb (bool_decide (method = "POST"))
               then ret (Some (json response))
               else ret None
             else
               match text response with
               | Return error =>
                   throw (newError (pretty (status response) +:+ ": " +:+ error))
               | Throw e => throw e
               end
         end)
        (fun error =>
           if unreachable error then
             connectedNotify (VBool false) >> ret None
           else throw error);
    match returned with
    | Some (Return body) => ret (Some body)
    | Some (Throw e) => throw e
    | None => ret None
    end.

End ApiCall.

Arguments Response : clear implicits.
Arguments FetchOutcome : clear implicits.

(** ** Periodic poll *)

Record DimmerState := mkDimmerState {
  dm_absolute : Z;     (* [dimmer.index.absolute] *)
  dm_on : Value;
  dm_value : Value
}.

Record BlindState := mkBlindState {
  bl_absolute : Z;     (* [blind.index.absolute] *)
  bl_position : Value;
  bl_lamella : Value
}.

Record ThermostatState := mkThermostatState {
  th_active : bool;
  th_enabled : bool;
  th_on : bool;
  th_mode : string;
  th_target_temp : Value;
  th_min_target_temp : option Z;
  th_max_target_temp : option Z;
  th_out : option Z    (* read by [src/index.js] only *)
}.

(** The body of [GET state].  [room_temperature] is [None] when the key is
    absent; [power_outputs] lists the [value] of each entry. *)
Record Snapshot := mkSnapshot {
  brightness : Value;
  room_temperature : option Value;
  power_outputs : list Value;
  led_on : Value;
  led_mode : string;
  led_hsv : string;
  led_rgb : string;
  dimmers : list DimmerState;
  blinds : list BlindState;
  snap_thermostat : ThermostatState
}.

(** [THERMOSTAT_STATE_TO_MODE[mode]] *)
Definition THERMOSTAT_STATE_TO_MODE (mode : string) : Value :=
  if bool_decide (mode = "heating") then VStr "heat"
  else if bool_decide (mode = "cooling") then VStr "cool"
  else VUndefined.

(** [state.sensors.power_outputs[i].value] *)
Definition power_output (state : Snapshot) (i : option Z) : Js Value :=
  match i ≫= at_index (power_outputs state) with
  | Some v => ret v
  | None => undefined_access
  end.

Definition is_null (v : Value) : bool :=
  match v with VNull => true | _ => false end.

Section Poll.

(** [hsv2rgb] is floating-point arithmetic on the three components; the
    poll only stores its result, so it is taken as given here. *)
Variable hsv2rgb : string -> string.

Definition poll_dimmer (state : Snapshot) (dimmer : DimmerState) : Js unit :=
  do d <- this (fun d => d);
  let absolute := dm_absolute dimmer in
  when (((absolute >? 1) && dimmerGroup2 d)
        || ((absolute <=? 1) && dimmerGroup1 d))
    (let dimmerID := "dimmer" +:+ pretty (absolute + 1) in
     set_cached dimmerID (ret (dm_on dimmer)) >>
     set_cached (dimmerID +:+ "Brightness") (ret (dm_value dimmer)) >>
     set_cached (dimmerID +:+ "Power") (power_output state (Some absolute))).

Definition poll_blind (state : Snapshot) (blind : BlindState) : Js unit :=
  do d <- this (fun d => d);
  let absolute := bl_absolute blind in
  when (((absolute =? 0) && shade1 d) || ((absolute =? 1) && shade2 d))
    (let shadeID := "shade" +:+ pretty (absolute + 1) in
     set_cached shadeID (ret (bl_position blind)) >>
     set_cached (shadeID +:+ "Lamella") (ret (bl_lamella blind)) >>
     let baseIndex := absolute * 2 in
     do motor1Power <- power_output state (Some baseIndex);
     do motor2Power <- power_output state (Some (baseIndex + 1));
     set_cached (shadeID +:+ "Power") (ret (js_or motor1Power motor2Power))).

Definition poll_thermostat (rev : Revision) (state : Snapshot) : Js unit :=
  do d <- this (fun d => d);
  let t := snap_thermostat state in
  when (th_active t && thermostat d)
    (set_cached "targetTemperature" (ret (th_target_temp t)) >>
     update_property "targetTemperature"
       (with_bounds (th_min_target_temp t) (th_max_target_temp t)) >>
     let thermostatMode :=
       if th_enabled t then THERMOSTAT_STATE_TO_MODE (th_mode t)
       else VStr "off" in
     set_cached "thermostatMode" (ret thermostatMode) >>
     let thermostatState := if th_on t then VStr (th_mode t) else VStr "off" in
     set_cached "thermostatState" (ret thermostatState) >>
     let out := match rev with
                | IndexJs => th_out t
                | Part000 => thermostatOutput d
                end in
     set_cached ("dimmer" +:+ show (nan_plus out 1) +:+ "Power")
       (power_output state out)).

(** The reconciliation of a snapshot: the body of [poll] once [state] has
    arrived. *)
Definition reconcile (rev : Revision) (state : Snapshot) : Js unit :=
  when (negb (is_null (brightness state)))
    (set_cached "lightLevel" (ret (brightness state))) >>
  match room_temperature state with
  | Some t => set_cached "temperature" (ret t)
  | None => ret tt
  end >>
  set_cached "led" (ret (led_on state)) >>
  let color := if bool_decide (led_mode state = "hsv")
               then hsv2rgb (led_hsv state) else led_rgb state in
  set_cached "ledColor" (ret (VStr ("#" +:+ color))) >>
  for_of (dimmers state) (poll_dimmer state) >>
  for_of (blinds state) (poll_blind state) >>
  poll_thermostat rev state.

(** [Dingz.poll]; [net] is what the [state] request settles to, should it
    be issued. *)
Definition poll (rev : Revision) (net : FetchOutcome Snapshot) : Js unit :=
  do c <- this connected;
  if negb (truthy c) then ret tt
  else
    do state <- apiCall "state" "GET" net;
    match state with
    | None =>
        match rev with
        | IndexJs => undefined_access     (* [state.sensors] *)
        | Part000 => ret tt               (* [if (!state) return] *)
        end
    | Some state => reconcile rev state
    end.

End Poll.

(** ** Webhook events ([src/index.js]) *)

(** [a <= b] with a possibly-[NaN] left side. *)
Definition nan_le (a : option Z) (b : Z) : bool :=
  match a with Some a => a <=? b | None => false end.

(** [a === b] for numbers. *)
Definition nan_eq (a : option Z) (b : Z) : bool :=
  match a with Some a => a =? b | None => false end.

Definition handleGenericEvent (index action : string) : Js unit :=
  let indexNumber := Str.parseInt index in
  if nan_le indexNumber 4 then
    let keyID := "key" +:+ index in
    if bool_decide (action = "1") then eventNotify (keyID +:+ "single")
    else if bool_decide (action = "2") then eventNotify (keyID +:+ "double")
    else if bool_decide (action = "3") then eventNotify (keyID +:+ "long")
    else if bool_decide (action = "20") then eventNotify (keyID +:+ "tripple")
    else if bool_decide (action = "21") then eventNotify (keyID +:+ "quadruple")
    else if bool_decide (action = "8") || bool_decide (action = "begin")
    then set_cached keyID (ret (VBool true))
    else if bool_decide (action = "9") || bool_decide (action = "end")
    then set_cached keyID (ret (VBool false))
    else ret tt
  else if nan_eq indexNumber 5 then
    if bool_decide (action = "8") then set_cached "motion" (ret (VBool true))
    else if bool_decide (action = "9") then set_cached "motion" (ret (VBool false))
    else ret tt
  else ret tt.

(** ** Push messages ([src/unnamed/part_000]) *)

(** Own property of a parsed JSON object, last binding first. *)
Definition obj_get (fields : list (string * Value)) (k : string) : Value :=
  foldl (fun acc entry => if bool_decide (entry.1 = k) then entry.2 else acc)
        VUndefined fields.

(** [v.k] for the field names the adapter reads ([ip], [model], [status],
    [mode], [target], [turn], [brightness], [position], [lamella], [on],
    [r], [g], [b]): none of them exists on a primitive or an array. *)
Definition member (v : Value) (k : string) : Outcome Value :=
  match v with
  | VUndefined | VNull =>
      Throw (TypeError "Cannot read properties of undefined")
  | VObj fields => Return (obj_get fields k)
  | _ => Return VUndefined
  end.

Definition get (v : Value) (k : string) : Js Value :=
  fun w => (member v k, w).

(** [v === s] for a string literal [s]. *)
Definition is_string (v : Value) (s : string) : bool :=
  match v with VStr t => bool_decide (t = s) | _ => false end.

Definition hex_digit (d : Z) : ascii :=
  if d <? 10 then ascii_of_nat (48 + Z.to_nat d)
  else ascii_of_nat (87 + Z.to_nat d).

Fixpoint hex_go (fuel : nat) (n : Z) (acc : string) : string :=
  match fuel with
  | O => acc
  | S fuel' =>
      let acc' := String (hex_digit (n mod 16)) acc in
      if n <? 16 then acc' else hex_go fuel' (n / 16) acc'
  end.

(** [n.toString(16)] for an integer. *)
Definition hex (n : Z) : string :=
  if n <? 0 then "-" +:+ hex_go (S (Z.to_nat (Z.log2 (- n)))) (- n) EmptyString
  else hex_go (S (Z.to_nat (Z.log2 n))) n EmptyString.

(** ToString. *)
Fixpoint to_string (v : Value) : string :=
  match v with
  | VUndefined => "undefined"
  | VNull => "null"
  | VBool b => if b then "true" else "false"
  | VNum n => pretty n
  | VStr s => s
  | VArr items =>
      Str.join ","
        (map (fun x => match x with
                       | VUndefined | VNull => EmptyString
                       | _ => to_string x
                       end) items)
  | VObj _ => "[object Object]"
  end.

(** [v.toString(16)]: the radix only matters for numbers. *)
Definition toString16 (v : Value) : Js string :=
  match v with
  | VUndefined | VNull => undefined_access
  | VNum n => ret (hex n)
  | _ => ret (to_string v)
  end.

(** [s.padStart(2, '0')] *)
Definition padStart2 (s : string) : string :=
  match String.length s with
  | O => "00"
  | S O => "0" +:+ s
  | _ => s
  end.

(** One colour channel of the [state/led] message. *)
Definition channel (message : Value) (k : string) : Js string :=
  do c <- get message k;
  do h <- toString16 c;
  ret (padStart2 h).

(** [parseInt(details[1], 10) + 1]; a missing segment is [undefined], which
    parses to [NaN]. *)
Definition detail_index (details : list string) : option Z :=
  nan_plus (details !! 1%nat ≫= Str.parseInt10) 1.

Definition button_event (keyID : string) (message : Value) : Js unit :=
  if is_string message "p" then
    set_cached keyID (ret (VBool true))
  else if is_string message "m1" then
    eventNotify (keyID +:+ "single") >> set_cached keyID (ret (VBool false))
  else if is_string message "m2" then
    eventNotify (keyID +:+ "double") >> set_cached keyID (ret (VBool false))
  else if is_string message "m3" then
    eventNotify (keyID +:+ "tripple") >> set_cached keyID (ret (VBool false))
  else if is_string message "m2" then
    eventNotify (keyID +:+ "quadruple") >> set_cached keyID (ret (VBool false))
  else if is_string message "h" then
    ret tt
  else if is_string message "r" then
    eventNotify (keyID +:+ "long") >> set_cached keyID (ret (VBool false))
  else
    (* default: [message.startsWith("m")] *)
    match message with
    | VStr s =>
        if Str.startsWith s "m" then set_cached keyID (ret (VBool false))
        else emit (Console "warn")
    | VUndefined | VNull => undefined_access
    | _ => throw (TypeError "message.startsWith is not a function")
    end.

(** [Dingz.mqttEvent] *)
Definition mqttEvent (path : string) (message : Value) : Js unit :=
  let parts := Str.split "/" path in
  let deviceType := parts !! 0%nat in
  let event := parts !! 1%nat in
  let details := drop 2 parts in
  if bool_decide (deviceType = Some "online") then
    connectedNotify message
  else if bool_decide (deviceType = Some "announce") then
    do ip <- get message "ip";
    modify (set_address ip) >>
    do model <- get message "model";
    modify (set_deviceType model)
  else if bool_decide (deviceType = Some "last_alive") then
    ret tt
  else
    modify (set_deviceType (from_option VStr VUndefined deviceType)) >>
    if bool_decide (event = Some "sensor") then
      if bool_decide (details !! 0%nat = Some "temperature") then
        set_cached_opt "temperature" (ret message)
      else if bool_decide (details !! 0%nat = Some "light") then
        set_cached_opt "lightLevel" (ret message)
      else ret tt
    else if bool_decide (event = Some "power") then
      let index := detail_index details in
      if bool_decide (details !! 0%nat = Some "motor") then
        set_cached_opt ("shade" +:+ show index +:+ "Power") (ret message)
      else if bool_decide (details !! 0%nat = Some "light") then
        set_cached_opt ("dimmer" +:+ show index +:+ "Power") (ret message)
      else ret tt
    else if bool_decide (event = Some "energy") then
      ret tt
    else if bool_decide (event = Some "state") then
      if bool_decide (details !! 0%nat = Some "light") then
        let index := detail_index details in
        set_cached_opt ("dimmer" +:+ show index)
          (do turn <- get message "turn"; ret (VBool (is_string turn "off"))) >>
        set_cached_opt ("dimmer" +:+ show index +:+ "Brightness")
          (get message "brightness")
      else if bool_decide (details !! 0%nat = Some "thermostat") then
        set_cached_opt "thermostatMode" (get message "status") >>
        set_cached_opt "thermostatState"
          (do status <- get message "status";
           if is_string status "on" then get message "mode"
           else ret (VStr "off")) >>
        set_cached_opt "targetTemperature" (get message "target")
      else if bool_decide (details !! 0%nat = Some "motor") then
        let index := detail_index details in
        set_cached_opt ("shade" +:+ show index) (get message "position") >>
        set_cached_opt ("shade" +:+ show index +:+ "Lamella")
          (get message "lamella")
      else if bool_decide (details !! 0%nat = Some "led") then
        set_cached_opt "led"
          (do on <- get message "on";
           ret (VBool match on with VNum 1 => true | _ => false end)) >>
        set_cached_opt "ledColor"
          (do r <- channel message "r";
           do g <- channel message "g";
           do b <- channel message "b";
           ret (VStr ("#" +:+ r +:+ g +:+ b)))
      else if bool_decide (details !! 0%nat = Some "input") then
        emit (Console "warn")
      else ret tt
    else if bool_decide (event = Some "event") then
      if bool_decide (details !! 0%nat = Some "button") then
        let keyID := "key" +:+ show (detail_index details) in
        if bool_decide (keyID = "key5") then emit (Console "warn")
        else button_event keyID message
      else if bool_decide (details !! 0%nat = Some "pir") then
        when (bool_decide (details !! 1%nat = Some "0"))
          (set_cached_opt "motion" (ret message))
      else ret tt
    else if bool_decide (event = Some "command") then
      ret tt
    else
      emit (Console "warn").


(** ** The MQTT client ([DingzMQTT], [DingzAdapter]) *)

Record Adapter := mkAdapter {
  devices : gmap string Dingz;
  reported : list Effect
}.

Definition dquote : string := String "034"%char EmptyString.

(** The malformed key of thermostat state messages and its repair. *)
Definition broken_target_key : string :=
  Eval cbv in dquote +:+ "target:" +:+ dquote.
Definition repaired_target_key : string :=
  Eval cbv in dquote +:+ "target" +:+ dquote +:+ ":".

(** Run a device method on a registered device and store the device back. *)
Definition on_device {A} (key : string) (d : Dingz) (m : Js A) (a : Adapter)
  : Outcome A * Adapter :=
  let '(o, w) := run m d in
  (o, mkAdapter (<[key := self w]> (devices a)) (reported a ++ emitted w)).

(** [DingzAdapter.handleDiscovery]: a known device is revived, an unknown
    one is constructed (it registers itself once its queries are done). *)
Definition handleDiscovery (spec : DeviceSpec) (a : Adapter)
  : Outcome unit * Adapter :=
  let deviceId := "dingz-" +:+ Str.toLowerCase (spec_mac spec) in
  match devices a !! deviceId with
  | Some d => on_device deviceId d (updateFromDiscovery (spec_address spec)) a
  | None =>
      (Return tt,
       mkAdapter (devices a)
         (reported a ++ [NewDingz (spec_mac spec) (spec_address spec)]))
  end.

Section Mqtt.

(** [JSON.parse]; [None] when it throws. *)
Variable JSON_parse : string -> option Value.

(** The [try]/[catch] of the message handler: the parsed payload, or
    [None] when the payload is logged and dropped. *)
Definition parse_payload (topic messageString : string) : option Value :=
  let messageString :=
    if Str.endsWith topic "state/thermostat"
    then Str.replace messageString broken_target_key repaired_target_key
    else messageString in
  match JSON_parse messageString with
  | Some parsedMessage => Some parsedMessage
  | None =>
      if bool_decide (messageString ∈ ["s"; "ss"; "n"]) then
        Some (VBool (negb (bool_decide (messageString = "n"))))
      else if bool_decide (messageString ∈ ["p"; "h"; "r"])
              || Str.startsWith messageString "m" then
        Some (VStr messageString)
      else None
  end.

(** The ['message'] handler of [DingzMQTT.connect]. *)
Definition on_message (topic message : string) (a : Adapter)
  : Outcome unit * Adapter :=
  let parts := Str.split "/" topic in
  let dingzTopic := parts !! 0%nat in
  let dingzId := parts !! 1%nat in
  let localPath := drop 2 parts in
  if negb (bool_decide (dingzTopic = Some "dingz")) then (Return tt, a)
  else
    let key := "dingz-" +:+ default "undefined" dingzId in
    match parse_payload topic message with
    | None => (Return tt, mkAdapter (devices a) (reported a ++ [Console "error"]))
    | Some parsedMessage =>
        match devices a !! key with
        | None =>
            if bool_decide (localPath !! 0%nat = Some "announce") then
              match dingzId with
              | None => (Throw (TypeError "dingzId is undefined"), a)
              | Some dingzId =>
                  match member parsedMessage "ip" with
                  | Throw e => (Throw e, a)
                  | Return ip =>
                      handleDiscovery
                        (mkDeviceSpec (Str.toUpperCase dingzId) ip) a
                  end
              end
            else (Return tt, a)
        | Some device =>
            on_device key device
              (mqttEvent (Str.join "/" localPath) parsedMessage) a
        end
    end.

End Mqtt.

(** ** A reference [JSON.parse]

    A parser for JSON texts whose numbers are integers and whose strings
    have no escapes, to run the message handler on concrete payloads. *)

Module JSON.

Definition is_ws (c : ascii) : bool :=
  let n := nat_of_ascii c in
  ((n =? 32) || (n =? 9) || (n =? 10) || (n =? 13))%nat.

Fixpoint skip_ws (s : string) : string :=
  match s with
  | String c s' => if is_ws c then skip_ws s' else s
  | EmptyString => EmptyString
  end.

(** The characters up to the closing quote. *)
Fixpoint string_body (s : string) : option (string * string) :=
  match s with
  | EmptyString => None
  | String c s' =>
      if Ascii.eqb c "034" then Some (EmptyString, s')
      else if Ascii.eqb c "\" then None
      else match string_body s' with
           | Some (body, rest) => Some (String c body, rest)
           | None => None
           end
  end.

Definition is_digit (c : ascii) : bool :=
  let n := nat_of_ascii c in ((48 <=? n) && (n <=? 57))%nat.

Fixpoint digits (acc : Z) (s : string) : Z * string :=
  match s with
  | String c s' =>
      if is_digit c
      then digits (acc * 10 + Z.of_nat (nat_of_ascii c - 48)) s'
      else (acc, s)
  | EmptyString => (acc, s)
  end.

(** An integer literal; fractions and exponents are not covered. *)
Definition number (s : string) : option (Z * string) :=
  let '(sign, body) := match s with
                       | String "-" s' => (-1, s')
                       | _ => (1, s)
                       end in
  match body with
  | String c rest =>
      if is_digit c then
        if Ascii.eqb c "0" && match rest with
                              | String c' _ => is_digit c'
                              | EmptyString => false
                              end
        then None
        else
          let '(n, rest') := digits 0 body in
          match rest' with
          | String "." _ | String "e" _ | String "E" _ => None
          | _ => Some (sign * n, rest')
          end
      else None
  | EmptyString => None
  end.

Definition literal (word : string) (v : Value) (s : string)
  : option (Value * string) :=
  if String.prefix word s then Some (v, Str.drop (String.length word) s)
  else None.

Fixpoint value (fuel : nat) (s : string) : option (Value * string) :=
  match fuel with
  | O => None
  | S fuel' =>
      match skip_ws s with
      | String "{" rest =>
          match skip_ws rest with
          | String "}" rest' => Some (VObj [], rest')
          | _ => members fuel' rest []
          end
      | String "[" rest =>
          match skip_ws rest with
          | String "]" rest' => Some (VArr [], rest')
          | _ => elements fuel' rest []
          end
      | String "034" rest =>
          match string_body rest with
          | Some (body, rest') => Some (VStr body, rest')
          | None => None
          end
      | String "t" _ as s' => literal "true" (VBool true) s'
      | String "f" _ as s' => literal "false" (VBool false) s'
      | String "n" _ as s' => literal "null" VNull s'
      | s' =>
          match number s' with
          | Some (n, rest) => Some (VNum n, rest)
          | None => None
          end
      end
  end
with members (fuel : nat) (s : string) (acc : list (string * Value))
  : option (Value * string) :=
  match fuel with
  | O => None
  | S fuel' =>
      match skip_ws s with
      | String "034" rest =>
          match string_body rest with
          | Some (key, rest1) =>
              match skip_ws rest1 with
              | String ":" rest2 =>
                  match value fuel' rest2 with
                  | Some (v, rest3) =>
                      match skip_ws rest3 with
                      | String "," rest4 =>
                          members fuel' rest4 (acc ++ [(key, v)])
                      | String "}" rest4 =>
                          Some (VObj (acc ++ [(key, v)]), rest4)
                      | _ => None
                      end
                  | None => None
                  end
              | _ => None
              end
          | None => None
          end
      | _ => None
      end
  end
with elements (fuel : nat) (s : string) (acc : list Value)
  : option (Value * string) :=
  match fuel with
  | O => None
  | S fuel' =>
      match value fuel' s with
      | Some (v, rest) =>
          match skip_ws rest with
          | String "," rest' => elements fuel' rest' (acc ++ [v])
          | String "]" rest' => Some (VArr (acc ++ [v]), rest')
          | _ => None
          end
      | None => None
      end
  end.

Definition parse (s : string) : option Value :=
  match value (S (String.length s)) s with
  | Some (v, rest) =>
      match skip_ws rest with
      | EmptyString => Some v
      | _ => None
      end
  | None => None
  end.

End JSON.


(** ** Outbound commands ([src/unnamed/part_000]) *)

(** A relative index of [slice], resolved against the length. *)
Definition slice_index (len i : Z) : Z :=
  if i <? 0 then Z.max (len + i) 0 else Z.min i len.

(** [s.slice(start, stop)]; [stop] is [None] when the argument is omitted. *)
Definition slice (s : string) (start : Z) (stop : option Z) : string :=
  let len := Z.of_nat (String.length s) in
  let from := slice_index len start in
  let to := slice_index len (default len stop) in
  if from <? to
  then Str.take (Z.to_nat (to - from)) (Str.drop (Z.to_nat from) s)
  else EmptyString.

(** [items.slice(start, stop)] on an array. *)
Definition slice_items {A} (items : list A) (start : Z) (stop : option Z)
  : list A :=
  let len := Z.of_nat (length items) in
  let from := slice_index len start in
  let to := slice_index len (default len stop) in
  if from <? to
  then take (Z.to_nat (to - from)) (drop (Z.to_nat from) items)
  else [].

(** [parseInt(s, 16)]: an optional [0x]/[0X] prefix is skipped. *)
Definition parseInt16 (s : string) : option Z :=
  let '(sign, body) := Str.signed (Str.trimStart s) in
  (fun n => sign * n) <$>
    match body with
    | String "0" (String "x" hex) | String "0" (String "X" hex) =>
        Str.digits 16 None hex
    | _ => Str.digits 16 None body
    end.

(** A computed number as it is published: [JSON.stringify] writes [NaN] as
    [null]. *)
Definition published_number (n : option Z) : Value :=
  match n with
  | Some z => VNum z
  | None => VNull
  end.

(** An object literal as it is published: [JSON.stringify] leaves out the
    fields whose value is [undefined]. *)
Definition published (fields : list (string * Value)) : Value :=
  VObj (List.filter (fun field => match field.2 with
                                  | VUndefined => false
                                  | _ => true
                                  end) fields).

(** [Dingz.sendMqttEvent] followed by [DingzMQTT.sendEvent]; [message] is
    the JSON value that goes out, [broker] the error the publish callback
    reports, if any. *)
Definition sendMqttEvent (path : string) (message : Value)
    (broker : option Error) : Js unit :=
  do deviceType <- this deviceType;
  if negb (truthy deviceType) then emit (Console "error")
  else
    do m <- this mac;
    emit (Publish ("dingz/" +:+ Str.toLowerCase m +:+ "/"
                   +:+ to_string deviceType +:+ "/" +:+ path) message) >>
    match broker with
    | Some error => throw error
    | None => ret tt
    end.

(** [Device.getProperty] of gateway-addon: the cached value of a registered
    property; the promise is rejected when there is no such property. *)
Definition getProperty (name : string) : Js Value :=
  do p <- findProperty name;
  match p with
  | Some p => ret (p_value p)
  | None => throw (newError "Property not found")
  end.

(** One colour channel of a [ledColor] write:
    [parseInt(value.slice(start, stop), 16)]. *)
Definition channel_of (value : Value) (start : Z) (stop : option Z)
  : Js (option Z) :=
  match value with
  | VStr s => ret (parseInt16 (slice s start stop))
  | VArr items => ret (parseInt16 (to_string (VArr (slice_items items start stop))))
  | _ => throw (TypeError "value.slice is not a function")
  end.

Section SetValue.

(** The body of the status request is not looked at. *)
Context {J : Type}.

(** [Property.setValue] of gateway-addon on the property called [name]:
    the inherited method every write ends in. *)
Variable super_setValue : string -> Value -> Js Value.

(** [DingzProperty.setValue] on the property called [name]; [net] and
    [broker] are what the HTTP request and the publish settle to, should
    they be issued. *)
Definition setValue (name : string) (value : Value) (net : FetchOutcome J)
    (broker : option Error) : Js Value :=
  if bool_decide (name = "led") then
    let action := if truthy value then 1 else 0 in
    sendMqttEvent "command/led" (published [("on", VNum action)]) broker >>
    super_setValue name value
  else if bool_decide (name = "ledColor") then
    if negb (truthy value) then ret VUndefined
    else
      do r <- channel_of value 1 (Some 3);
      do g <- channel_of value 3 (Some 5);
      do b <- channel_of value 5 None;
      sendMqttEvent "command/led"
        (published [("r", published_number r); ("g", published_number g);
                    ("b", published_number b)]) broker >>
      super_setValue name value
  else if bool_decide (name = "targetTemperature") then
    do mode <- getProperty "thermostatMode";
    apiCall ("thermostat/" +:+ to_string mode +:+ "?temp=" +:+ to_string value)
      "POST" net >>
    super_setValue name value
  else if bool_decide (name = "thermostatMode") then
    do targetTemperature <- getProperty "targetTemperature";
    apiCall ("thermostat/" +:+ (if truthy value then "on" else "off")
             +:+ "?temp=" +:+ to_string targetTemperature)
      "POST" net >>
    super_setValue name value
  else if Str.startsWith name "shade" then
    let index := slice name 5 None in
    do triple <-
      (if Str.endsWith name "Lamella" then
         do blindValue <-
           try_catch (getProperty (slice name 0 (Some (-7))))
                     (fun _ => ret (VNum 100));
         ret (slice index 0 (Some (-7)), blindValue, value)
       else
         do lamellaValue <-
           try_catch (getProperty (name +:+ "Lamella"))
                     (fun _ => ret (VNum 100));
         ret (index, value, lamellaValue));
    let '(index, blindValue, lamellaValue) := triple in
    let indexNumber := Str.parseInt index in
    sendMqttEvent ("command/motor/" +:+ show (nan_plus indexNumber (-1)))
      (published [("position", blindValue); ("lamella", lamellaValue)])
      broker >>
    super_setValue name value
  else
    (* names starting with [dimmer]: nothing is sent *)
    super_setValue name value.

End SetValue.

(** [Dingz.performAction] on the action called [name]. *)
Definition performAction (name : string) (broker : option Error) : Js unit :=
  if Str.startsWith name "shade" then
    let index := nan_plus (Str.parseInt (slice name 5 (Some 6))) (-1) in
    let actionName := slice name 6 None in
    let send motion :=
      sendMqttEvent ("command/motor/" +:+ show index)
        (published [("motion", VNum motion)]) broker in
    if bool_decide (actionName = "stop") then send 0
    else if bool_decide (actionName = "up") then send 1
    else if bool_decide (actionName = "down") then send 2
    else emit (Console "error")
  else if Str.startsWith name "dimmer" then
    sendMqttEvent
      ("command/light/"
       +:+ show (nan_plus (Str.parseInt (slice name 6 (Some 7))) (-1)))
      (published [("turn", VStr "toggle")]) broker
  else ret tt.

(** ** UDP discovery ([src/index.js]) *)

Definition DINGZ_DISCOVERY_PORT : Z := 7979.


(** ** Example installations *)

Module Examples.

Definition spec : DeviceSpec := mkDeviceSpec "aaBb" (VStr "10.0.0.1").

(** Query results of a puck with dip code [dip], a motion sensor and an
    active thermostat driving output [out]. *)
Definition responses (dip : Z) (out : option Z) : Responses :=
  mkResponses
    (Some (mkSystemConfig "Room" "Puck"))
    (Some {[ "AABB" := mkDeviceInfo dip true ]})
    (Some (mkThermostatInfo true out))
    (Some [None; Some (mkOutput "heating_valve" true out)])
    (Some [mkBlind "lamella_90" (Some 0) (Some 100) "Left";
           mkBlind "blind" (Some 0) (Some 100) EmptyString])
    (Some [mkDimmerLine "output" true "light" "Ceiling";
           mkDimmerLine "not_connected" false "light" EmptyString;
           mkDimmerLine "output" true "light" "Desk";
           mkDimmerLine "output" true "light" EmptyString]).

(** The device the constructor registers. *)
Definition puck (rev : Revision) (dip : Z) (out : option Z) : Dingz :=
  self (construct rev spec (responses dip out)).2.

Definition adapter (dip : Z) (out : option Z) : Adapter :=
  mkAdapter {[ "dingz-aabb" := puck Part000 dip out ]} [].

Definition thermostat_state : ThermostatState :=
  mkThermostatState true true true "heating" (VNum 21) (Some 5) (Some 30)
    (Some 2).

(** A full snapshot with four dimmer entries and two blinds. *)
Definition snapshot : Snapshot :=
  mkSnapshot (VNum 120) (Some (VNum 22)) [VNum 7; VNum 0; VNum 9; VNum 4]
    (VBool true) "rgb" "0;0;100" "FF0000"
    [mkDimmerState 0 (VBool true) (VNum 80);
     mkDimmerState 1 (VBool false) (VNum 0);
     mkDimmerState 2 (VBool true) (VNum 55);
     mkDimmerState 3 (VBool true) (VNum 10)]
    [mkBlindState 0 (VNum 40) (VNum 10); mkBlindState 1 (VNum 0) (VNum 0)]
    thermostat_state.

Definition ok_response : FetchOutcome Snapshot :=
  Responded (mkResponse 200 (Return EmptyString) (Return snapshot)).

Definition no_hsv (hsv : string) : string := "000000".

Definition quoted (s : string) : string := dquote +:+ s +:+ dquote.

(** A well-formed thermostat state message. *)
Definition thermostat_payload : string :=
  Eval vm_compute in
    "{" +:+ quoted "status" +:+ ":" +:+ quoted "on" +:+ ","
    +:+ quoted "mode" +:+ ":" +:+ quoted "heating" +:+ ","
    +:+ quoted "target" +:+ ":21}".

(** The same message as the firmware sends it, with the colon inside the
    quotes of the last key. *)
Definition payload_before_key : string :=
  Eval vm_compute in
    "{" +:+ quoted "status" +:+ ":" +:+ quoted "on" +:+ ","
    +:+ quoted "mode" +:+ ":" +:+ quoted "heating" +:+ ",".

Definition malformed_thermostat_payload : string :=
  Eval vm_compute in payload_before_key +:+ broken_target_key +:+ "21}".

(** A snapshot whose thermostat is enabled and heating. *)
Definition thermostat_response : FetchOutcome Snapshot :=
  Responded (mkResponse 200 (Return EmptyString) (Return snapshot)).

End Examples.

(** * Vocabulary of the statements *)

(** [keeps I m]: running [m] from a world satisfying [I] ends, normally or
    by a throw, in a world satisfying [I]. *)
Definition keeps (I : World -> Prop) {A} (m : Js A) : Prop :=
  forall w, I w -> I (m w).2.

(** The journal of [w] continues the journal of [w0]. *)
Definition extends (w0 w : World) : Prop := emitted w0 `prefix_of` emitted w.

(** The world once the request has gone out. *)
Definition issued (path method : string) (w : World) : World :=
  mkWorld (self w) (emitted w ++ [Fetch (address (self w)) path method]).

(** The world once the request has gone out and the device was found
    unreachable. *)
Definition gone (path method : string) (w : World) : World :=
  mkWorld (set_connected (VBool false) (self w))
          (emitted (issued path method w) ++ [ConnectedNotify (VBool false)]).

(** The number in the name of the power property that the thermostat block
    of this poll refreshes, if the block can run at all. *)
Definition valve_slot (rev : Revision) (net : FetchOutcome Snapshot) (d : Dingz)
  : option Z :=
  match net with
  | Responded r =>
      match json r with
      | Return state =>
          let t := snap_thermostat state in
          if th_active t && thermostat d
          then nan_plus match rev with
                    | IndexJs => th_out t
                    | Part000 => thermostatOutput d
                    end 1
          else None
      | Throw _ => None
      end
  | Rejected _ => None
  end.

(** Every property name but [target]. *)
Definition other_than (target name : string) : Prop := name <> target.

(** The part of a device a poll must leave alone when dimmer group B is
    absent: the flags it decides by, and the property called [name]. *)
Definition untouched (d : Dingz) (name : string) (w : World) : Prop :=
  dimmerGroup2 (self w) = false
  /\ thermostat (self w) = thermostat d
  /\ thermostatOutput (self w) = thermostatOutput d
  /\ properties (self w) !! name = properties d !! name.

(** The world after [setCachedValueAndNotify(v)] on property [name]. *)
Definition cached (name : string) (v : Value) (w : World) : World :=
  mkWorld (set_properties (alter (with_value v) name (properties (self w)))
             (self w))
          (emitted w).

(** The world after [eventNotify] of event [name]. *)
Definition notified (name : string) (w : World) : World :=
  mkWorld (self w) (emitted w ++ [EventNotify name]).

(** What one button push does to the example installation: the events fired
    and the pressed state of the key afterwards. *)
Definition push_button (button token : string) : list Effect * option Value :=
  let result :=
    on_message JSON.parse ("dingz/aabb/dz1/event/button/" +:+ button) token
      (Examples.adapter 3 None) in
  (reported result.2,
   devices result.2 !! "dingz-aabb" ≫= fun d =>
     p_value <$> properties d !! ("key" +:+ show (nan_plus (Str.parseInt10 button) 1))).

(** The characters a printed integer is made of. *)
Definition sign_or_digit (c : ascii) : bool :=
  let n := nat_of_ascii c in
  ((n =? 45) || ((48 <=? n) && (n <=? 57)))%nat.

(** A string made of sign and digit characters only. *)
Fixpoint numeric (s : string) : bool :=
  match s with
  | EmptyString => true
  | String c s' => sign_or_digit c && numeric s'
  end.

(** A suffix that cannot be mistaken for more digits. *)
Definition headless (s : string) : bool :=
  match s with
  | EmptyString => true
  | String c _ => negb (sign_or_digit c)
  end.

(** A topic segment: a string without the separator. *)
Fixpoint no_slash (s : string) : bool :=
  match s with
  | EmptyString => true
  | String c s' => negb (Ascii.eqb c "/") && no_slash s'
  end.

(** What a [state/thermostat] message does to the device. *)
Definition thermostat_pushed (model : string) (fields : list (string * Value))
    (w : World) : World :=
  let status := obj_get fields "status" in
  cached "targetTemperature" (obj_get fields "target")
    (cached "thermostatState"
       (if is_string status "on" then obj_get fields "mode" else VStr "off")
       (cached "thermostatMode" status
          (mkWorld (set_deviceType (VStr model) (self w)) (emitted w)))).

(** A property as it is declared: without its cached value. *)
Definition declared (p : Property) : Property := with_value VUndefined p.

(** A property as it is declared, bounds aside. *)
Definition declared_unbounded (p : Property) : Property :=
  with_bounds None None (declared p).

(** What is fixed once a device is registered, maps aside. *)
Definition wiring (d : Dingz) :=
  (id d, mac d, title d, atType d,
   (shade1 d, shade2 d, dimmerGroup1 d, dimmerGroup2 d),
   (motionSensor d, thermostat d, thermostatOutput d)).

(** [d'] has the schema of [d]: the same fixed fields, actions and events,
    and the same properties up to what [erase] forgets of each. *)
Definition same_schema (erase : string -> Property -> Property) (d d' : Dingz)
  : Prop :=
  wiring d' = wiring d
  /\ actions d' = actions d
  /\ events d' = events d
  /\ forall name,
       erase name <$> properties d' !! name = erase name <$> properties d !! name.

(** The one part of a declaration a poll may rewrite: the bounds of the
    target temperature. *)
Definition bounds_of_target (name : string) (p : Property) : Property :=
  if bool_decide (name = "targetTemperature") then declared_unbounded p
  else declared p.

(** The text the message handler hands to [JSON.parse]: the payload, with
    the thermostat key repaired on thermostat state topics. *)
Definition text_of (topic message : string) : string :=
  if Str.endsWith topic "state/thermostat"
  then Str.replace message broken_target_key repaired_target_key
  else message.

(** The colour string the [state/led] branch of [mqttEvent] assembles from
    three channel values. *)
Definition color_of (r g b : Z) : string :=
  "#" +:+ padStart2 (hex r) +:+ padStart2 (hex g) +:+ padStart2 (hex b).

(** The world after a message was published under the device's topic. *)
Definition sent (model path : string) (message : Value) (w : World) : World :=
  mkWorld (self w)
          (emitted w ++ [Publish ("dingz/" +:+ Str.toLowerCase (mac (self w))
                                  +:+ "/" +:+ model +:+ "/" +:+ path) message]).

(** The cached value of a companion property, or the fallback 100 when the
    property is not registered. *)
Definition companion (name : string) (w : World) : Value :=
  match properties (self w) !! name with
  | Some p => p_value p
  | None => VNum 100
  end.

(** Two-digit hexadecimal round trip of one byte, as a check. *)
Definition byte_round_trips (c : Z) : bool :=
  match padStart2 (hex c) with
  | String x (String y EmptyString) =>
      bool_decide (parseInt16 (String x (String y EmptyString)) = Some c)
  | _ => false
  end.


(** * Properties *)

(** ** Capability resolution *)

Lemma onDevice_run (d : Dingz) (info : gmap string DeviceInfo)
    (deviceInfo : DeviceInfo) :
  info !! mac d = Some deviceInfo ->
  run (onDevice (Some info)) d =
    (Return tt,
     mkWorld
       (set_wiring
          ((dip_config deviceInfo =? 0) || (dip_config deviceInfo =? 2))
          (dip_config deviceInfo <=? 1)
          ((dip_config deviceInfo =? 1) || (dip_config deviceInfo =? 3))
          (dip_config deviceInfo >=? 2)
          (has_pir deviceInfo) d) []).
Proof.
  intros Hinfo. unfold run, onDevice, bind, this, modify. simpl.
  rewrite Hinfo. reflexivity.
Qed.

Ltac dip_cases dip :=
  let H := fresh in
  assert (H : dip = 0 \/ dip = 1 \/ dip = 2 \/ dip = 3) by lia;
  destruct H as [-> | [-> | [-> | ->]]].

(** C2: for a dip code in 0..3 returned by the [device] query, shutter 1 is
    present iff the code is 0 or 2, shutter 2 iff it is at most 1, dimmer
    group A iff it is 1 or 3, dimmer group B iff it is at least 2. *)
Theorem C2_dip_config_truth_table (d : Dingz) (info : gmap string DeviceInfo)
    (deviceInfo : DeviceInfo) :
  info !! mac d = Some deviceInfo ->
  0 <= dip_config deviceInfo <= 3 ->
  let dip := dip_config deviceInfo in
  let result := run (onDevice (Some info)) d in
  result.1 = Return tt
  /\ (shade1 (self result.2) = true <-> dip = 0 \/ dip = 2)
  /\ (shade2 (self result.2) = true <-> dip <= 1)
  /\ (dimmerGroup1 (self result.2) = true <-> dip = 1 \/ dip = 3)
  /\ (dimmerGroup2 (self result.2) = true <-> dip >= 2).
Proof.
  intros Hinfo Hrange dip result. subst result.
  rewrite (onDevice_run _ _ _ Hinfo). fold dip. simpl.
  split; [reflexivity |].
  dip_cases dip; simpl; repeat split; intros; try lia; try discriminate;
    try reflexivity; auto.
Qed.

Lemma C2_dip_config_truth_table_witness :
  let d := newDingz Examples.spec in
  let result := run (onDevice (r_device (Examples.responses 2 None))) d in
  result.1 = Return tt
  /\ (shade1 (self result.2) = true <-> 2 = 0 \/ 2 = 2)
  /\ (shade2 (self result.2) = true <-> 2 <= 1)
  /\ (dimmerGroup1 (self result.2) = true <-> 2 = 1 \/ 2 = 3)
  /\ (dimmerGroup2 (self result.2) = true <-> 2 >= 2).
Proof.
  apply (C2_dip_config_truth_table (newDingz Examples.spec)
           {[ "AABB" := mkDeviceInfo 2 true ]} (mkDeviceInfo 2 true)).
  - vm_compute. reflexivity.
  - simpl. lia.
Defined.

(** The flags of the device the constructor registers, for each dip code
    and both revisions: (shade1, shade2, dimmerGroup1, dimmerGroup2). *)
Example registered_wiring :
  Forall (fun rev =>
            map (fun dip =>
                   let d := Examples.puck rev dip None in
                   (shade1 d, shade2 d, dimmerGroup1 d, dimmerGroup2 d))
                [0; 1; 2; 3]
            = [(true, true, false, false); (false, true, true, false);
               (true, false, false, true); (false, false, true, true)])
         [IndexJs; Part000].
Proof. repeat (constructor; [vm_compute; reflexivity |]). constructor. Qed.

(** C10: for a dip code in 0..3 exactly one of shutter 1 / dimmer group A is
    present, and exactly one of shutter 2 / dimmer group B. *)
Theorem C10_shade_xor_dimmer_group (d : Dingz) (info : gmap string DeviceInfo)
    (deviceInfo : DeviceInfo) :
  info !! mac d = Some deviceInfo ->
  0 <= dip_config deviceInfo <= 3 ->
  let d' := self (run (onDevice (Some info)) d).2 in
  xorb (shade1 d') (dimmerGroup1 d') = true
  /\ xorb (shade2 d') (dimmerGroup2 d') = true.
Proof.
  intros Hinfo Hrange d'. subst d'.
  rewrite (onDevice_run _ _ _ Hinfo). simpl.
  dip_cases (dip_config deviceInfo); split; reflexivity.
Qed.

Lemma C10_shade_xor_dimmer_group_witness :
  let d' := self (run (onDevice (r_device (Examples.responses 1 None)))
                      (newDingz Examples.spec)).2 in
  xorb (shade1 d') (dimmerGroup1 d') = true
  /\ xorb (shade2 d') (dimmerGroup2 d') = true.
Proof.
  apply (C10_shade_xor_dimmer_group (newDingz Examples.spec)
           {[ "AABB" := mkDeviceInfo 1 true ]} (mkDeviceInfo 1 true)).
  - vm_compute. reflexivity.
  - simpl. lia.
Defined.

(** ** Invariants of device methods *)

Section Invariant.

Variable I : World -> Prop.

Lemma keeps_ret {A} (a : A) : keeps I (ret a).
Proof. intros w Hw. exact Hw. Qed.

Lemma keeps_throw {A} (e : Error) : keeps I (@throw A e).
Proof. intros w Hw. exact Hw. Qed.

Lemma keeps_this {A} (f : Dingz -> A) : keeps I (this f).
Proof. intros w Hw. exact Hw. Qed.

Lemma keeps_get (v : Value) (k : string) : keeps I (get v k).
Proof. intros w Hw. exact Hw. Qed.

Lemma keeps_bind {A B} (m : Js A) (k : A -> Js B) :
  keeps I m -> (forall a, keeps I (k a)) -> keeps I (bind m k).
Proof.
  intros Hm Hk w Hw. unfold bind. specialize (Hm w Hw).
  destruct (m w) as [[a | e] w']; simpl in *.
  - apply Hk, Hm.
  - exact Hm.
Qed.

(** The continuation may use what it read from the current world. *)
Lemma keeps_bind_this {A B} (f : Dingz -> A) (k : A -> Js B) :
  (forall w, I w -> I (k (f (self w)) w).2) -> keeps I (bind (this f) k).
Proof. intros Hk w Hw. unfold bind, this. apply Hk, Hw. Qed.

Lemma keeps_try_catch {A} (m : Js A) (h : Error -> Js A) :
  keeps I m -> (forall e, keeps I (h e)) -> keeps I (try_catch m h).
Proof.
  intros Hm Hh w Hw. unfold try_catch. specialize (Hm w Hw).
  destruct (m w) as [[a | e] w']; simpl in *.
  - exact Hm.
  - apply Hh, Hm.
Qed.

Lemma keeps_when (b : bool) (m : Js unit) :
  (b = true -> keeps I m) -> keeps I (when b m).
Proof. destruct b; intros Hm; [apply Hm; reflexivity | apply keeps_ret]. Qed.

Lemma keeps_for_of {A} (xs : list A) (body : A -> Js unit) :
  (forall x, keeps I (body x)) -> keeps I (for_of xs body).
Proof.
  intros Hbody. induction xs as [| x xs IH]; simpl.
  - apply keeps_ret.
  - apply keeps_bind; [apply Hbody | intros _; exact IH].
Qed.

(** What the invariant must tolerate: journal entries, connectivity
    changes, and writes to the properties named by [writable]. *)
Variable writable : string -> Prop.
Hypothesis I_emit : forall e, keeps I (emit e).
Hypothesis I_connected : forall v, keeps I (modify (set_connected v)).
Hypothesis I_update :
  forall name f, writable name -> keeps I (update_property name f).

Lemma keeps_connectedNotify (state : Value) : keeps I (connectedNotify state).
Proof.
  unfold connectedNotify. apply keeps_bind; [apply I_emit |].
  intros _. apply I_connected.
Qed.

Lemma keeps_set_cached (name : string) (arg : Js Value) :
  writable name -> keeps I arg -> keeps I (set_cached name arg).
Proof.
  intros Hname Harg. unfold set_cached.
  apply keeps_bind; [apply keeps_this |].
  intros [p |]; [| apply keeps_throw].
  apply keeps_bind; [exact Harg |]. intros v. apply I_update, Hname.
Qed.

Lemma keeps_set_cached_opt (name : string) (arg : Js Value) :
  writable name -> keeps I arg -> keeps I (set_cached_opt name arg).
Proof.
  intros Hname Harg. unfold set_cached_opt.
  apply keeps_bind; [apply keeps_this |].
  intros [p |]; [| apply keeps_ret].
  apply keeps_bind; [exact Harg |]. intros v. apply I_update, Hname.
Qed.

Lemma keeps_power_output (state : Snapshot) (i : option Z) :
  keeps I (power_output state i).
Proof.
  unfold power_output.
  destruct (i ≫= at_index (power_outputs state));
    [apply keeps_ret | apply keeps_throw].
Qed.

Lemma keeps_apiCall {J} (path method : string) (net : FetchOutcome J) :
  keeps I (apiCall path method net).
Proof.
  unfold apiCall. apply keeps_bind; [apply keeps_this |]. intros addr.
  destruct (negb (truthy addr)).
  - apply keeps_bind; [apply I_emit | intros _; apply keeps_ret].
  - apply keeps_bind.
    + apply keeps_try_catch.
      * apply keeps_bind; [apply I_emit |]. intros _.
        destruct net as [e | r]; [apply keeps_throw |].
        destruct (response_ok r && (status r <? 400)).
        -- destruct (negb (status r =? 204)
                     && negb (bool_decide (method = "POST")));
             apply keeps_ret.
        -- destruct (text r); apply keeps_throw.
      * intros e. destruct (unreachable e); [| apply keeps_throw].
        apply keeps_bind; [apply keeps_connectedNotify |].
        intros _. apply keeps_ret.
    + intros [[body | e] |]; [apply keeps_ret | apply keeps_throw | apply keeps_ret].
Qed.

(** The three loops of a reconciliation write only what the wiring flags
    of the current device allow. *)
Hypothesis I_dimmer : forall w absolute,
  I w ->
  ((absolute >? 1) && dimmerGroup2 (self w))
  || ((absolute <=? 1) && dimmerGroup1 (self w)) = true ->
  writable ("dimmer" +:+ pretty (absolute + 1))
  /\ writable ("dimmer" +:+ pretty (absolute + 1) +:+ "Brightness")
  /\ writable ("dimmer" +:+ pretty (absolute + 1) +:+ "Power").
Hypothesis I_blind : forall absolute,
  writable ("shade" +:+ pretty (absolute + 1))
  /\ writable ("shade" +:+ pretty (absolute + 1) +:+ "Lamella")
  /\ writable ("shade" +:+ pretty (absolute + 1) +:+ "Power").
Hypothesis I_fixed : forall name,
  name ∈ ["lightLevel"; "temperature"; "led"; "ledColor";
          "targetTemperature"; "thermostatMode"; "thermostatState"] ->
  writable name.

(** From a goal about one world to a [keeps] goal about its program. *)
Ltac enter_keeps :=
  lazymatch goal with
  | Hw : ?I ?w |- ?I (?m ?w).2 =>
      let K := fresh "K" in
      cut (keeps I m); [intros K; exact (K w Hw) |]
  end.

Ltac keeps_steps :=
  repeat lazymatch goal with
    | |- keeps I (bind _ _) => apply keeps_bind; [| intros ?]
    | |- keeps I (set_cached _ _) => apply keeps_set_cached
    | |- keeps I (ret _) => apply keeps_ret
    | |- keeps I (power_output _ _) => apply keeps_power_output
    | |- keeps I (update_property _ _) => apply I_update
    | |- keeps I (let _ := _ in _) => cbv zeta
    end.

Lemma keeps_poll_dimmer (state : Snapshot) (dimmer : DimmerState) :
  keeps I (poll_dimmer state dimmer).
Proof.
  unfold poll_dimmer. apply keeps_bind_this. intros w Hw.
  destruct (((dm_absolute dimmer >? 1) && dimmerGroup2 (self w))
            || ((dm_absolute dimmer <=? 1) && dimmerGroup1 (self w)))
    eqn:Hguard; [| exact Hw].
  destruct (I_dimmer w (dm_absolute dimmer) Hw Hguard) as (H1 & H2 & H3).
  unfold when. enter_keeps. keeps_steps; assumption.
Qed.

Lemma keeps_poll_blind (state : Snapshot) (blind : BlindState) :
  keeps I (poll_blind state blind).
Proof.
  unfold poll_blind. apply keeps_bind; [apply keeps_this |]. intros d.
  apply keeps_when. intros _.
  destruct (I_blind (bl_absolute blind)) as (H1 & H2 & H3).
  keeps_steps; assumption.
Qed.

(** The thermostat block of a reconciliation refreshes the power reading
    of the valve output. *)
Variables (rev : Revision) (state : Snapshot).
Hypothesis I_valve : forall w,
  I w ->
  th_active (snap_thermostat state) && thermostat (self w) = true ->
  writable ("dimmer"
            +:+ show (nan_plus match rev with
                           | IndexJs => th_out (snap_thermostat state)
                           | Part000 => thermostatOutput (self w)
                           end 1)
            +:+ "Power").

Lemma keeps_poll_thermostat : keeps I (poll_thermostat rev state).
Proof.
  unfold poll_thermostat. apply keeps_bind_this. intros w Hw.
  destruct (th_active (snap_thermostat state) && thermostat (self w))
    eqn:Hguard; [| exact Hw].
  pose proof (I_valve w Hw Hguard) as Hvalve.
  unfold when. enter_keeps.
  keeps_steps; try assumption; apply I_fixed; repeat constructor.
Qed.

Variable hsv2rgb : string -> string.

Lemma keeps_reconcile : keeps I (reconcile hsv2rgb rev state).
Proof.
  unfold reconcile.
  apply keeps_bind.
  { apply keeps_when. intros _. apply keeps_set_cached;
      [apply I_fixed; repeat constructor | apply keeps_ret]. }
  intros _. apply keeps_bind.
  { destruct (room_temperature state); [| apply keeps_ret].
    apply keeps_set_cached; [apply I_fixed; repeat constructor | apply keeps_ret]. }
  intros _. apply keeps_bind.
  { apply keeps_set_cached; [apply I_fixed; repeat constructor | apply keeps_ret]. }
  intros _. apply keeps_bind.
  { apply keeps_set_cached; [apply I_fixed; repeat constructor | apply keeps_ret]. }
  intros _. apply keeps_bind.
  { apply keeps_for_of. intros x. apply keeps_poll_dimmer. }
  intros _. apply keeps_bind.
  { apply keeps_for_of. intros x. apply keeps_poll_blind. }
  intros _. apply keeps_poll_thermostat.
Qed.

End Invariant.

(** ** The journal only grows *)

Lemma extends_refl (w : World) : extends w w.
Proof. unfold extends. reflexivity. Qed.

Lemma extends_emit (w0 : World) (e : Effect) : keeps (extends w0) (emit e).
Proof. intros w Hw. unfold extends in *. simpl. by apply prefix_app_r. Qed.

Lemma extends_modify (w0 : World) (f : Dingz -> Dingz) :
  keeps (extends w0) (modify f).
Proof. intros w Hw. exact Hw. Qed.

Lemma extends_reconcile (w0 : World) hsv2rgb rev state :
  keeps (extends w0) (reconcile hsv2rgb rev state).
Proof.
  apply (keeps_reconcile (extends w0) (fun _ => True)); try done.
  intros name f _. apply extends_modify.
Qed.

Lemma extends_apiCall {J} (w0 : World) path method (net : FetchOutcome J) :
  keeps (extends w0) (apiCall path method net).
Proof.
  apply (keeps_apiCall (extends w0)); auto using extends_emit, extends_modify.
Qed.

(** ** Device HTTP calls *)

Lemma apiCall_rejected {J} path method (e : Error) (w : World) :
  truthy (address (self w)) = true ->
  apiCall (J := J) path method (Rejected e) w =
    if unreachable e then (Return None, gone path method w)
    else (Throw e, issued path method w).
Proof.
  intros Haddr. unfold apiCall, bind, this, try_catch, emit, throw. simpl.
  rewrite Haddr. simpl. destruct (unreachable e); reflexivity.
Qed.

Lemma response_ok_false {J} (r : Response J) :
  ~ (200 <= status r <= 299) -> response_ok r = false.
Proof. unfold response_ok. intros H. lia. Qed.

Lemma apiCall_text_rejected {J} path method (r : Response J) (e : Error)
    (w : World) :
  truthy (address (self w)) = true ->
  ~ (200 <= status r <= 299) ->
  text r = Throw e ->
  apiCall path method (Responded r) w =
    if unreachable e then (Return None, gone path method w)
    else (Throw e, issued path method w).
Proof.
  intros Haddr Hstatus Htext.
  unfold apiCall, bind, this, try_catch, emit, throw. simpl.
  rewrite Haddr, (response_ok_false r Hstatus), Htext. simpl.
  destruct (unreachable e); reflexivity.
Qed.

Lemma apiCall_bad_status {J} path method (r : Response J) (body : string)
    (w : World) :
  truthy (address (self w)) = true ->
  ~ (200 <= status r <= 299) ->
  text r = Return body ->
  apiCall path method (Responded r) w =
    (Throw (newError (pretty (status r) +:+ ": " +:+ body)),
     issued path method w).
Proof.
  intros Haddr Hstatus Htext.
  unfold apiCall, bind, this, try_catch, emit, throw. simpl.
  rewrite Haddr, (response_ok_false r Hstatus), Htext. reflexivity.
Qed.

Lemma response_ok_true {J} (r : Response J) :
  200 <= status r <= 299 -> response_ok r && (status r <? 400) = true.
Proof. unfold response_ok. intros H. lia. Qed.

(** What a call that was answered with a 2xx status settles to: the
    decoded body, if one is asked for and its read succeeds. *)
Lemma apiCall_answered {J} path method (r : Response J) (w : World) :
  truthy (address (self w)) = true ->
  200 <= status r <= 299 ->
  apiCall path method (Responded r) w
  = (if negb (status r =? 204) && negb (bool_decide (method = "POST"))
     then match json r with
          | Return body => Return (Some body)
          | Throw e => Throw e
          end
     else Return None,
     issued path method w).
Proof.
  intros Haddr Hstatus.
  unfold apiCall, bind, this, try_catch, emit, throw, ret. simpl.
  rewrite Haddr, (response_ok_true r Hstatus). simpl.
  destruct (negb (status r =? 204) && negb (bool_decide (method = "POST")));
    [| reflexivity].
  by destruct (json r).
Qed.

Lemma apiCall_body_rejected {J} path method (r : Response J) (e : Error)
    (w : World) :
  truthy (address (self w)) = true ->
  200 <= status r <= 299 ->
  status r <> 204 ->
  method <> "POST" ->
  json r = Throw e ->
  apiCall path method (Responded r) w = (Throw e, issued path method w).
Proof.
  intros Haddr Hstatus H204 Hpost Hjson.
  rewrite apiCall_answered by assumption.
  rewrite (proj2 (Z.eqb_neq _ _) H204), bool_decide_eq_false_2 by exact Hpost.
  simpl. by rewrite Hjson.
Qed.

(** C4 (the code departs from the claim): in [apiCall], a failure of the
    request itself, or of reading the body of a response outside 200..299,
    that is a [system] error with code [ETIMEDOUT] or [EHOSTUNREACH] marks
    the device disconnected and the call resolves with no value; every
    other such failure is thrown to the caller with the device untouched,
    and a response outside 200..299 is an error whose message is the status
    code and the body text.  A failure of reading the body of a 2xx response
    is not classified: whatever the error, also a [system] [ETIMEDOUT] or
    [EHOSTUNREACH], it is thrown to the caller and the device stays as it
    was, connected flag included. *)
Theorem C4_apiCall_failure_classes {J : Type} (path method : string)
    (w : World) :
  truthy (address (self w)) = true ->
  (forall (net : FetchOutcome J) (e : Error),
      net = Rejected e
      \/ (exists r, net = Responded r /\ ~ (200 <= status r <= 299)
                    /\ text r = Throw e) ->
      apiCall path method net w =
        if unreachable e then (Return None, gone path method w)
        else (Throw e, issued path method w))
  /\ (forall (r : Response J) (body : string),
         ~ (200 <= status r <= 299) ->
         text r = Return body ->
         apiCall path method (Responded r) w =
           (Throw (newError (pretty (status r) +:+ ": " +:+ body)),
            issued path method w))
  /\ (forall (r : Response J) (e : Error),
         200 <= status r <= 299 ->
         status r <> 204 ->
         method <> "POST" ->
         json r = Throw e ->
         apiCall path method (Responded r) w = (Throw e, issued path method w))
  /\ connected (self (gone path method w)) = VBool false
  /\ self (issued path method w) = self w.
Proof.
  intros Haddr. split; [| split; [| split; [| split]]].
  - intros net e [-> | (r & -> & Hstatus & Htext)].
    + by apply apiCall_rejected.
    + by apply apiCall_text_rejected.
  - intros r body Hstatus Htext. by apply apiCall_bad_status.
  - intros r e Hstatus H204 Hpost Hjson. by apply apiCall_body_rejected.
  - reflexivity.
  - reflexivity.
Qed.

Lemma C4_apiCall_failure_classes_witness :
  let w := mkWorld (Examples.puck IndexJs 0 None) [] in
  let timeout := mkError "connect ETIMEDOUT" (Some "system") (Some "ETIMEDOUT") in
  let refused := mkResponse (J := Snapshot) 500 (Return "boom") (Throw timeout) in
  let cut := mkResponse (J := Snapshot) 200 (Return EmptyString) (Throw timeout) in
  unreachable timeout = true
  /\ apiCall (J := Snapshot) "state" "GET" (Rejected timeout) w
     = (Return None, gone "state" "GET" w)
  /\ apiCall "state" "GET" (Responded refused) w
     = (Throw (newError "500: boom"), issued "state" "GET" w)
  /\ apiCall "state" "GET" (Responded cut) w
     = (Throw timeout, issued "state" "GET" w)
  /\ connected (self (issued "state" "GET" w)) = connected (self w).
Proof.
  intros w timeout refused cut.
  assert (Haddr : truthy (address (self w)) = true) by reflexivity.
  destruct (C4_apiCall_failure_classes (J := Snapshot) "state" "GET" w Haddr)
    as (Hfail & Hstatus & Hbody & _ & Hself).
  split; [reflexivity |]. split; [| split; [| split]].
  - apply (Hfail (Rejected timeout) timeout). left. reflexivity.
  - apply (Hstatus refused "boom"); [simpl; lia | reflexivity].
  - apply (Hbody cut timeout); [simpl; lia | discriminate | discriminate
                                | reflexivity].
  - by rewrite Hself.
Defined.

(** ** Connectivity and polling *)

Lemma poll_disconnected hsv2rgb rev net (w : World) :
  truthy (connected (self w)) = false ->
  poll hsv2rgb rev net w = (Return tt, w).
Proof.
  intros Hc. unfold poll, bind, this. simpl. rewrite Hc. reflexivity.
Qed.

Lemma polls_disconnected hsv2rgb rev nets (w : World) :
  truthy (connected (self w)) = false ->
  for_of nets (poll hsv2rgb rev) w = (Return tt, w).
Proof.
  intros Hc. induction nets as [| net nets IH]; simpl; [reflexivity |].
  unfold bind. rewrite (poll_disconnected _ _ _ _ Hc). exact IH.
Qed.

Lemma updateFromDiscovery_connected (addr : Value) (w : World) :
  connected (self (updateFromDiscovery addr w).2) = VBool true.
Proof.
  unfold updateFromDiscovery, connectedNotify, bind, emit, modify, when, throw,
    ret.
  simpl. destruct (truthy addr); [| reflexivity].
  destruct addr as [| | b | n | a | items | fields]; simpl; try reflexivity.
  - destruct (negb (Str.includes a ":")); reflexivity.
  - destruct (negb _); reflexivity.
Qed.

Lemma apiCall_issues {J} path method (net : FetchOutcome J) (w : World) :
  truthy (address (self w)) = true ->
  extends (issued path method w) (apiCall path method net w).2.
Proof.
  intros Haddr. unfold apiCall, bind, this, try_catch, emit, throw, ret.
  simpl. rewrite Haddr. simpl.
  destruct net as [e | r].
  - destruct (unreachable e); simpl; [| apply extends_refl].
    unfold extends. simpl. by apply prefix_app_r.
  - destruct (response_ok r && (status r <? 400)).
    + destruct (negb (status r =? 204) && negb (bool_decide (method = "POST")));
        [| apply extends_refl].
      destruct (json r); apply extends_refl.
    + destruct (text r) as [body | e]; simpl.
      * apply extends_refl.
      * destruct (unreachable e); simpl; [| apply extends_refl].
        unfold extends. simpl. by apply prefix_app_r.
Qed.

Lemma poll_connected_issues hsv2rgb rev net (w : World) :
  truthy (connected (self w)) = true ->
  truthy (address (self w)) = true ->
  Fetch (address (self w)) "state" "GET" ∈ emitted (poll hsv2rgb rev net w).2.
Proof.
  intros Hc Haddr.
  assert (Hext : extends (issued "state" "GET" w) (poll hsv2rgb rev net w).2).
  { unfold poll, bind at 1, this. simpl. rewrite Hc. simpl.
    pose proof (apiCall_issues (J := Snapshot) "state" "GET" net w Haddr) as Hissued.
    unfold bind.
    destruct (apiCall "state" "GET" net w) as [[[state |] | e] w']; simpl in *;
      try exact Hissued.
    - by apply extends_reconcile.
    - destruct rev; exact Hissued. }
  destruct Hext as [l Hl]. rewrite Hl. simpl.
  rewrite !elem_of_app. left. right. constructor.
Qed.

(** C3: while [connected] is false every poll cycle returns at once,
    issuing no request and leaving the device as it is; [updateFromDiscovery]
    sets [connected] again, after which a poll does query the device. *)
Theorem C3_disconnected_device_ignores_polls hsv2rgb rev (w : World) :
  connected (self w) = VBool false ->
  (forall nets, for_of nets (poll hsv2rgb rev) w = (Return tt, w))
  /\ (forall addr, connected (self (updateFromDiscovery addr w).2) = VBool true)
  /\ (forall addr net,
         let w' := (updateFromDiscovery addr w).2 in
         truthy (address (self w')) = true ->
         Fetch (address (self w')) "state" "GET"
           ∈ emitted (poll hsv2rgb rev net w').2).
Proof.
  intros Hc. repeat split.
  - intros nets. apply polls_disconnected. rewrite Hc. reflexivity.
  - intros addr. apply updateFromDiscovery_connected.
  - intros addr net w' Haddr. apply poll_connected_issues; [| exact Haddr].
    subst w'. rewrite updateFromDiscovery_connected. reflexivity.
Qed.

Lemma C3_disconnected_device_ignores_polls_witness :
  let w := mkWorld (set_connected (VBool false) (Examples.puck Part000 3 None)) [] in
  for_of [Examples.ok_response; Examples.ok_response]
         (poll Examples.no_hsv Part000) w = (Return tt, w).
Proof.
  intros w.
  apply (C3_disconnected_device_ignores_polls Examples.no_hsv Part000 w).
  reflexivity.
Defined.

(** ** Serialisation *)

Section DeleteHidden.

Context {A : Type} (hidden : A -> bool).

Lemma prune_lookup (entries : list (string * A)) (obj : gmap string A)
    (k : string) :
  foldl (fun acc entry => if hidden entry.2 then delete entry.1 acc else acc)
        obj entries !! k =
    if existsb (fun entry => bool_decide (entry.1 = k) && hidden entry.2) entries
    then None else obj !! k.
Proof.
  revert obj. induction entries as [| [k' x] entries IH]; intros obj; simpl.
  - reflexivity.
  - rewrite IH. simpl.
    destruct (existsb _ entries); [by rewrite orb_true_r |].
    rewrite orb_false_r.
    destruct (hidden x); [| by rewrite andb_false_r].
    rewrite andb_true_r. case_bool_decide as Hk.
    + subst. apply lookup_delete_eq.
    + by apply lookup_delete_ne.
Qed.

Lemma delete_hidden_lookup (obj : gmap string A) (k : string) :
  delete_hidden hidden obj !! k =
    match obj !! k with
    | Some x => if hidden x then None else Some x
    | None => None
    end.
Proof.
  unfold delete_hidden. rewrite (prune_lookup (map_to_list obj) obj k).
  destruct (existsb _ (map_to_list obj)) eqn:Hex.
  - apply existsb_exists in Hex as ([k' x] & Hin & Hhit). simpl in Hhit.
    apply andb_true_iff in Hhit as [Hk Hx].
    apply bool_decide_eq_true in Hk. subst k'.
    apply list_elem_of_In, elem_of_map_to_list in Hin.
    by rewrite Hin, Hx.
  - destruct (obj !! k) as [x |] eqn:Hk; [| reflexivity].
    destruct (hidden x) eqn:Hx; [| reflexivity].
    assert (existsb (fun entry => bool_decide (entry.1 = k) && hidden entry.2)
              (map_to_list obj) = true) as Hyes; [| congruence].
    apply existsb_exists. exists (k, x). split.
    + by apply list_elem_of_In, elem_of_map_to_list.
    + simpl. rewrite Hx. by rewrite bool_decide_eq_true_2.
Qed.

End DeleteHidden.

Lemma asDict_property (d : Dingz) (name : string) :
  dict_properties (asDict d) !! name =
    match properties d !! name with
    | Some p => if p_visible p then Some p else None
    | None => None
    end.
Proof.
  unfold asDict, Device_asDict. simpl.
  rewrite delete_hidden_lookup. unfold property_hidden.
  destruct (properties d !! name) as [p |]; [| reflexivity].
  by destruct (p_visible p).
Qed.

Lemma asDict_action (d : Dingz) (name : string) :
  dict_actions (asDict d) !! name =
    match actions d !! name with
    | Some a => if bool_decide (a_visible a = Some false) then None else Some a
    | None => None
    end.
Proof.
  unfold asDict, Device_asDict. simpl.
  rewrite delete_hidden_lookup. reflexivity.
Qed.

(** C9: the serialised device has exactly the properties whose [visible]
    is not [false] and exactly the actions whose [visible] is not [false],
    each unchanged; a hidden one has no key at all. *)
Theorem C9_asDict_omits_invisible (d : Dingz) (name : string) :
  dict_properties (asDict d) !! name =
    match properties d !! name with
    | Some p => if p_visible p then Some p else None
    | None => None
    end
  /\ dict_actions (asDict d) !! name =
       match actions d !! name with
       | Some a => if bool_decide (a_visible a = Some false) then None else Some a
       | None => None
       end.
Proof. split; [apply asDict_property | apply asDict_action]. Qed.

(** A shutter without lamella ([shade2] of this puck is a plain blind in
    the [src/index.js] reading of [blind_config]): the lamella property is
    registered but hidden, and serialisation drops its key while the
    position and power stay. *)
Example asDict_hidden_lamella :
  let d := Examples.puck IndexJs 0 None in
  (p_visible <$> properties d !! "shade2Lamella") = Some false
  /\ dict_properties (asDict d) !! "shade2Lamella" = None
  /\ dict_properties (asDict d) !! "shade2" = properties d !! "shade2"
  /\ dict_properties (asDict d) !! "shade2Power" = properties d !! "shade2Power"
  /\ is_Some (properties d !! "shade2").
Proof.
  intros d.
  assert (Hl : (p_visible <$> properties d !! "shade2Lamella") = Some false)
    by (vm_compute; reflexivity).
  split; [exact Hl |]. split.
  - rewrite asDict_property.
    destruct (properties d !! "shade2Lamella") as [p |]; [| reflexivity].
    simpl in Hl. injection Hl as ->. reflexivity.
  - assert (Hv : forall n, (p_visible <$> properties d !! n) = Some true ->
                      dict_properties (asDict d) !! n = properties d !! n).
    { intros n Hn. rewrite asDict_property.
      destruct (properties d !! n) as [p |]; [| discriminate].
      simpl in Hn. injection Hn as ->. reflexivity. }
    split; [apply Hv; vm_compute; reflexivity |].
    split; [apply Hv; vm_compute; reflexivity |].
    vm_compute. eauto.
Qed.

(** ** Property names *)

Lemma append_nil_l (s : string) : EmptyString +:+ s = s.
Proof. reflexivity. Qed.

Lemma append_cons (c : ascii) (a s : string) :
  String c a +:+ s = String c (a +:+ s).
Proof. reflexivity. Qed.

Lemma append_nil_r (s : string) : s +:+ EmptyString = s.
Proof.
  induction s as [| c s IH]; [done |]. by rewrite append_cons, IH.
Qed.

Lemma pretty_N_char_numeric (x : N) : sign_or_digit (pretty_N_char x) = true.
Proof. unfold pretty_N_char. by repeat case_match. Qed.

Lemma pretty_N_go_numeric (x : N) (s : string) :
  numeric s = true -> numeric (pretty_N_go x s) = true.
Proof.
  revert s. induction (N.lt_wf_0 x) as [x _ IH]. intros s Hs.
  assert (x = 0 \/ 0 < x)%N as [-> | Hpos] by lia.
  - by rewrite pretty_N_go_0.
  - rewrite pretty_N_go_step by done. apply IH.
    + by apply N.div_lt.
    + simpl. by rewrite pretty_N_char_numeric, Hs.
Qed.

Lemma pretty_N_numeric (x : N) : numeric (pretty x) = true.
Proof.
  unfold pretty, pretty_N. case_decide; [reflexivity |].
  by apply pretty_N_go_numeric.
Qed.

Lemma pretty_Z_numeric (z : Z) : numeric (pretty z) = true.
Proof.
  destruct z as [| p | p]; [reflexivity | apply pretty_N_numeric |].
  change (pretty (Z.neg p)) with ("-" +:+ pretty (N.pos p)).
  rewrite append_cons, append_nil_l. simpl. apply pretty_N_numeric.
Qed.

Lemma numeric_app_inj (a b s t : string) :
  numeric a = true -> numeric b = true ->
  headless s = true -> headless t = true ->
  a +:+ s = b +:+ t -> a = b /\ s = t.
Proof.
  revert b. induction a as [| c a IH]; intros [| c' b] Ha Hb Hs Ht Heq;
    rewrite ?append_cons, ?append_nil_l in Heq; simpl in *.
  - done.
  - subst s. simpl in Hs. apply andb_true_iff in Hb as [Hc _].
    by rewrite Hc in Hs.
  - subst t. simpl in Ht. apply andb_true_iff in Ha as [Hc _].
    by rewrite Hc in Ht.
  - injection Heq as -> Heq.
    apply andb_true_iff in Ha as [_ Ha]. apply andb_true_iff in Hb as [_ Hb].
    destruct (IH b Ha Hb Hs Ht Heq) as [-> ->]. done.
Qed.

(** Names built as [prefix ++ number ++ suffix] are equal only when number
    and suffix are. *)
Lemma indexed_name_inj (prefix : string) (a b : Z) (s t : string) :
  headless s = true -> headless t = true ->
  prefix +:+ pretty a +:+ s = prefix +:+ pretty b +:+ t -> a = b /\ s = t.
Proof.
  intros Hs Ht Heq. apply (inj (String.app prefix)) in Heq.
  apply numeric_app_inj in Heq as [Hab ->];
    auto using pretty_Z_numeric.
  split; [| done]. by apply (inj pretty).
Qed.

Lemma indexed_name_inj0 (prefix : string) (a b : Z) (t : string) :
  headless t = true ->
  prefix +:+ pretty a = prefix +:+ pretty b +:+ t -> a = b /\ EmptyString = t.
Proof.
  intros Ht Heq. rewrite <- (append_nil_r (pretty a)) in Heq.
  by apply indexed_name_inj in Heq.
Qed.

Lemma headless_suffix (suf : string) :
  suf ∈ [EmptyString; "Brightness"; "Power"] -> headless suf = true.
Proof.
  rewrite !elem_of_cons, elem_of_nil. intros [-> | [-> | [-> | []]]]; done.
Qed.

(** ** Polling and the high dimmer group *)

Lemma apiCall_returns {J} path method (net : FetchOutcome J) (w w' : World)
    (body : J) :
  apiCall path method net w = (Return (Some body), w') ->
  exists r, net = Responded r /\ json r = Return body.
Proof.
  unfold apiCall, bind, this, try_catch, emit, throw, ret. simpl.
  destruct (negb (truthy (address (self w)))); simpl; [discriminate |].
  destruct net as [e | r]; simpl.
  - destruct (unreachable e); discriminate.
  - destruct (response_ok r && (status r <? 400)).
    + destruct (negb (status r =? 204) && negb (bool_decide (method = "POST")));
        [| discriminate].
      destruct (json r) as [state | e] eqn:Hjson; [| discriminate].
      intros [= <- _]. eauto.
    + destruct (text r) as [t | e]; simpl; [discriminate |].
      destruct (unreachable e); discriminate.
Qed.

Section HighDimmers.

Variables (d : Dingz) (k : Z) (suf : string).
Hypothesis Hgroup : dimmerGroup2 d = false.
Hypothesis Hk : k = 3 \/ k = 4.
Hypothesis Hsuf : suf ∈ [EmptyString; "Brightness"; "Power"].

Local Abbreviation target := ("dimmer" +:+ pretty k +:+ suf).
Local Abbreviation I := (untouched d target).
Local Abbreviation writable := (other_than target).

Lemma untouched_emit (e : Effect) : keeps I (emit e).
Proof. intros w Hw. exact Hw. Qed.

Lemma untouched_connected (v : Value) : keeps I (modify (set_connected v)).
Proof. intros w Hw. exact Hw. Qed.

Lemma untouched_update (name : string) (f : Property -> Property) :
  writable name -> keeps I (update_property name f).
Proof.
  intros Hname w (H1 & H2 & H3 & H4). repeat split; try assumption.
  simpl. rewrite lookup_alter_ne by exact Hname. exact H4.
Qed.

Lemma untouched_dimmer (w : World) (absolute : Z) :
  I w ->
  ((absolute >? 1) && dimmerGroup2 (self w))
  || ((absolute <=? 1) && dimmerGroup1 (self w)) = true ->
  writable ("dimmer" +:+ pretty (absolute + 1))
  /\ writable ("dimmer" +:+ pretty (absolute + 1) +:+ "Brightness")
  /\ writable ("dimmer" +:+ pretty (absolute + 1) +:+ "Power").
Proof.
  intros (Hg & _) Hguard. rewrite Hg, andb_false_r in Hguard. simpl in Hguard.
  apply andb_true_iff in Hguard as [Hle _].
  pose proof (headless_suffix suf Hsuf) as Hhead.
  unfold other_than. repeat split; intros Heq.
  - apply indexed_name_inj0 in Heq as [Heq _]; [lia | exact Hhead].
  - apply indexed_name_inj in Heq as [Heq _]; [lia | done | exact Hhead].
  - apply indexed_name_inj in Heq as [Heq _]; [lia | done | exact Hhead].
Qed.

Lemma untouched_blind (absolute : Z) :
  writable ("shade" +:+ pretty (absolute + 1))
  /\ writable ("shade" +:+ pretty (absolute + 1) +:+ "Lamella")
  /\ writable ("shade" +:+ pretty (absolute + 1) +:+ "Power").
Proof. unfold other_than. repeat split; intros Heq; discriminate Heq. Qed.

Lemma untouched_fixed (name : string) :
  name ∈ ["lightLevel"; "temperature"; "led"; "ledColor";
          "targetTemperature"; "thermostatMode"; "thermostatState"] ->
  writable name.
Proof.
  rewrite !elem_of_cons, elem_of_nil. unfold other_than.
  intros [-> | [-> | [-> | [-> | [-> | [-> | [-> | []]]]]]]] Heq;
    discriminate Heq.
Qed.

Variables (rev : Revision) (net : FetchOutcome Snapshot).
Hypothesis Hvalve : suf = "Power" -> valve_slot rev net d <> Some k.

Lemma untouched_valve (r : Response Snapshot) (state : Snapshot) (w : World) :
  net = Responded r ->
  json r = Return state ->
  I w ->
  th_active (snap_thermostat state) && thermostat (self w) = true ->
  writable ("dimmer"
            +:+ show (nan_plus match rev with
                           | IndexJs => th_out (snap_thermostat state)
                           | Part000 => thermostatOutput (self w)
                           end 1)
            +:+ "Power").
Proof.
  intros Hnet Hjson (_ & Ht & Hout & _) Hguard. rewrite Ht in Hguard.
  rewrite Hout. unfold other_than. intros Heq.
  unfold valve_slot in Hvalve. rewrite Hnet, Hjson, Hguard in Hvalve.
  destruct (match rev with
            | IndexJs => th_out (snap_thermostat state)
            | Part000 => thermostatOutput d
            end) as [out |]; simpl in *.
  - apply indexed_name_inj in Heq as [Heq <-];
      [| done | by apply headless_suffix].
    apply Hvalve; [reflexivity | by rewrite Heq].
  - revert Heq. clear -Hk Hsuf. revert Hsuf.
    rewrite !elem_of_cons, elem_of_nil.
    destruct Hk as [-> | ->]; intros [-> | [-> | [-> | []]]];
      vm_compute; discriminate.
Qed.

Lemma poll_untouched hsv2rgb (w : World) :
  I w -> I (poll hsv2rgb rev net w).2.
Proof.
  intros Hw. unfold poll, bind at 1, this. simpl.
  destruct (negb (truthy (connected (self w)))); [exact Hw |].
  pose proof (keeps_apiCall I untouched_emit untouched_connected
                "state" "GET" net w Hw) as Hcall.
  unfold bind.
  destruct (apiCall "state" "GET" net w) as [[[state |] | e] w'] eqn:Hres;
    simpl in *.
  - apply apiCall_returns in Hres as (r & Hnet & Hjson).
    apply (keeps_reconcile I writable untouched_update untouched_dimmer
             untouched_blind untouched_fixed rev state);
      [| exact Hcall].
    intros w0. by apply (untouched_valve r).
  - destruct rev; exact Hcall.
  - exact Hcall.
Qed.

End HighDimmers.

Lemma poll_dimmer_skips (state : Snapshot) (dimmer : DimmerState) (w : World) :
  (dm_absolute dimmer > 1 /\ dimmerGroup2 (self w) = false)
  \/ (dm_absolute dimmer <= 1 /\ dimmerGroup1 (self w) = false) ->
  poll_dimmer state dimmer w = (Return tt, w).
Proof.
  intros Hskip. unfold poll_dimmer, bind, this. simpl.
  assert (((dm_absolute dimmer >? 1) && dimmerGroup2 (self w))
          || ((dm_absolute dimmer <=? 1) && dimmerGroup1 (self w)) = false)
    as ->; [| reflexivity].
  destruct Hskip as [[Habs ->] | [Habs ->]]; rewrite !andb_false_r; simpl.
  - apply andb_false_iff. left. lia.
  - rewrite orb_false_r. apply andb_false_iff. left. lia.
Qed.

(** The claim of C6 as stated fails: this puck has two shutters and no
    dimmer group, its thermostat drives output 2, and a poll whose snapshot
    lists dimmer entries 2 and 3 rewrites [dimmer3Power]. *)
Lemma C6_counterexample :
  let d := Examples.puck IndexJs 0 (Some 2) in
  let d' := self (run (poll Examples.no_hsv IndexJs Examples.ok_response) d).2 in
  dimmerGroup2 d = false
  /\ (exists dimmer, dimmer ∈ dimmers Examples.snapshot /\ dm_absolute dimmer >= 2)
  /\ (p_value <$> properties d !! "dimmer3Power") = Some VUndefined
  /\ (p_value <$> properties d' !! "dimmer3Power") = Some (VNum 9)
  /\ properties d' !! "dimmer3Power" <> properties d !! "dimmer3Power".
Proof.
  intros d d'.
  assert (Hbefore : (p_value <$> properties d !! "dimmer3Power") = Some VUndefined)
    by (vm_compute; reflexivity).
  assert (Hafter : (p_value <$> properties d' !! "dimmer3Power") = Some (VNum 9))
    by (vm_compute; reflexivity).
  split; [vm_compute; reflexivity |].
  split.
  { exists (mkDimmerState 2 (VBool true) (VNum 55)).
    split; [unfold Examples.snapshot; simpl; repeat constructor | simpl; lia]. }
  split; [exact Hbefore |]. split; [exact Hafter |].
  intros Heq. rewrite Heq, Hbefore in Hafter. discriminate Hafter.
Qed.

(** C6 (amended): the dimmer loop of a poll applies an entry with absolute
    index above 1 only when dimmer group B is present and one with absolute
    index at most 1 only when group A is.  When group B is absent a poll
    leaves the on/off and brightness properties of dimmers 3 and 4 as they
    are, and their power properties too unless the thermostat block of that
    poll refreshes the valve output carrying that number. *)
Theorem C6_poll_respects_dimmer_groups hsv2rgb (rev : Revision)
    (net : FetchOutcome Snapshot) (d : Dingz) (k : Z) (suf : string) :
  dimmerGroup2 d = false ->
  k = 3 \/ k = 4 ->
  suf ∈ [EmptyString; "Brightness"; "Power"] ->
  (suf = "Power" -> valve_slot rev net d <> Some k) ->
  properties (self (run (poll hsv2rgb rev net) d).2) !! ("dimmer" +:+ pretty k +:+ suf)
    = properties d !! ("dimmer" +:+ pretty k +:+ suf)
  /\ (forall state dimmer w,
         (dm_absolute dimmer > 1 /\ dimmerGroup2 (self w) = false)
         \/ (dm_absolute dimmer <= 1 /\ dimmerGroup1 (self w) = false) ->
         poll_dimmer state dimmer w = (Return tt, w)).
Proof.
  intros Hgroup Hk Hsuf Hvalve. split; [| apply poll_dimmer_skips].
  unfold run.
  apply (poll_untouched d k suf Hk Hsuf rev net Hvalve hsv2rgb (mkWorld d [])).
  repeat split. exact Hgroup.
Qed.

Lemma C6_poll_respects_dimmer_groups_witness :
  let d := Examples.puck Part000 1 None in
  properties (self (run (poll Examples.no_hsv Part000 Examples.ok_response) d).2)
    !! ("dimmer" +:+ pretty 3 +:+ "Power")
  = properties d !! ("dimmer" +:+ pretty 3 +:+ "Power").
Proof.
  intros d.
  apply (C6_poll_respects_dimmer_groups Examples.no_hsv Part000
           Examples.ok_response d 3 "Power").
  - reflexivity.
  - left. reflexivity.
  - repeat constructor.
  - intros _. vm_compute. discriminate.
Defined.

(** ** Button and motion events *)

Lemma set_cached_run (name : string) (v : Value) (w : World) :
  is_Some (properties (self w) !! name) ->
  set_cached name (ret v) w = (Return tt, cached name v w).
Proof.
  intros [p Hp]. unfold set_cached, bind, findProperty, this. simpl.
  rewrite Hp. reflexivity.
Qed.

Lemma cached_lookup (name : string) (v : Value) (w : World) :
  properties (self (cached name v w)) !! name
  = with_value v <$> properties (self w) !! name.
Proof. simpl. apply lookup_alter_eq. Qed.

Lemma parseInt_key (k : Z) : 1 <= k <= 4 -> Str.parseInt (pretty k) = Some k.
Proof.
  intros Hk.
  assert (k = 1 \/ k = 2 \/ k = 3 \/ k = 4) as [-> | [-> | [-> | ->]]] by lia;
    vm_compute; reflexivity.
Qed.

(** The claim of C7 as stated fails for the motion sensor: the symbolic
    codes ["begin"] and ["end"] are only understood for the four keys.
    On a puck with a motion sensor, ["begin"] on index 5 leaves [motion]
    unset, and ["end"] after a numeric [8] leaves it [true]. *)
Lemma C7_counterexample :
  let w := mkWorld (Examples.puck IndexJs 0 None) [] in
  is_Some (properties (self w) !! "motion")
  /\ handleGenericEvent "5" "begin" w = (Return tt, w)
  /\ (p_value <$> properties (self (handleGenericEvent "5" "begin" w).2) !! "motion")
     <> Some (VBool true)
  /\ (p_value <$>
        properties
          (self (handleGenericEvent "5" "end"
                   (handleGenericEvent "5" "8" w).2).2) !! "motion")
     = Some (VBool true).
Proof.
  intros w. split; [vm_compute; eauto |].
  split; [reflexivity |].
  split; [vm_compute; discriminate | vm_compute; reflexivity].
Qed.

(** C7 (amended): for a webhook event on key 1..4, action [1] fires the
    single-press event, [2] double, [3] long, [20] triple, [21] quadruple;
    [8] or ["begin"] sets the key's pressed property to true, [9] or
    ["end"] to false.  For index 5 the numeric codes [8] and [9] set the
    motion property to true and false, while ["begin"] and ["end"] change
    nothing.  An index above 5 changes nothing. *)
Theorem C7_generic_event_table (w : World) (k : Z) :
  1 <= k <= 4 ->
  is_Some (properties (self w) !! ("key" +:+ pretty k)) ->
  let keyID := "key" +:+ pretty k in
  let fires name := (Return tt, notified (keyID +:+ name) w) in
  let pressed b := (Return tt, cached keyID (VBool b) w) in
  handleGenericEvent (pretty k) "1" w = fires "single"
  /\ handleGenericEvent (pretty k) "2" w = fires "double"
  /\ handleGenericEvent (pretty k) "3" w = fires "long"
  /\ handleGenericEvent (pretty k) "20" w = fires "tripple"
  /\ handleGenericEvent (pretty k) "21" w = fires "quadruple"
  /\ handleGenericEvent (pretty k) "8" w = pressed true
  /\ handleGenericEvent (pretty k) "begin" w = pressed true
  /\ handleGenericEvent (pretty k) "9" w = pressed false
  /\ handleGenericEvent (pretty k) "end" w = pressed false
  /\ (is_Some (properties (self w) !! "motion") ->
      handleGenericEvent "5" "8" w = (Return tt, cached "motion" (VBool true) w)
      /\ handleGenericEvent "5" "9" w = (Return tt, cached "motion" (VBool false) w))
  /\ handleGenericEvent "5" "begin" w = (Return tt, w)
  /\ handleGenericEvent "5" "end" w = (Return tt, w)
  /\ (forall index action n,
         Str.parseInt index = Some n -> n > 5 ->
         handleGenericEvent index action w = (Return tt, w)).
Proof.
  intros Hk Hkey keyID fires pressed.
  assert (Hindex : forall action,
             handleGenericEvent (pretty k) action w =
             (let keyID := "key" +:+ pretty k in
              if bool_decide (action = "1") then eventNotify (keyID +:+ "single")
              else if bool_decide (action = "2") then eventNotify (keyID +:+ "double")
              else if bool_decide (action = "3") then eventNotify (keyID +:+ "long")
              else if bool_decide (action = "20") then eventNotify (keyID +:+ "tripple")
              else if bool_decide (action = "21") then eventNotify (keyID +:+ "quadruple")
              else if bool_decide (action = "8") || bool_decide (action = "begin")
              then set_cached keyID (ret (VBool true))
              else if bool_decide (action = "9") || bool_decide (action = "end")
              then set_cached keyID (ret (VBool false))
              else ret tt) w).
  { intros action. unfold handleGenericEvent. rewrite (parseInt_key k Hk).
    unfold nan_le. assert ((k <=? 4) = true) as -> by lia. reflexivity. }
  repeat split.
  1-5: rewrite Hindex; reflexivity.
  1-4: rewrite Hindex; simpl; by apply set_cached_run.
  - change (handleGenericEvent "5" "8" w)
      with (set_cached "motion" (ret (VBool true)) w).
    by apply set_cached_run.
  - change (handleGenericEvent "5" "9" w)
      with (set_cached "motion" (ret (VBool false)) w).
    by apply set_cached_run.
  - intros index action n Hparse Hn. unfold handleGenericEvent.
    rewrite Hparse. unfold nan_le, nan_eq.
    assert ((n <=? 4) = false) as -> by lia.
    assert ((n =? 5) = false) as -> by lia. reflexivity.
Qed.

Lemma C7_generic_event_table_witness :
  let w := mkWorld (Examples.puck IndexJs 0 None) [] in
  handleGenericEvent (pretty 2) "20" w
    = (Return tt, notified ("key" +:+ pretty 2 +:+ "tripple") w)
  /\ handleGenericEvent (pretty 2) "begin" w
     = (Return tt, cached ("key" +:+ pretty 2) (VBool true) w).
Proof.
  intros w.
  assert (Hk : 1 <= 2 <= 4) by lia.
  assert (Hkey : is_Some (properties (self w) !! ("key" +:+ pretty 2)))
    by (vm_compute; eauto).
  pose proof (C7_generic_event_table w 2 Hk Hkey) as H. simpl in H.
  destruct H as (_ & _ & _ & H20 & _ & _ & Hbegin & _).
  split; [exact H20 | exact Hbegin].
Defined.

(** ** Button pushes over MQTT *)

Lemma button_event_multi_press (keyID : string) (w : World) :
  is_Some (properties (self w) !! keyID) ->
  button_event keyID (VStr "m1") w
    = (Return tt, cached keyID (VBool false) (notified (keyID +:+ "single") w))
  /\ button_event keyID (VStr "m2") w
     = (Return tt, cached keyID (VBool false) (notified (keyID +:+ "double") w))
  /\ button_event keyID (VStr "m3") w
     = (Return tt, cached keyID (VBool false) (notified (keyID +:+ "tripple") w)).
Proof.
  intros Hkey. unfold button_event, bind, eventNotify, emit. simpl.
  repeat split; by rewrite set_cached_run.
Qed.

(** The second [case "m2"] of the switch can never be taken, so the token
    [m4] reaches the default branch: the key is released and no event is
    fired. *)
Lemma button_event_m4 (keyID : string) (w : World) :
  is_Some (properties (self w) !! keyID) ->
  button_event keyID (VStr "m4") w = (Return tt, cached keyID (VBool false) w).
Proof.
  intros Hkey. unfold button_event. simpl. by apply set_cached_run.
Qed.

(** C1 (the code departs from the claim): [m1], [m2] and [m3] fire one
    event of the matching ordinal and release the key, but [m4] on any of
    the four keys fires no event at all; the key is only released. *)
Theorem C1_m4_fires_no_event :
  push_button "0" "m1" = ([EventNotify "key1single"], Some (VBool false))
  /\ push_button "0" "m2" = ([EventNotify "key1double"], Some (VBool false))
  /\ push_button "0" "m3" = ([EventNotify "key1tripple"], Some (VBool false))
  /\ Forall (fun button => push_button button "m4" = ([], Some (VBool false)))
            ["0"; "1"; "2"; "3"].
Proof.
  split; [vm_compute; reflexivity |].
  split; [vm_compute; reflexivity |].
  split; [vm_compute; reflexivity |].
  repeat (constructor; [vm_compute; reflexivity |]). constructor.
Qed.

(** ** Thermostat state *)

Lemma cached_other (name : string) (v : Value) (n : string) (w : World) :
  n <> name ->
  properties (self (cached name v w)) !! n = properties (self w) !! n.
Proof. intros Hn. simpl. by apply lookup_alter_ne. Qed.

Lemma set_cached_other (name : string) (arg : Js Value) (n : string) (w : World) :
  n <> name ->
  (forall w0, (arg w0).2 = w0) ->
  properties (self (set_cached name arg w).2) !! n = properties (self w) !! n.
Proof.
  intros Hn Harg. unfold set_cached, bind, findProperty, this. simpl.
  destruct (properties (self w) !! name) as [p |]; [| reflexivity].
  specialize (Harg w). destruct (arg w) as [[v | e] w']; simpl in *; subst w'.
  - by apply lookup_alter_ne.
  - reflexivity.
Qed.

Lemma power_output_pure (state : Snapshot) (i : option Z) (w : World) :
  (power_output state i w).2 = w.
Proof.
  unfold power_output. by destruct (i ≫= at_index (power_outputs state)).
Qed.


Lemma poll_thermostat_lookup (rev : Revision) (state : Snapshot) (w : World)
    (n : string) :
  let t := snap_thermostat state in
  th_active t && thermostat (self w) = true ->
  is_Some (properties (self w) !! "targetTemperature") ->
  is_Some (properties (self w) !! "thermostatMode") ->
  is_Some (properties (self w) !! "thermostatState") ->
  n = "thermostatMode" \/ n = "thermostatState" ->
  properties (self (poll_thermostat rev state w).2) !! n
  = properties
      (self (cached "thermostatState"
               (if th_on t then VStr (th_mode t) else VStr "off")
               (cached "thermostatMode"
                  (if th_enabled t then THERMOSTAT_STATE_TO_MODE (th_mode t)
                   else VStr "off") w))) !! n.
Proof.
  intros t Hguard Htarget Hmode Hstate Hn.
  unfold poll_thermostat, bind at 1, this. simpl. fold t. rewrite Hguard.
  unfold when.
  unfold bind at 1. rewrite set_cached_run by exact Htarget.
  unfold bind at 1. unfold update_property at 1, modify at 1.
  cbv zeta.
  set (w1 := mkWorld _ (emitted (cached "targetTemperature" (th_target_temp t) w))).
  assert (H1 : forall m, m = "thermostatMode" \/ m = "thermostatState" ->
                    properties (self w1) !! m = properties (self w) !! m).
  { intros m [-> | ->]; subst w1; simpl; by rewrite !lookup_alter_ne. }
  unfold bind at 1. rewrite set_cached_run by (rewrite H1; auto).
  unfold bind at 1. rewrite set_cached_run
    by (rewrite cached_other by done; rewrite H1; auto).
  rewrite set_cached_other;
    [| destruct Hn as [-> | ->]; discriminate
     | intros; apply power_output_pure].
  simpl.
  destruct Hn as [-> | ->];
    repeat first [rewrite lookup_alter_eq | rewrite lookup_alter_ne by done];
    reflexivity.
Qed.

Lemma poll_thermostat_mode (rev : Revision) (state : Snapshot) (w : World) :
  let t := snap_thermostat state in
  th_active t && thermostat (self w) = true ->
  is_Some (properties (self w) !! "targetTemperature") ->
  is_Some (properties (self w) !! "thermostatMode") ->
  is_Some (properties (self w) !! "thermostatState") ->
  let w' := (poll_thermostat rev state w).2 in
  (p_value <$> properties (self w') !! "thermostatMode")
    = Some (if th_enabled t then THERMOSTAT_STATE_TO_MODE (th_mode t)
            else VStr "off")
  /\ (p_value <$> properties (self w') !! "thermostatState")
     = Some (if th_on t then VStr (th_mode t) else VStr "off").
Proof.
  intros t Hguard Htarget Hmode Hstate w'. subst w'.
  rewrite !poll_thermostat_lookup by auto. fold t.
  destruct Hmode as [p Hp]. destruct Hstate as [q Hq]. split.
  - rewrite cached_other by done. rewrite cached_lookup, Hp. reflexivity.
  - rewrite cached_lookup, cached_other by done. rewrite Hq. reflexivity.
Qed.

(** C8 (the code departs from the claim): the poll derives the displayed
    mode from the enabled flag and the heating/cooling state (['heat'] for
    an enabled, heating thermostat) and the displayed state from the [on]
    flag and the same state; a [state/thermostat] push instead stores the
    raw [status] string as the mode, here ["on"], which is not a member of
    the property's own enumeration. *)
Theorem C8_push_mode_is_raw_status :
  let d := Examples.puck Part000 3 (Some 0) in
  let pushed :=
    on_message JSON.parse "dingz/aabb/dz1/state/thermostat"
      Examples.thermostat_payload (Examples.adapter 3 (Some 0)) in
  let polled := run (poll Examples.no_hsv Part000 Examples.ok_response) d in
  let shown (d' : option Dingz) (name : string) :=
    d' ≫= fun d' => p_value <$> properties d' !! name in
  JSON.parse Examples.thermostat_payload
    = Some (VObj [("status", VStr "on"); ("mode", VStr "heating");
                  ("target", VNum 21)])
  /\ (p_enum <$> properties d !! "thermostatMode") = Some ["off"; "heat"; "cool"]
  /\ pushed.1 = Return tt
  /\ shown (devices pushed.2 !! "dingz-aabb") "thermostatMode" = Some (VStr "on")
  /\ shown (devices pushed.2 !! "dingz-aabb") "thermostatState" = Some (VStr "heating")
  /\ polled.1 = Return tt
  /\ shown (Some (self polled.2)) "thermostatMode" = Some (VStr "heat")
  /\ shown (Some (self polled.2)) "thermostatState" = Some (VStr "heating").
Proof.
  repeat (split; [vm_compute; reflexivity |]). vm_compute. reflexivity.
Qed.

(** ** Topics *)

Lemma split_segment (w rest : string) :
  no_slash w = true ->
  Str.split "/" (w +:+ "/" +:+ rest) = w :: Str.split "/" rest.
Proof.
  induction w as [| c w IH]; intros Hw.
  - reflexivity.
  - simpl in Hw. apply andb_true_iff in Hw as [Hc Hw].
    rewrite append_cons. simpl. apply negb_true_iff in Hc. rewrite Hc.
    by rewrite IH.
Qed.

Lemma length_append (a b : string) :
  String.length (a +:+ b) = (String.length a + String.length b)%nat.
Proof.
  induction a as [| c a IH]; [reflexivity |].
  rewrite append_cons. simpl. by rewrite IH.
Qed.

Lemma drop_append (a b : string) (n : nat) :
  Str.drop (String.length a + n) (a +:+ b) = Str.drop n b.
Proof.
  induction a as [| c a IH]; [reflexivity |].
  rewrite append_cons. simpl. exact IH.
Qed.

Lemma take_append (a b : string) :
  Str.take (String.length a) (a +:+ b) = a.
Proof.
  induction a as [| c a IH]; [by destruct b |].
  rewrite append_cons. simpl. by rewrite IH.
Qed.

Lemma endsWith_append (p s suf : string) :
  Str.endsWith s suf = true -> Str.endsWith (p +:+ s) suf = true.
Proof.
  unfold Str.endsWith. intros H. apply andb_true_iff in H as [Hlen Hdrop].
  apply Nat.leb_le in Hlen. apply bool_decide_eq_true in Hdrop.
  apply andb_true_iff. split.
  - apply Nat.leb_le. rewrite length_append. lia.
  - apply bool_decide_eq_true. rewrite length_append.
    replace (String.length p + String.length s - String.length suf)%nat
      with (String.length p + (String.length s - String.length suf))%nat by lia.
    by rewrite drop_append.
Qed.

Lemma replace_first (pre pat rep post : string) :
  Str.indexOf pat (pre +:+ pat +:+ post) = Some (String.length pre) ->
  Str.replace (pre +:+ pat +:+ post) pat rep = pre +:+ rep +:+ post.
Proof.
  intros Hindex. unfold Str.replace. rewrite Hindex.
  rewrite take_append, drop_append.
  replace (String.length pat) with (String.length pat + 0)%nat by lia.
  by rewrite drop_append.
Qed.

Lemma cached_absent (name : string) (v : Value) (w : World) :
  properties (self w) !! name = None -> cached name v w = w.
Proof.
  intros Hnone. unfold cached.
  assert (alter (with_value v) name (properties (self w)) = properties (self w))
    as ->.
  { apply map_eq. intros n. rewrite lookup_alter.
    case_decide; [subst; by rewrite Hnone | done]. }
  by destruct w as [[] ?].
Qed.

Lemma set_cached_opt_pure (name : string) (arg : Js Value) (v : Value)
    (w : World) :
  (forall w0, arg w0 = (Return v, w0)) ->
  set_cached_opt name arg w = (Return tt, cached name v w).
Proof.
  intros Harg. unfold set_cached_opt, bind, findProperty, this. simpl.
  destruct (properties (self w) !! name) as [p |] eqn:Hp.
  - rewrite Harg. reflexivity.
  - by rewrite cached_absent.
Qed.

Lemma mqttEvent_thermostat (model : string) (fields : list (string * Value))
    (w : World) :
  no_slash model = true ->
  model ∉ ["online"; "announce"; "last_alive"] ->
  mqttEvent (model +:+ "/state/thermostat") (VObj fields) w
  = (Return tt, thermostat_pushed model fields w).
Proof.
  intros Hslash Hmodel. unfold mqttEvent.
  change (model +:+ "/state/thermostat")
    with (model +:+ "/" +:+ "state/thermostat").
  rewrite (split_segment model "state/thermostat" Hslash).
  change (Str.split "/" "state/thermostat") with ["state"; "thermostat"].
  simpl.
  rewrite !bool_decide_eq_false_2
    by (intros [= ->]; apply Hmodel; repeat constructor).
  unfold bind at 1, modify at 1.
  unfold bind.
  rewrite (set_cached_opt_pure "thermostatMode" _ (obj_get fields "status"))
    by reflexivity.
  rewrite (set_cached_opt_pure "thermostatState" _
             (if is_string (obj_get fields "status") "on"
              then obj_get fields "mode" else VStr "off")).
  2:{ intros w0. unfold get. simpl.
      by destruct (is_string (obj_get fields "status") "on"). }
  rewrite (set_cached_opt_pure "targetTemperature" _ (obj_get fields "target"))
    by reflexivity.
  reflexivity.
Qed.

Lemma thermostat_pushed_target (model : string) (fields : list (string * Value))
    (w : World) :
  properties (self (thermostat_pushed model fields w)) !! "targetTemperature"
  = with_value (obj_get fields "target")
      <$> properties (self w) !! "targetTemperature".
Proof.
  unfold thermostat_pushed. rewrite cached_lookup.
  rewrite !cached_other by done. reflexivity.
Qed.

Section Repair.

Variable JSON_parse : string -> option Value.

Lemma parse_payload_repairs (topic pre post : string) (parsed : Value) :
  Str.endsWith topic "state/thermostat" = true ->
  Str.indexOf broken_target_key (pre +:+ broken_target_key +:+ post)
    = Some (String.length pre) ->
  JSON_parse (pre +:+ repaired_target_key +:+ post) = Some parsed ->
  parse_payload JSON_parse topic (pre +:+ broken_target_key +:+ post) = Some parsed.
Proof.
  intros Htopic Hindex Hparse. unfold parse_payload.
  rewrite Htopic, (replace_first _ _ _ _ Hindex), Hparse. reflexivity.
Qed.

(** C5: a message on [dingz/<id>/<model>/state/thermostat] for a registered
    device whose payload carries the key as ["target:"] (colon inside the
    quotes) is parsed after that key has been rewritten to ["target":]; when
    the repaired text is a JSON object the handler completes without error
    and the [targetTemperature] property holds the object's [target]. *)
Theorem C5_thermostat_target_repaired (a : Adapter) (d : Dingz)
    (dingzId model pre post : string) (fields : list (string * Value)) :
  no_slash dingzId = true ->
  no_slash model = true ->
  model ∉ ["online"; "announce"; "last_alive"] ->
  devices a !! ("dingz-" +:+ dingzId) = Some d ->
  is_Some (properties d !! "targetTemperature") ->
  Str.indexOf broken_target_key (pre +:+ broken_target_key +:+ post)
    = Some (String.length pre) ->
  JSON_parse (pre +:+ repaired_target_key +:+ post) = Some (VObj fields) ->
  let topic := "dingz/" +:+ dingzId +:+ "/" +:+ model +:+ "/state/thermostat" in
  let payload := pre +:+ broken_target_key +:+ post in
  let result := on_message JSON_parse topic payload a in
  parse_payload JSON_parse topic payload = Some (VObj fields)
  /\ result.1 = Return tt
  /\ (devices result.2 !! ("dingz-" +:+ dingzId) ≫= fun d' =>
        p_value <$> properties d' !! "targetTemperature")
     = Some (obj_get fields "target").
Proof.
  intros Hid Hmodel Hreserved Hdevice [p Hp] Hindex Hparse topic payload result.
  assert (Htopic : Str.endsWith topic "state/thermostat" = true).
  { subst topic. do 4 apply endsWith_append. reflexivity. }
  assert (Hdecode : parse_payload JSON_parse topic payload = Some (VObj fields))
    by (by apply parse_payload_repairs).
  assert (Hsplit : Str.split "/" topic
                   = ["dingz"; dingzId; model; "state"; "thermostat"]).
  { subst topic.
    change ("dingz/" +:+ dingzId +:+ "/" +:+ model +:+ "/state/thermostat")
      with ("dingz" +:+ "/" +:+ dingzId +:+ "/" +:+ model +:+ "/"
            +:+ "state/thermostat").
    rewrite !split_segment by done. reflexivity. }
  assert (Hresult : result
                    = on_device ("dingz-" +:+ dingzId) d
                        (mqttEvent (model +:+ "/state/thermostat") (VObj fields))
                        a).
  { subst result. unfold on_message. rewrite Hsplit, Hdecode. simpl.
    rewrite Hdevice. reflexivity. }
  split; [exact Hdecode |].
  rewrite Hresult. unfold on_device, run.
  rewrite mqttEvent_thermostat by assumption. simpl fst. simpl snd.
  split; [reflexivity |].
  cbn [devices]. rewrite lookup_insert_eq.
  change (p_value <$>
            properties (self (thermostat_pushed model fields (mkWorld d [])))
              !! "targetTemperature"
          = Some (obj_get fields "target")).
  rewrite thermostat_pushed_target. simpl. rewrite Hp. reflexivity.
Qed.

End Repair.

(** Left as the firmware sends it, the payload is not JSON; repaired, it
    is. *)
Example malformed_payload_needs_repair :
  JSON.parse Examples.malformed_thermostat_payload = None
  /\ JSON.parse (Str.replace Examples.malformed_thermostat_payload
                   broken_target_key repaired_target_key)
     = Some (VObj [("status", VStr "on"); ("mode", VStr "heating");
                   ("target", VNum 21)]).
Proof. split; vm_compute; reflexivity. Qed.

Lemma C5_thermostat_target_repaired_witness :
  let result :=
    on_message JSON.parse "dingz/aabb/dz1/state/thermostat"
      Examples.malformed_thermostat_payload (Examples.adapter 3 (Some 0)) in
  result.1 = Return tt
  /\ (devices result.2 !! "dingz-aabb" ≫= fun d' =>
        p_value <$> properties d' !! "targetTemperature")
     = Some (VNum 21).
Proof.
  pose proof (C5_thermostat_target_repaired JSON.parse
                (Examples.adapter 3 (Some 0)) (Examples.puck Part000 3 (Some 0))
                "aabb" "dz1" Examples.payload_before_key "21}"
                [("status", VStr "on"); ("mode", VStr "heating");
                 ("target", VNum 21)]) as H.
  destruct H as (_ & Hok & Htarget).
  - reflexivity.
  - reflexivity.
  - intros Hin. by repeat (apply elem_of_cons in Hin as [Hin | Hin]; [discriminate |]);
      apply elem_of_nil in Hin.
  - vm_compute. reflexivity.
  - vm_compute. eauto.
  - vm_compute. reflexivity.
  - vm_compute. reflexivity.
  - split; [exact Hok | exact Htarget].
Defined.

(** * Further properties *)

(** ** What device methods may write *)

Section Writes.

Variable I : World -> Prop.
Hypothesis W_emit : forall e, keeps I (emit e).
Hypothesis W_connected : forall v, keeps I (modify (set_connected v)).
Hypothesis W_address : forall v, keeps I (modify (set_address v)).
Hypothesis W_deviceType : forall v, keeps I (modify (set_deviceType v)).
Hypothesis W_value :
  forall name v, keeps I (update_property name (with_value v)).
Hypothesis W_bounds :
  forall lo hi,
    keeps I (update_property "targetTemperature" (with_bounds lo hi)).

Lemma writes_member {A} (v : Value) (k : string) (cont : Value -> Js A) :
  (forall x, keeps I (cont x)) -> keeps I (bind (get v k) cont).
Proof. intros H. apply keeps_bind; [apply keeps_get | exact H]. Qed.

Ltac writes_steps :=
  repeat lazymatch goal with
    | |- keeps _ (ret _) => apply keeps_ret
    | |- keeps _ (throw _) => apply keeps_throw
    | |- keeps _ undefined_access => apply keeps_throw
    | |- keeps _ (this _) => apply keeps_this
    | |- keeps _ (findProperty _) => apply keeps_this
    | |- keeps _ (get _ _) => apply keeps_get
    | |- keeps _ (emit _) => apply W_emit
    | |- keeps _ (eventNotify _) => apply W_emit
    | |- keeps _ (modify (set_connected _)) => apply W_connected
    | |- keeps _ (modify (set_address _)) => apply W_address
    | |- keeps _ (modify (set_deviceType _)) => apply W_deviceType
    | |- keeps _ (update_property _ (with_value _)) => apply W_value
    | |- keeps _ (update_property _ (with_bounds _ _)) => apply W_bounds
    | |- keeps _ (connectedNotify _) => unfold connectedNotify
    | |- keeps _ (set_cached _ _) => unfold set_cached
    | |- keeps _ (set_cached_opt _ _) => unfold set_cached_opt
    | |- keeps _ (power_output _ _) => unfold power_output
    | |- keeps _ (channel _ _) => unfold channel
    | |- keeps _ (toString16 _) => unfold toString16
    | |- keeps _ (when ?b _) => apply keeps_when; intros _
    | |- keeps _ (for_of _ _) => apply keeps_for_of; intros ?
    | |- keeps _ (try_catch _ _) => apply keeps_try_catch; [| intros ?]
    | |- keeps _ (bind _ _) => apply keeps_bind; [| intros ?]
    | |- keeps _ (if ?b then _ else _) => destruct b
    | |- keeps _ (match ?x with _ => _ end) => destruct x
    | |- keeps _ (let _ := _ in _) => cbv zeta
    | |- keeps _ (let '(_, _) := ?x in _) => destruct x
    end.

Lemma writes_apiCall {J} (path method : string) (net : FetchOutcome J) :
  keeps I (apiCall path method net).
Proof. apply keeps_apiCall; assumption. Qed.

Lemma writes_reconcile hsv2rgb (rev : Revision) (state : Snapshot) :
  keeps I (reconcile hsv2rgb rev state).
Proof.
  unfold reconcile, poll_dimmer, poll_blind, poll_thermostat. writes_steps.
Qed.

Lemma writes_poll hsv2rgb (rev : Revision) (net : FetchOutcome Snapshot) :
  keeps I (poll hsv2rgb rev net).
Proof.
  unfold poll. apply keeps_bind; [apply keeps_this | intros c].
  destruct (negb (truthy c)); [apply keeps_ret |].
  apply keeps_bind; [apply writes_apiCall | intros [state |]].
  - apply writes_reconcile.
  - destruct rev; writes_steps.
Qed.

Lemma writes_button_event (keyID : string) (message : Value) :
  keeps I (button_event keyID message).
Proof. unfold button_event. writes_steps. Qed.

Lemma writes_mqttEvent (path : string) (message : Value) :
  keeps I (mqttEvent path message).
Proof.
  unfold mqttEvent. writes_steps; apply writes_button_event.
Qed.


Lemma writes_updateFromDiscovery (addr : Value) :
  keeps I (updateFromDiscovery addr).
Proof. unfold updateFromDiscovery. writes_steps. Qed.

Lemma writes_sendMqttEvent (path : string) (message : Value)
    (broker : option Error) :
  keeps I (sendMqttEvent path message broker).
Proof. unfold sendMqttEvent. writes_steps. Qed.

Lemma writes_performAction (name : string) (broker : option Error) :
  keeps I (performAction name broker).
Proof.
  unfold performAction. writes_steps; apply writes_sendMqttEvent.
Qed.

End Writes.

(** ** The schema is stable *)

Section Schema.

Variable erase : string -> Property -> Property.
Variable d : Dingz.
Hypothesis erase_value : forall name v p, erase name (with_value v p) = erase name p.

Lemma schema_refl : same_schema erase d d.
Proof. repeat split. Qed.

Lemma schema_emit (e : Effect) : keeps (fun w => same_schema erase d (self w)) (emit e).
Proof. intros w Hw. exact Hw. Qed.

Lemma schema_connected (v : Value) :
  keeps (fun w => same_schema erase d (self w)) (modify (set_connected v)).
Proof. intros w Hw. exact Hw. Qed.

Lemma schema_address (v : Value) :
  keeps (fun w => same_schema erase d (self w)) (modify (set_address v)).
Proof. intros w Hw. exact Hw. Qed.

Lemma schema_deviceType (v : Value) :
  keeps (fun w => same_schema erase d (self w)) (modify (set_deviceType v)).
Proof. intros w Hw. exact Hw. Qed.

Lemma schema_update (name : string) (f : Property -> Property) :
  (forall p, erase name (f p) = erase name p) ->
  keeps (fun w => same_schema erase d (self w)) (update_property name f).
Proof.
  intros Hf w (Hw & Ha & He & Hp). repeat split; try assumption.
  intros n. simpl. rewrite <- Hp, lookup_alter. case_decide as Hn; [| done].
  subst n. destruct (properties (self w) !! name) as [p |]; [| done].
  simpl. by rewrite Hf.
Qed.

Lemma schema_value (name : string) (v : Value) :
  keeps (fun w => same_schema erase d (self w))
        (update_property name (with_value v)).
Proof. apply schema_update. intros p. apply erase_value. Qed.

End Schema.


Lemma bounds_of_target_value (name : string) (v : Value) (p : Property) :
  bounds_of_target name (with_value v p) = bounds_of_target name p.
Proof. unfold bounds_of_target. by case_bool_decide. Qed.

(** X1: a push message, whatever its path and payload and whether or not its
    handling throws, leaves the schema of the device as it is: fixed fields,
    capability flags, actions, events and every property's declaration
    (title, type, bounds, visibility, ...). *)
Theorem mqttEvent_keeps_schema (d : Dingz) (path : string) (message : Value) :
  same_schema (fun _ => declared) d (self (run (mqttEvent path message) d).2).
Proof.
  apply (writes_mqttEvent (fun w => same_schema (fun _ => declared) d (self w)));
    auto using schema_emit, schema_connected, schema_address,
      schema_deviceType, schema_refl.
  intros name v. by apply schema_value.
Qed.

(** X2: a poll, whatever the request settles to and whether or not the
    reconciliation throws, leaves the schema of the device as it is, except
    that it may rewrite the bounds of [targetTemperature]. *)
Theorem poll_keeps_schema hsv2rgb (rev : Revision) (net : FetchOutcome Snapshot)
    (d : Dingz) :
  same_schema bounds_of_target d (self (run (poll hsv2rgb rev net) d).2).
Proof.
  apply (writes_poll (fun w => same_schema bounds_of_target d (self w)));
    auto using schema_emit, schema_connected, schema_refl.
  - intros name v. apply schema_value. intros n v' p.
    apply bounds_of_target_value.
  - intros lo hi. by apply schema_update.
Qed.


(** ** Topic segments *)

Lemma split_not_nil (sep : ascii) (s : string) : Str.split sep s <> [].
Proof.
  destruct s as [| c s]; simpl; [done |].
  destruct (Ascii.eqb c sep); [done |]. by destruct (Str.split sep s).
Qed.

Lemma join_cons (sep w : string) (ws : list string) :
  ws <> [] -> Str.join sep (w :: ws) = w +:+ sep +:+ Str.join sep ws.
Proof. by destruct ws. Qed.

Lemma join_split (s : string) : Str.join "/" (Str.split "/" s) = s.
Proof.
  induction s as [| c s IH]; [reflexivity |]. simpl.
  pose proof (split_not_nil "/" s) as Hne.
  destruct (Ascii.eqb c "/") eqn:Hc.
  - apply Ascii.eqb_eq in Hc. subst c.
    rewrite join_cons by exact Hne. by rewrite IH.
  - destruct (Str.split "/" s) as [| w ws]; [done |].
    destruct ws as [| w' ws].
    + simpl in *. by rewrite IH.
    + rewrite join_cons by done. rewrite join_cons in IH by done.
      rewrite append_cons. by rewrite IH.
Qed.

Lemma split_segments (s : string) :
  Forall (fun w => no_slash w = true) (Str.split "/" s).
Proof.
  induction s as [| c s IH]; simpl; [by repeat constructor |].
  destruct (Ascii.eqb c "/") eqn:Hc; [by constructor |].
  destruct (Str.split "/" s) as [| w ws].
  { constructor; [simpl; by rewrite Hc | constructor]. }
  inversion IH as [| ? ? Hw Hws]; subst. constructor; [| exact Hws].
  simpl. by rewrite Hc, Hw.
Qed.

Lemma split_no_slash (w : string) :
  no_slash w = true -> Str.split "/" w = [w].
Proof.
  induction w as [| c w IH]; [done |]. simpl. intros H.
  apply andb_true_iff in H as [Hc Hw]. apply negb_true_iff in Hc.
  by rewrite Hc, IH.
Qed.

Lemma split_join (parts : list string) :
  parts <> [] ->
  Forall (fun w => no_slash w = true) parts ->
  Str.split "/" (Str.join "/" parts) = parts.
Proof.
  induction parts as [| w ws IH]; [done |]. intros _ Hall.
  inversion Hall as [| ? ? Hw Hws]; subst.
  destruct ws as [| w' ws]; [by apply split_no_slash |].
  rewrite join_cons by done. rewrite split_segment by exact Hw.
  by rewrite IH.
Qed.

(** X4: joining the segments of a topic gives the topic back, and the path the
    message handler builds for [mqttEvent] from the segments after scope
    and device id splits into exactly those segments again (a single empty
    segment when there is none). *)
Theorem topic_segments_round_trip (topic : string) :
  Str.join "/" (Str.split "/" topic) = topic
  /\ Str.split "/" (Str.join "/" (drop 2 (Str.split "/" topic)))
     = match drop 2 (Str.split "/" topic) with
       | [] => [EmptyString]
       | localPath => localPath
       end.
Proof.
  split; [apply join_split |].
  pose proof (split_segments topic) as Hall.
  destruct (drop 2 (Str.split "/" topic)) as [| w ws] eqn:Hdrop; [done |].
  apply split_join; [done |]. rewrite <- Hdrop. by apply Forall_drop.
Qed.

(** ** Messages the handler drops or forwards *)

Section Handler.

Variable JSON_parse : string -> option Value.

Lemma head_segment (rest : string) :
  Str.split "/" ("dingz/" +:+ rest) = "dingz" :: Str.split "/" rest.
Proof. by apply (split_segment "dingz" rest). Qed.

(** X5: a payload under [dingz/] that is neither JSON nor a legacy token is
    logged and dropped: the handler returns normally and no device is
    touched. *)
Theorem on_message_drops_undecodable (rest message : string) (a : Adapter) :
  let topic := "dingz/" +:+ rest in
  JSON_parse (text_of topic message) = None ->
  text_of topic message ∉ ["s"; "ss"; "n"; "p"; "h"; "r"] ->
  Str.startsWith (text_of topic message) "m" = false ->
  on_message JSON_parse topic message a
  = (Return tt, mkAdapter (devices a) (reported a ++ [Console "error"])).
Proof.
  intros topic Hparse Htoken Hm. unfold on_message.
  replace (Str.split "/" topic) with ("dingz" :: Str.split "/" rest)
    by (symmetry; apply head_segment).
  simpl.
  unfold parse_payload. fold (text_of topic message).
  assert (bool_decide (text_of topic message ∈ ["s"; "ss"; "n"]) = false) as H1.
  { apply bool_decide_eq_false_2. intros Hin. apply Htoken. rewrite !elem_of_cons in *. tauto. }
  assert (bool_decide (text_of topic message ∈ ["p"; "h"; "r"]) = false) as H2.
  { apply bool_decide_eq_false_2. intros Hin. apply Htoken. rewrite !elem_of_cons in *. tauto. }
  rewrite Hparse, H1, H2, Hm. reflexivity.
Qed.




End Handler.

Lemma on_message_drops_undecodable_witness :
  let a := Examples.adapter 3 None in
  on_message JSON.parse ("dingz/" +:+ "aabb/dz1/sensor/light") "garbage" a
  = (Return tt, mkAdapter (devices a) (reported a ++ [Console "error"])).
Proof.
  intros a.
  apply (on_message_drops_undecodable JSON.parse "aabb/dz1/sensor/light"
           "garbage" a).
  - vm_compute. reflexivity.
  - change ("garbage" ∉ ["s"; "ss"; "n"; "p"; "h"; "r"]).
    intros Hin. rewrite !elem_of_cons, elem_of_nil in Hin.
    destruct Hin as [H | [H | [H | [H | [H | [H | []]]]]]]; discriminate H.
  - vm_compute. reflexivity.
Defined.


(** ** Discovery *)

(** X7: [updateFromDiscovery] with a string address always marks the device
    connected; it takes the address over unless it is empty or contains a
    colon, and changes nothing else. *)
Theorem updateFromDiscovery_address (addr : string) (w : World) :
  updateFromDiscovery (VStr addr) w
  = (Return tt,
     mkWorld
       (let d := set_connected (VBool true) (self w) in
        if bool_decide (addr = EmptyString) || Str.includes addr ":"
        then d else set_address (VStr addr) d)
       (emitted w ++ [ConnectedNotify (VBool true)])).
Proof.
  unfold updateFromDiscovery, connectedNotify, bind, emit, modify, when, ret.
  simpl. case_bool_decide as Hempty; simpl.
  - reflexivity.
  - by destruct (Str.includes addr ":").
Qed.

(** X8: a discovery record for a registered MAC, in whatever letter case,
    revives that device in place (connected again, cached values and schema
    kept) and leaves every other device alone; for an unregistered MAC no
    device changes and a construction is started. *)
Theorem handleDiscovery_by_mac (spec : DeviceSpec) (a : Adapter) :
  let key := "dingz-" +:+ Str.toLowerCase (spec_mac spec) in
  let result := handleDiscovery spec a in
  (forall other, other <> key ->
     devices result.2 !! other = devices a !! other)
  /\ match devices a !! key with
     | Some d =>
         exists d', devices result.2 !! key = Some d'
                    /\ connected d' = VBool true
                    /\ properties d' = properties d
                    /\ actions d' = actions d
                    /\ wiring d' = wiring d
     | None =>
         devices result.2 = devices a
         /\ result.1 = Return tt
         /\ reported result.2
            = (reported a ++ [NewDingz (spec_mac spec) (spec_address spec)])%list
     end.
Proof.
  intros key result. subst result. unfold handleDiscovery. fold key.
  destruct (devices a !! key) as [d |] eqn:Hd.
  - unfold on_device, run.
    pose proof (updateFromDiscovery_connected (spec_address spec) (mkWorld d []))
      as Hc.
    pose proof (writes_updateFromDiscovery
                  (fun w => properties (self w) = properties d
                            /\ actions (self w) = actions d
                            /\ wiring (self w) = wiring d)) as Hk.
    specialize (Hk (fun e w Hw => Hw) (fun v w Hw => Hw) (fun v w Hw => Hw)
                   (spec_address spec) (mkWorld d [])).
    destruct (updateFromDiscovery (spec_address spec) (mkWorld d []))
      as [o w] eqn:Hrun.
    simpl in *. split.
    + intros other Hother. by rewrite lookup_insert_ne.
    + exists (self w). rewrite lookup_insert_eq.
      destruct Hk as (Hp & Ha & Hw); [done |]. done.
  - simpl. split; [done |]. split; [reflexivity |]. split; reflexivity.
Qed.

(** ** Connectivity *)

Lemma poll_connected_extends hsv2rgb rev net (w : World) :
  truthy (connected (self w)) = true ->
  truthy (address (self w)) = true ->
  extends (issued "state" "GET" w) (poll hsv2rgb rev net w).2.
Proof.
  intros Hc Haddr. unfold poll, bind at 1, this. simpl. rewrite Hc. simpl.
  pose proof (apiCall_issues (J := Snapshot) "state" "GET" net w Haddr) as Hissued.
  unfold bind.
  destruct (apiCall "state" "GET" net w) as [[[state |] | e] w']; simpl in *;
    try exact Hissued.
  - by apply extends_reconcile.
  - by destruct rev.
Qed.

(** X9: a poll whose state request fails with a timeout or unreachable-host
    error, be it that the fetch is rejected or that the text of a response
    outside 200..299 cannot be read, marks the device disconnected without
    touching a property; the MQTT revision returns normally, the HTTP
    revision throws a [TypeError] on the missing snapshot.  Every later poll
    is skipped.  When the request is answered with a 2xx status and reading
    the body fails, with whatever error, also a timeout, the poll is rejected
    with that error and the device is as it was, still connected: the next
    poll queries it again. *)
Theorem poll_unreachable hsv2rgb (rev : Revision) (e : Error) (w : World) :
  truthy (connected (self w)) = true ->
  truthy (address (self w)) = true ->
  (unreachable e = true ->
   forall net,
     net = Rejected e
     \/ (exists r, net = Responded r /\ ~ (200 <= status r <= 299)
                   /\ text r = Throw e) ->
     poll hsv2rgb rev net w
     = (match rev with
        | IndexJs => Throw (TypeError "Cannot read properties of undefined")
        | Part000 => Return tt
        end, gone "state" "GET" w)
     /\ properties (self (gone "state" "GET" w)) = properties (self w)
     /\ forall nets,
          for_of nets (poll hsv2rgb rev) (gone "state" "GET" w)
          = (Return tt, gone "state" "GET" w))
  /\ (forall r,
        200 <= status r <= 299 ->
        status r <> 204 ->
        json r = Throw e ->
        poll hsv2rgb rev (Responded r) w = (Throw e, issued "state" "GET" w)
        /\ self (issued "state" "GET" w) = self w
        /\ forall net,
             extends (issued "state" "GET" (issued "state" "GET" w))
                     (poll hsv2rgb rev net (issued "state" "GET" w)).2).
Proof.
  intros Hc Haddr. split.
  - intros He net Hnet. split; [| split].
    + unfold poll, bind at 1, this. simpl. rewrite Hc. simpl. unfold bind.
      destruct Hnet as [-> | (r & -> & Hstatus & Htext)].
      * rewrite apiCall_rejected by exact Haddr. rewrite He. by destruct rev.
      * rewrite (apiCall_text_rejected _ _ r e) by assumption.
        rewrite He. by destruct rev.
    + reflexivity.
    + intros nets. by apply polls_disconnected.
  - intros r Hstatus H204 Hjson. split; [| split].
    + unfold poll, bind at 1, this. simpl. rewrite Hc. simpl. unfold bind.
      by rewrite (apiCall_body_rejected _ _ r e) by (assumption || discriminate).
    + reflexivity.
    + intros net. by apply poll_connected_extends.
Qed.

Lemma poll_unreachable_witness :
  let w := mkWorld (Examples.puck Part000 3 None) [] in
  let e := mkError "read ETIMEDOUT" (Some "system") (Some "ETIMEDOUT") in
  let r := mkResponse (J := Snapshot) 200 (Return EmptyString) (Throw e) in
  poll Examples.no_hsv Part000 (Rejected e) w = (Return tt, gone "state" "GET" w)
  /\ poll Examples.no_hsv Part000 (Responded r) w
     = (Throw e, issued "state" "GET" w).
Proof.
  intros w e r.
  destruct (poll_unreachable Examples.no_hsv Part000 e w) as [Hfetch Hbody];
    [reflexivity | reflexivity |].
  split.
  - apply (Hfetch eq_refl (Rejected e)). by left.
  - apply (Hbody r); [simpl; lia | discriminate | reflexivity].
Defined.

(** X10: an [online] message stores its payload as the connectivity flag; when
    the payload is falsy every later poll is skipped, and when it is truthy
    the next poll queries the device. *)
Theorem online_message_gates_polling hsv2rgb (rev : Revision) (message : Value)
    (w : World) :
  let w' := mkWorld (set_connected message (self w))
                    (emitted w ++ [ConnectedNotify message]) in
  mqttEvent "online" message w = (Return tt, w')
  /\ (truthy message = false ->
      forall nets, for_of nets (poll hsv2rgb rev) w' = (Return tt, w'))
  /\ (truthy message = true ->
      truthy (address (self w)) = true ->
      forall net,
        Fetch (address (self w)) "state" "GET"
          ∈ emitted (poll hsv2rgb rev net w').2).
Proof.
  intros w'. split; [reflexivity |]. split.
  - intros Hm nets. by apply polls_disconnected.
  - intros Hm Haddr net.
    by apply (poll_connected_issues hsv2rgb rev net w').
Qed.

(** ** Successful requests *)

(** X11: a request answered with a 2xx status makes exactly one request and
    leaves the device as it is.  With status 204 and for [POST] requests it
    resolves with no value and the body is not read; otherwise it settles as
    the read of the decoded body does: it resolves with the body, or is
    rejected with the error of the read.  Without an address no request is
    made at all. *)
Theorem apiCall_2xx_outcome {J : Type} (path method : string) (r : Response J)
    (w : World) :
  200 <= status r <= 299 ->
  (truthy (address (self w)) = true ->
   apiCall path method (Responded r) w
   = (if negb (status r =? 204) && negb (bool_decide (method = "POST"))
      then match json r with
           | Return body => Return (Some body)
           | Throw e => Throw e
           end
      else Return None,
      issued path method w))
  /\ (truthy (address (self w)) = false ->
      forall net : FetchOutcome J,
        apiCall path method net w
        = (Return None, mkWorld (self w) (emitted w ++ [Console "warn"]))).
Proof.
  intros Hstatus. split.
  - intros Haddr. by apply apiCall_answered.
  - intros Haddr net. unfold apiCall, bind, this, emit, ret. simpl.
    by rewrite Haddr.
Qed.

Lemma apiCall_2xx_outcome_witness :
  let w := mkWorld (Examples.puck IndexJs 0 None) [] in
  let malformed := mkResponse (J := Snapshot) 200 (Return EmptyString)
                     (Throw (newError "Unexpected end of JSON input")) in
  apiCall "state" "GET" Examples.ok_response w
  = (Return (Some Examples.snapshot), issued "state" "GET" w)
  /\ apiCall "state" "GET" (Responded malformed) w
     = (Throw (newError "Unexpected end of JSON input"),
        issued "state" "GET" w).
Proof.
  intros w malformed.
  assert (Hs : forall body : Outcome Snapshot,
             200 <= status (mkResponse 200 (Return EmptyString) body) <= 299)
    by (intros body; simpl; lia).
  split.
  - destruct (apiCall_2xx_outcome "state" "GET"
                (mkResponse 200 (Return EmptyString) (Return Examples.snapshot))
                w (Hs _)) as [Hok _].
    apply Hok. reflexivity.
  - destruct (apiCall_2xx_outcome "state" "GET" malformed w (Hs _)) as [Hok _].
    apply Hok. reflexivity.
Defined.

(** ** Button tokens *)

(** X12: every token that starts with [m] other than [m1], [m2] and [m3]
    releases the key and fires no event. *)
Theorem button_event_other_m_token (keyID token : string) (w : World) :
  Str.startsWith token "m" = true ->
  token ∉ ["m1"; "m2"; "m3"] ->
  is_Some (properties (self w) !! keyID) ->
  button_event keyID (VStr token) w
  = (Return tt, cached keyID (VBool false) w).
Proof.
  intros Hm Htoken Hkey. unfold button_event, is_string.
  destruct token as [| c rest]; [discriminate |].
  assert (c = "m"%char) as ->.
  { unfold Str.startsWith in Hm.
    change (String.prefix "m" (String c rest))
      with (if Ascii.ascii_dec "m" c then String.prefix EmptyString rest else false)
      in Hm.
    destruct (Ascii.ascii_dec "m" c) as [<- | ?]; [done | discriminate]. }
  rewrite (bool_decide_eq_false_2 (String "m" rest = "p")) by discriminate.
  rewrite (bool_decide_eq_false_2 (String "m" rest = "m1"))
    by (intros Heq; apply Htoken; rewrite Heq; repeat constructor).
  rewrite (bool_decide_eq_false_2 (String "m" rest = "m2"))
    by (intros Heq; apply Htoken; rewrite Heq; repeat constructor).
  rewrite (bool_decide_eq_false_2 (String "m" rest = "m3"))
    by (intros Heq; apply Htoken; rewrite Heq; repeat constructor).
  rewrite (bool_decide_eq_false_2 (String "m" rest = "h")) by discriminate.
  rewrite (bool_decide_eq_false_2 (String "m" rest = "r")) by discriminate.
  rewrite Hm. by apply set_cached_run.
Qed.

Lemma button_event_other_m_token_witness :
  let w := mkWorld (Examples.puck Part000 3 None) [] in
  button_event "key2" (VStr "m17") w = (Return tt, cached "key2" (VBool false) w).
Proof.
  intros w. apply (button_event_other_m_token "key2" "m17" w).
  - reflexivity.
  - intros Hin. rewrite !elem_of_cons, elem_of_nil in Hin.
    destruct Hin as [H | [H | [H | []]]]; discriminate H.
  - vm_compute. eauto.
Defined.

(** X13: a press, multi-press or release token for a key that is not registered
    throws a [TypeError]; for the multi-press and release tokens the event
    has been fired by then. *)
Theorem button_event_unregistered_key (keyID : string) (w : World) :
  properties (self w) !! keyID = None ->
  let thrown := Throw (TypeError "Cannot read properties of undefined") in
  button_event keyID (VStr "p") w = (thrown, w)
  /\ button_event keyID (VStr "m1") w = (thrown, notified (keyID +:+ "single") w)
  /\ button_event keyID (VStr "r") w = (thrown, notified (keyID +:+ "long") w)
  /\ button_event keyID (VStr "h") w = (Return tt, w).
Proof.
  intros Hkey thrown.
  unfold button_event, set_cached, bind, findProperty, this, eventNotify, emit.
  simpl. rewrite Hkey. done.
Qed.

Lemma button_event_unregistered_key_witness :
  let w := mkWorld (Examples.puck Part000 3 None) [] in
  button_event "key6" (VStr "p") w
  = (Throw (TypeError "Cannot read properties of undefined"), w).
Proof.
  intros w. apply (button_event_unregistered_key "key6" w).
  vm_compute. reflexivity.
Defined.

(** ** Reconciling shutters and dimmers *)

Lemma cached_keeps_some (name n : string) (v : Value) (w : World) :
  is_Some (properties (self w) !! n) ->
  is_Some (properties (self (cached name v w)) !! n).
Proof.
  intros [p Hp]. simpl. rewrite lookup_alter. case_decide; subst.
  - rewrite Hp. eauto.
  - rewrite Hp. eauto.
Qed.

Lemma power_output_at (state : Snapshot) (i : Z) (v : Value) (w : World) :
  at_index (power_outputs state) i = Some v ->
  power_output state (Some i) w = (Return v, w).
Proof. intros H. unfold power_output. simpl. by rewrite H. Qed.

(** X14: for a wired shutter whose three properties are registered, a snapshot
    entry sets position and lamella, and sets the power to the reading of
    the first motor output unless that is zero, in which case to the reading
    of the second. *)
Theorem poll_blind_power (state : Snapshot) (blind : BlindState) (w : World)
    (k : Z) (motor1Power motor2Power : Value) :
  bl_absolute blind = k ->
  (k = 0 /\ shade1 (self w) = true) \/ (k = 1 /\ shade2 (self w) = true) ->
  let shadeID := "shade" +:+ pretty (k + 1) in
  is_Some (properties (self w) !! shadeID) ->
  is_Some (properties (self w) !! (shadeID +:+ "Lamella")) ->
  is_Some (properties (self w) !! (shadeID +:+ "Power")) ->
  at_index (power_outputs state) (k * 2) = Some motor1Power ->
  at_index (power_outputs state) (k * 2 + 1) = Some motor2Power ->
  poll_blind state blind w
  = (Return tt,
     cached (shadeID +:+ "Power")
       (if truthy motor1Power then motor1Power else motor2Power)
       (cached (shadeID +:+ "Lamella") (bl_lamella blind)
          (cached shadeID (bl_position blind) w))).
Proof.
  intros Habs Hwired shadeID Hpos Hlam Hpow H1 H2.
  unfold poll_blind, bind at 1, this. simpl. rewrite Habs.
  assert (((k =? 0) && shade1 (self w)) || ((k =? 1) && shade2 (self w)) = true)
    as ->.
  { destruct Hwired as [[-> ->] | [-> ->]]; reflexivity. }
  unfold when. fold shadeID.
  assert (Hne : shadeID <> shadeID +:+ "Lamella"
                /\ shadeID <> shadeID +:+ "Power"
                /\ shadeID +:+ "Lamella" <> shadeID +:+ "Power").
  { subst shadeID. destruct Hwired as [[-> _] | [-> _]]; by vm_compute. }
  destruct Hne as (N1 & N2 & N3).
  unfold bind at 1. rewrite set_cached_run by exact Hpos.
  unfold bind at 1. rewrite set_cached_run by (by apply cached_keeps_some).
  unfold bind at 1. rewrite (power_output_at _ _ _ _ H1).
  unfold bind at 1. rewrite (power_output_at _ _ _ _ H2).
  rewrite set_cached_run by (by do 2 apply cached_keeps_some).
  reflexivity.
Qed.

Lemma poll_blind_power_witness :
  let w := mkWorld (Examples.puck Part000 0 None) [] in
  poll_blind Examples.snapshot (mkBlindState 1 (VNum 0) (VNum 0)) w
  = (Return tt,
     cached "shade2Power" (VNum 9)
       (cached "shade2Lamella" (VNum 0) (cached "shade2" (VNum 0) w))).
Proof.
  intros w.
  apply (poll_blind_power Examples.snapshot (mkBlindState 1 (VNum 0) (VNum 0))
           w 1 (VNum 9) (VNum 4)).
  - reflexivity.
  - right. split; reflexivity.
  - vm_compute. eauto.
  - vm_compute. eauto.
  - vm_compute. eauto.
  - reflexivity.
  - reflexivity.
Defined.

Lemma dimmer_names_differ (n : Z) :
  let dimmerID := "dimmer" +:+ pretty n in
  dimmerID +:+ "Brightness" <> dimmerID
  /\ dimmerID +:+ "Power" <> dimmerID
  /\ dimmerID +:+ "Power" <> dimmerID +:+ "Brightness".
Proof.
  intros dimmerID. subst dimmerID. repeat split; intros Heq.
  - symmetry in Heq.
    change ("dimmer" +:+ pretty n = "dimmer" +:+ pretty n +:+ "Brightness")
      in Heq.
    by apply indexed_name_inj0 in Heq as [_ Heq].
  - symmetry in Heq.
    change ("dimmer" +:+ pretty n = "dimmer" +:+ pretty n +:+ "Power") in Heq.
    by apply indexed_name_inj0 in Heq as [_ Heq].
  - change ("dimmer" +:+ pretty n +:+ "Power"
            = "dimmer" +:+ pretty n +:+ "Brightness") in Heq.
    by apply indexed_name_inj in Heq as [_ Heq].
Qed.

(** X15: a snapshot that lists a dimmer of a present group but no power reading
    at its index makes the poll throw a [TypeError]; on/off and brightness
    of that dimmer have been written by then, its power has not. *)
Theorem poll_dimmer_without_power_reading (state : Snapshot)
    (dimmer : DimmerState) (w : World) :
  let absolute := dm_absolute dimmer in
  let dimmerID := "dimmer" +:+ pretty (absolute + 1) in
  ((absolute >? 1) && dimmerGroup2 (self w))
  || ((absolute <=? 1) && dimmerGroup1 (self w)) = true ->
  is_Some (properties (self w) !! dimmerID) ->
  is_Some (properties (self w) !! (dimmerID +:+ "Brightness")) ->
  is_Some (properties (self w) !! (dimmerID +:+ "Power")) ->
  at_index (power_outputs state) absolute = None ->
  let w' := cached (dimmerID +:+ "Brightness") (dm_value dimmer)
              (cached dimmerID (dm_on dimmer) w) in
  poll_dimmer state dimmer w
  = (Throw (TypeError "Cannot read properties of undefined"), w')
  /\ properties (self w') !! (dimmerID +:+ "Power")
     = properties (self w) !! (dimmerID +:+ "Power").
Proof.
  intros absolute dimmerID Hguard Hon Hbri Hpow Hnone w'.
  destruct (dimmer_names_differ (absolute + 1)) as (N1 & N2 & N3).
  fold dimmerID in N1, N2, N3. split.
  - unfold poll_dimmer, bind at 1, this. simpl. fold absolute.
    rewrite Hguard. unfold when. fold dimmerID.
    unfold bind at 1. rewrite set_cached_run by exact Hon.
    unfold bind at 1. rewrite set_cached_run by (by apply cached_keeps_some).
    unfold set_cached, bind, findProperty, this. simpl.
    rewrite !lookup_alter_ne by done.
    destruct Hpow as [p ->]. unfold power_output. simpl. by rewrite Hnone.
  - subst w'. by rewrite !cached_other.
Qed.

Lemma poll_dimmer_without_power_reading_witness :
  let w := mkWorld (Examples.puck Part000 3 None) [] in
  let state := mkSnapshot VNull None [VNum 7] (VBool true) "rgb" "0;0;0" "000000"
                 [] [] Examples.thermostat_state in
  poll_dimmer state (mkDimmerState 2 (VBool true) (VNum 55)) w
  = (Throw (TypeError "Cannot read properties of undefined"),
     cached "dimmer3Brightness" (VNum 55) (cached "dimmer3" (VBool true) w)).
Proof.
  intros w state.
  apply (poll_dimmer_without_power_reading state
           (mkDimmerState 2 (VBool true) (VNum 55)) w).
  - reflexivity.
  - vm_compute. eauto.
  - vm_compute. eauto.
  - vm_compute. eauto.
  - reflexivity.
Defined.

(** ** Messages for capabilities the device lacks *)

Lemma set_cached_opt_absent (name : string) (arg : Js Value) (w : World) :
  properties (self w) !! name = None ->
  set_cached_opt name arg w = (Return tt, w).
Proof.
  intros Hnone. unfold set_cached_opt, bind, findProperty, this. simpl.
  by rewrite Hnone.
Qed.

Lemma set_cached_opt_throws (name : string) (arg : Js Value) (e : Error)
    (w : World) :
  is_Some (properties (self w) !! name) ->
  arg w = (Throw e, w) ->
  set_cached_opt name arg w = (Throw e, w).
Proof.
  intros [p Hp] Harg. unfold set_cached_opt, bind, findProperty, this. simpl.
  by rewrite Hp, Harg.
Qed.

(** X16: a thermostat state message for a device without thermostat properties
    is dropped without looking at the payload: whatever was parsed, even
    [null], the handler returns normally and only records the model segment.
    When the mode property is registered, a [null] payload throws a
    [TypeError] and no property is written. *)
Theorem thermostat_message_schema_miss (model : string) (message : Value)
    (w : World) :
  no_slash model = true ->
  model ∉ ["online"; "announce"; "last_alive"] ->
  let typed := mkWorld (set_deviceType (VStr model) (self w)) (emitted w) in
  (properties (self w) !! "thermostatMode" = None ->
   properties (self w) !! "thermostatState" = None ->
   properties (self w) !! "targetTemperature" = None ->
   mqttEvent (model +:+ "/state/thermostat") message w = (Return tt, typed))
  /\ (is_Some (properties (self w) !! "thermostatMode") ->
      mqttEvent (model +:+ "/state/thermostat") VNull w
      = (Throw (TypeError "Cannot read properties of undefined"), typed)).
Proof.
  intros Hslash Hmodel typed.
  assert (Hrun : forall msg,
             mqttEvent (model +:+ "/state/thermostat") msg w
             = (set_cached_opt "thermostatMode" (get msg "status") >>
                set_cached_opt "thermostatState"
                  (do status <- get msg "status";
                   if is_string status "on" then get msg "mode"
                   else ret (VStr "off")) >>
                set_cached_opt "targetTemperature" (get msg "target"))
                 typed).
  { intros msg. unfold mqttEvent.
    change (model +:+ "/state/thermostat")
      with (model +:+ "/" +:+ "state/thermostat").
    rewrite (split_segment model "state/thermostat" Hslash).
    change (Str.split "/" "state/thermostat") with ["state"; "thermostat"].
    simpl.
    rewrite !bool_decide_eq_false_2
      by (intros [= ->]; apply Hmodel; repeat constructor).
    reflexivity. }
  split.
  - intros Hm Hs Ht. rewrite Hrun. unfold bind.
    by rewrite !set_cached_opt_absent.
  - intros Hp. rewrite Hrun. unfold bind at 1.
    by rewrite (set_cached_opt_throws "thermostatMode" _
                  (TypeError "Cannot read properties of undefined") typed Hp).
Qed.

Lemma thermostat_message_schema_miss_witness :
  let w := mkWorld (newDingz Examples.spec) [] in
  mqttEvent ("dz1" +:+ "/state/thermostat") VNull w
  = (Return tt, mkWorld (set_deviceType (VStr "dz1") (self w)) (emitted w)).
Proof.
  intros w.
  destruct (thermostat_message_schema_miss "dz1" VNull w) as [Hmiss _].
  - reflexivity.
  - intros Hin. rewrite !elem_of_cons, elem_of_nil in Hin.
    destruct Hin as [H | [H | [H | []]]]; discriminate H.
  - apply Hmiss; reflexivity.
Defined.

(** ** Outbound commands *)

Lemma sendMqttEvent_untyped (path : string) (message : Value)
    (broker : option Error) (w : World) :
  truthy (deviceType (self w)) = false ->
  sendMqttEvent path message broker w
  = (Return tt, mkWorld (self w) (emitted w ++ [Console "error"])).
Proof.
  intros Ht. unfold sendMqttEvent, bind, this, emit. simpl. by rewrite Ht.
Qed.

Lemma sendMqttEvent_typed (model path : string) (message : Value) (w : World) :
  deviceType (self w) = VStr model ->
  model <> EmptyString ->
  sendMqttEvent path message None w = (Return tt, sent model path message w).
Proof.
  intros Ht Hm. unfold sendMqttEvent, bind, this, emit, ret. simpl.
  rewrite Ht. simpl. by rewrite bool_decide_eq_false_2.
Qed.

Section Typed.

Variable I : World -> Prop.
Hypothesis W_emit : forall e, keeps I (emit e).
Hypothesis W_value :
  forall name v, keeps I (update_property name (with_value v)).

(** The part of [mqttEvent] after the model segment has been recorded only
    writes cached values and journal entries. *)
Lemma writes_after_typing (path model : string) (message : Value) (w : World) :
  Str.split "/" path !! 0%nat = Some model ->
  model ∉ ["online"; "announce"; "last_alive"] ->
  I (mkWorld (set_deviceType (VStr model) (self w)) (emitted w)) ->
  I (mqttEvent path message w).2.
Proof.
  intros Hhead Hmodel Hw. unfold mqttEvent. rewrite Hhead.
  rewrite !bool_decide_eq_false_2
    by (intros [= ->]; apply Hmodel; repeat constructor).
  unfold bind at 1, modify at 1. simpl from_option.
  match goal with
  | |- I (?m ?w0).2 => cut (keeps I m); [intros K; exact (K w0 Hw) |]
  end.
  repeat lazymatch goal with
    | |- keeps _ (ret _) => apply keeps_ret
    | |- keeps _ (throw _) => apply keeps_throw
    | |- keeps _ undefined_access => apply keeps_throw
    | |- keeps _ (get _ _) => apply keeps_get
    | |- keeps _ (emit _) => apply W_emit
    | |- keeps _ (set_cached_opt _ _) => unfold set_cached_opt
    | |- keeps _ (findProperty _) => apply keeps_this
    | |- keeps _ (update_property _ (with_value _)) => apply W_value
    | |- keeps _ (channel _ _) => unfold channel
    | |- keeps _ (toString16 _) => unfold toString16
    | |- keeps _ (when ?b _) => apply keeps_when; intros _
    | |- keeps _ (button_event _ _) =>
        apply writes_button_event; [apply W_emit | apply W_value]
    | |- keeps _ (bind _ _) => apply keeps_bind; [| intros ?]
    | |- keeps _ (if ?b then _ else _) => destruct b
    | |- keeps _ (match ?x with _ => _ end) => destruct x
    | |- keeps _ (let _ := _ in _) => cbv zeta
    end.
Qed.

End Typed.

(** X17: commands are published under the model segment of the last push
    message: once a message with a non-reserved, non-empty first segment has
    been handled (even if its handling threw), a command goes out on
    [dingz/<mac in lower case>/<model>/<path>].  As long as no device type is
    known, a command is not published at all. *)
Theorem commands_follow_model (model rest path : string) (message msg : Value)
    (w : World) :
  no_slash model = true ->
  model ∉ ["online"; "announce"; "last_alive"] ->
  model <> EmptyString ->
  let w1 := (mqttEvent (model +:+ "/" +:+ rest) message w).2 in
  sendMqttEvent path msg None w1 = (Return tt, sent model path msg w1)
  /\ mac (self w1) = mac (self w)
  /\ forall broker w0,
       truthy (deviceType (self w0)) = false ->
       sendMqttEvent path msg broker w0
       = (Return tt, mkWorld (self w0) (emitted w0 ++ [Console "error"])).
Proof.
  intros Hslash Hmodel Hne w1.
  assert (Hinv : deviceType (self w1) = VStr model /\ mac (self w1) = mac (self w)).
  { subst w1.
    apply (writes_after_typing
             (fun w0 => deviceType (self w0) = VStr model
                        /\ mac (self w0) = mac (self w))
             (fun e w0 Hw0 => Hw0) (fun name v w0 Hw0 => Hw0)
             (model +:+ "/" +:+ rest) model message w).
    - by rewrite split_segment.
    - exact Hmodel.
    - by split. }
  destruct Hinv as [Htype Hmac]. split; [| split].
  - by apply sendMqttEvent_typed.
  - exact Hmac.
  - intros broker w0. apply sendMqttEvent_untyped.
Qed.

Lemma commands_follow_model_witness :
  let w := mkWorld (Examples.puck Part000 3 None) [] in
  let w1 := (mqttEvent ("dz1" +:+ "/" +:+ "sensor/light") (VNum 40) w).2 in
  sendMqttEvent "command/led" (VObj [("on", VNum 1)]) None w1
  = (Return tt, sent "dz1" "command/led" (VObj [("on", VNum 1)]) w1).
Proof.
  intros w w1.
  apply (commands_follow_model "dz1" "sensor/light" "command/led" (VNum 40)
           (VObj [("on", VNum 1)]) w).
  - reflexivity.
  - intros Hin. rewrite !elem_of_cons, elem_of_nil in Hin.
    destruct Hin as [H | [H | [H | []]]]; discriminate H.
  - discriminate.
Defined.

Lemma getProperty_companion (name : string) (w : World) :
  try_catch (getProperty name) (fun _ => ret (VNum 100)) w
  = (Return (companion name w), w).
Proof.
  unfold try_catch, getProperty, bind, findProperty, this, companion. simpl.
  by destruct (properties (self w) !! name).
Qed.

Section Writing.

Context {J : Type}.
Variable super_setValue : string -> Value -> Js Value.

(** X18: writing the position of shutter 1 or 2 publishes one motor command,
    addressed by the 0-based motor index, that carries the new position
    together with the cached lamella (100 if no lamella property is
    registered); writing the lamella carries the cached position in the
    same way.  The inherited write follows. *)
Theorem setValue_shade (k : Z) (model : string) (value : Value)
    (net : FetchOutcome J) (w : World) :
  k = 1 \/ k = 2 ->
  deviceType (self w) = VStr model ->
  model <> EmptyString ->
  let shadeID := "shade" +:+ pretty k in
  let topic := "command/motor/" +:+ pretty (k - 1) in
  setValue super_setValue shadeID value net None w
  = super_setValue shadeID value
      (sent model topic
         (published [("position", value);
                     ("lamella", companion (shadeID +:+ "Lamella") w)]) w)
  /\ setValue super_setValue (shadeID +:+ "Lamella") value net None w
     = super_setValue (shadeID +:+ "Lamella") value
         (sent model topic
            (published [("position", companion shadeID w);
                        ("lamella", value)]) w).
Proof.
  intros Hk Htype Hmodel shadeID topic. subst shadeID topic.
  destruct Hk as [-> | ->].
  - split.
    + change (setValue super_setValue ("shade" +:+ pretty 1) value net None w)
        with ((do triple <-
                 (do lamellaValue <-
                    try_catch (getProperty "shade1Lamella")
                              (fun _ => ret (VNum 100));
                  ret ("1", value, lamellaValue));
               let '(index, blindValue, lamellaValue) := triple in
               sendMqttEvent
                 ("command/motor/" +:+ show (nan_plus (Str.parseInt index) (-1)))
                 (published [("position", blindValue); ("lamella", lamellaValue)])
                 None >>
               super_setValue "shade1" value) w).
      unfold bind. rewrite getProperty_companion. simpl.
      by rewrite (sendMqttEvent_typed model).
    + change (setValue super_setValue (("shade" +:+ pretty 1) +:+ "Lamella")
                value net None w)
        with ((do triple <-
                 (do blindValue <-
                    try_catch (getProperty "shade1")
                              (fun _ => ret (VNum 100));
                  ret ("1", blindValue, value));
               let '(index, blindValue, lamellaValue) := triple in
               sendMqttEvent
                 ("command/motor/" +:+ show (nan_plus (Str.parseInt index) (-1)))
                 (published [("position", blindValue); ("lamella", lamellaValue)])
                 None >>
               super_setValue "shade1Lamella" value) w).
      unfold bind. rewrite getProperty_companion. simpl.
      by rewrite (sendMqttEvent_typed model).
  - split.
    + change (setValue super_setValue ("shade" +:+ pretty 2) value net None w)
        with ((do triple <-
                 (do lamellaValue <-
                    try_catch (getProperty "shade2Lamella")
                              (fun _ => ret (VNum 100));
                  ret ("2", value, lamellaValue));
               let '(index, blindValue, lamellaValue) := triple in
               sendMqttEvent
                 ("command/motor/" +:+ show (nan_plus (Str.parseInt index) (-1)))
                 (published [("position", blindValue); ("lamella", lamellaValue)])
                 None >>
               super_setValue "shade2" value) w).
      unfold bind. rewrite getProperty_companion. simpl.
      by rewrite (sendMqttEvent_typed model).
    + change (setValue super_setValue (("shade" +:+ pretty 2) +:+ "Lamella")
                value net None w)
        with ((do triple <-
                 (do blindValue <-
                    try_catch (getProperty "shade2")
                              (fun _ => ret (VNum 100));
                  ret ("2", blindValue, value));
               let '(index, blindValue, lamellaValue) := triple in
               sendMqttEvent
                 ("command/motor/" +:+ show (nan_plus (Str.parseInt index) (-1)))
                 (published [("position", blindValue); ("lamella", lamellaValue)])
                 None >>
               super_setValue "shade2Lamella" value) w).
      unfold bind. rewrite getProperty_companion. simpl.
      by rewrite (sendMqttEvent_typed model).
Qed.

End Writing.

Lemma setValue_shade_witness :
  let w := mkWorld (set_deviceType (VStr "dz1") (Examples.puck Part000 3 None)) [] in
  setValue (fun _ v => ret v) "shade1" (VNum 40) (Rejected (J := unit) (newError "down"))
    None w
  = (Return (VNum 40),
     sent "dz1" "command/motor/0"
       (published [("position", VNum 40);
                   ("lamella", companion "shade1Lamella" w)]) w).
Proof.
  intros w.
  destruct (setValue_shade (fun _ v => ret v) 1 "dz1" (VNum 40)
              (Rejected (J := unit) (newError "down")) w) as [Hposition _].
  - by left.
  - reflexivity.
  - discriminate.
  - exact Hposition.
Defined.

(** ** The LED colour *)

Lemma bytes_round_trip :
  forallb byte_round_trips (map Z.of_nat (seq 0 256)) = true.
Proof. vm_compute. reflexivity. Qed.

Lemma byte_hex (c : Z) :
  0 <= c <= 255 ->
  exists x y,
    padStart2 (hex c) = String x (String y EmptyString)
    /\ parseInt16 (String x (String y EmptyString)) = Some c.
Proof.
  intros Hc.
  assert (Hin : In c (map Z.of_nat (seq 0 256))).
  { apply in_map_iff. exists (Z.to_nat c). split; [lia |].
    apply in_seq. lia. }
  pose proof (proj1 (forallb_forall _ _) bytes_round_trip c Hin) as Hb.
  unfold byte_round_trips in Hb.
  destruct (padStart2 (hex c)) as [| x [| y [| z rest]]]; try discriminate Hb.
  exists x, y. split; [reflexivity |].
  by apply bool_decide_eq_true_1 in Hb.
Qed.

Lemma color_channels (r g b : Z) :
  0 <= r <= 255 -> 0 <= g <= 255 -> 0 <= b <= 255 ->
  truthy (VStr (color_of r g b)) = true
  /\ parseInt16 (slice (color_of r g b) 1 (Some 3)) = Some r
  /\ parseInt16 (slice (color_of r g b) 3 (Some 5)) = Some g
  /\ parseInt16 (slice (color_of r g b) 5 None) = Some b.
Proof.
  intros Hr Hg Hb. unfold color_of.
  destruct (byte_hex r Hr) as (r1 & r2 & -> & Hred).
  destruct (byte_hex g Hg) as (g1 & g2 & -> & Hgreen).
  destruct (byte_hex b Hb) as (b1 & b2 & -> & Hblue).
  repeat split; [exact Hred | exact Hgreen | exact Hblue].
Qed.

Section Colour.

Context {J : Type}.
Variable super_setValue : string -> Value -> Js Value.

(** X19: the LED colour survives a round trip.  A [state/led] message whose
    channels are bytes caches the colour as [#rrggbb]; writing that cached
    string back publishes a [command/led] message with exactly the three
    channel values of the message. *)
Theorem led_colour_round_trip (model : string) (fields : list (string * Value))
    (r g b : Z) (net : FetchOutcome J) (w : World) :
  no_slash model = true ->
  model ∉ ["online"; "announce"; "last_alive"] ->
  model <> EmptyString ->
  is_Some (properties (self w) !! "ledColor") ->
  obj_get fields "r" = VNum r -> 0 <= r <= 255 ->
  obj_get fields "g" = VNum g -> 0 <= g <= 255 ->
  obj_get fields "b" = VNum b -> 0 <= b <= 255 ->
  let w1 := (mqttEvent (model +:+ "/state/led") (VObj fields) w).2 in
  p_value <$> properties (self w1) !! "ledColor" = Some (VStr (color_of r g b))
  /\ setValue super_setValue "ledColor" (VStr (color_of r g b)) net None w1
     = super_setValue "ledColor" (VStr (color_of r g b))
         (sent model "command/led"
            (VObj [("r", VNum r); ("g", VNum g); ("b", VNum b)]) w1).
Proof.
  intros Hslash Hmodel Hne [p Hp] Hfr Hr Hfg Hg Hfb Hb w1.
  assert (Hrun : w1 =
    cached "ledColor" (VStr (color_of r g b))
      (cached "led"
         (VBool match obj_get fields "on" with VNum 1 => true | _ => false end)
         (mkWorld (set_deviceType (VStr model) (self w)) (emitted w)))).
  { subst w1. unfold mqttEvent.
    change (model +:+ "/state/led") with (model +:+ "/" +:+ "state/led").
    rewrite (split_segment model "state/led" Hslash).
    change (Str.split "/" "state/led") with ["state"; "led"].
    simpl.
    rewrite !bool_decide_eq_false_2
      by (intros [= ->]; apply Hmodel; repeat constructor).
    unfold bind at 1, modify at 1.
    unfold bind.
    rewrite (set_cached_opt_pure "led" _
               (VBool match obj_get fields "on" with
                      | VNum 1 => true | _ => false end)) by reflexivity.
    rewrite (set_cached_opt_pure "ledColor" _ (VStr (color_of r g b))).
    2:{ intros w0. unfold channel, get, bind, toString16, ret. simpl.
        by rewrite Hfr, Hfg, Hfb. }
    reflexivity. }
  destruct (color_channels r g b Hr Hg Hb) as (Htruthy & Hred & Hgreen & Hblue).
  split.
  - rewrite Hrun, cached_lookup, cached_other by done. simpl.
    by rewrite Hp.
  - assert (Htype : deviceType (self w1) = VStr model) by by rewrite Hrun.
    change (setValue super_setValue "ledColor" (VStr (color_of r g b)) net None w1)
      with ((if negb (truthy (VStr (color_of r g b))) then ret VUndefined
             else
               do red <- channel_of (VStr (color_of r g b)) 1 (Some 3);
               do green <- channel_of (VStr (color_of r g b)) 3 (Some 5);
               do blue <- channel_of (VStr (color_of r g b)) 5 None;
               sendMqttEvent "command/led"
                 (published [("r", published_number red);
                             ("g", published_number green);
                             ("b", published_number blue)]) None >>
               super_setValue "ledColor" (VStr (color_of r g b))) w1).
    rewrite Htruthy. unfold channel_of, bind, ret.
    rewrite Hred, Hgreen, Hblue. simpl.
    by rewrite (sendMqttEvent_typed model).
Qed.

End Colour.

Lemma led_colour_round_trip_witness :
  let w := mkWorld (Examples.puck Part000 3 None) [] in
  let fields := [("on", VNum 1); ("r", VNum 255); ("g", VNum 10); ("b", VNum 0)] in
  let w1 := (mqttEvent ("dz1" +:+ "/state/led") (VObj fields) w).2 in
  p_value <$> properties (self w1) !! "ledColor" = Some (VStr (color_of 255 10 0)).
Proof.
  intros w fields w1.
  destruct (led_colour_round_trip (fun _ v => ret v) "dz1" fields 255 10 0
              (Rejected (J := unit) (newError "down")) w) as [Hcached _].
  - reflexivity.
  - intros Hin. rewrite !elem_of_cons, elem_of_nil in Hin.
    destruct Hin as [H | [H | [H | []]]]; discriminate H.
  - discriminate.
  - vm_compute. eauto.
  - reflexivity.
  - lia.
  - reflexivity.
  - lia.
  - reflexivity.
  - lia.
  - exact Hcached.
Defined.

(** ** Writes that reach no transport *)

Section Unsent.

Context {J : Type}.
Variable super_setValue : string -> Value -> Js Value.

(** X20: writing a property whose name starts with [dimmer] sends nothing: the
    write is the inherited one, whatever the transports would answer.
    Writing a falsy LED colour does nothing at all: no command, no inherited
    write, and the promise resolves with [undefined]. *)
Theorem setValue_unsent (rest : string) (value : Value) (net : FetchOutcome J)
    (broker : option Error) (w : World) :
  setValue super_setValue ("dimmer" +:+ rest) value net broker w
  = super_setValue ("dimmer" +:+ rest) value w
  /\ (truthy value = false ->
      setValue super_setValue "ledColor" value net broker w
      = (Return VUndefined, w)).
Proof.
  split.
  - reflexivity.
  - intros Hfalsy.
    change (setValue super_setValue "ledColor" value net broker w)
      with ((if negb (truthy value) then ret VUndefined
             else
               do red <- channel_of value 1 (Some 3);
               do green <- channel_of value 3 (Some 5);
               do blue <- channel_of value 5 None;
               sendMqttEvent "command/led"
                 (published [("r", published_number red);
                             ("g", published_number green);
                             ("b", published_number blue)]) broker >>
               super_setValue "ledColor" value) w).
    by rewrite Hfalsy.
Qed.

(** X21: a thermostat write asks the device over HTTP, with the cached value of
    the other thermostat property in the path (a mode write says [on] for a
    truthy value and [off] otherwise).  If the device is unreachable
    the request error is swallowed: the device is marked disconnected and the
    inherited write still happens.  Any other request error rejects the write
    before the inherited write.  When the other property is not registered
    the write is rejected before any request. *)
Theorem setValue_thermostat (value : Value) (e : Error)
    (broker : option Error) (w : World) :
  truthy (address (self w)) = true ->
  let path :=
    "thermostat/" +:+ to_string (companion "thermostatMode" w)
    +:+ "?temp=" +:+ to_string value in
  (is_Some (properties (self w) !! "thermostatMode") ->
   setValue (J := J) super_setValue "targetTemperature" value (Rejected e) broker w
   = if unreachable e
     then super_setValue "targetTemperature" value (gone path "POST" w)
     else (Throw e, issued path "POST" w))
  /\ (properties (self w) !! "thermostatMode" = None ->
      forall net : FetchOutcome J,
        setValue super_setValue "targetTemperature" value net broker w
        = (Throw (newError "Property not found"), w))
  /\ (is_Some (properties (self w) !! "targetTemperature") ->
      let switch :=
        "thermostat/" +:+ (if truthy value then "on" else "off")
        +:+ "?temp=" +:+ to_string (companion "targetTemperature" w) in
      setValue (J := J) super_setValue "thermostatMode" value (Rejected e) broker w
      = if unreachable e
        then super_setValue "thermostatMode" value (gone switch "POST" w)
        else (Throw e, issued switch "POST" w)).
Proof.
  intros Haddr path. subst path. split; [| split].
  - intros [p Hp].
    change (setValue super_setValue "targetTemperature" value (Rejected e) broker w)
      with ((do mode <- getProperty "thermostatMode";
             apiCall (J := J)
               ("thermostat/" +:+ to_string mode +:+ "?temp=" +:+ to_string value)
               "POST" (Rejected e) >>
             super_setValue "targetTemperature" value) w).
    unfold bind at 1. unfold getProperty, bind at 1, findProperty, this, companion.
    simpl. rewrite Hp. simpl. unfold bind.
    rewrite apiCall_rejected by exact Haddr.
    by destruct (unreachable e).
  - intros Hnone net.
    change (setValue super_setValue "targetTemperature" value net broker w)
      with ((do mode <- getProperty "thermostatMode";
             apiCall (J := J)
               ("thermostat/" +:+ to_string mode +:+ "?temp=" +:+ to_string value)
               "POST" net >>
             super_setValue "targetTemperature" value) w).
    unfold bind at 1. unfold getProperty, bind at 1, findProperty, this.
    simpl. by rewrite Hnone.
  - intros [p Hp] switch. subst switch.
    change (setValue super_setValue "thermostatMode" value (Rejected e) broker w)
      with ((do targetTemperature <- getProperty "targetTemperature";
             apiCall (J := J)
               ("thermostat/" +:+ (if truthy value then "on" else "off")
                +:+ "?temp=" +:+ to_string targetTemperature)
               "POST" (Rejected e) >>
             super_setValue "thermostatMode" value) w).
    unfold bind at 1. unfold getProperty, bind at 1, findProperty, this, companion.
    simpl. rewrite Hp. simpl. unfold bind.
    rewrite apiCall_rejected by exact Haddr.
    by destruct (unreachable e).
Qed.

End Unsent.

Lemma setValue_thermostat_witness :
  let w := mkWorld (Examples.puck Part000 0 None) [] in
  setValue (J := unit) (fun _ v => ret v) "targetTemperature" (VNum 21)
    (Rejected (newError "down")) None w
  = (Throw (newError "down"),
     issued ("thermostat/" +:+ to_string (companion "thermostatMode" w)
             +:+ "?temp=" +:+ to_string (VNum 21)) "POST" w).
Proof.
  intros w.
  destruct (setValue_thermostat (J := unit) (fun _ v => ret v) (VNum 21)
              (newError "down") None w) as (Hrequest & _ & _).
  - reflexivity.
  - apply Hrequest. vm_compute. eauto.
Defined.

(** ** Actions *)

Lemma take_all (s : string) : Str.take (String.length s) s = s.
Proof. induction s as [| c s IH]; [reflexivity |]. simpl. by rewrite IH. Qed.

Lemma slice_tail (a b : string) :
  slice (a +:+ b) (Z.of_nat (String.length a)) None = b.
Proof.
  unfold slice, slice_index. simpl. rewrite length_append.
  rewrite (proj2 (Z.ltb_ge _ 0)) by lia.
  rewrite (proj2 (Z.ltb_ge _ 0)) by lia.
  rewrite Z.min_l by lia. rewrite Z.min_id.
  destruct (Z.ltb_spec (Z.of_nat (String.length a))
              (Z.of_nat (String.length a + String.length b))) as [Hlt | Hge].
  - rewrite Nat2Z.id.
    pose proof (drop_append a b 0) as Hdrop.
    rewrite Nat.add_0_r in Hdrop. simpl in Hdrop. rewrite Hdrop.
    replace (Z.to_nat (Z.of_nat (String.length a + String.length b)
                       - Z.of_nat (String.length a)))
      with (String.length b) by lia.
    apply take_all.
  - destruct b as [| c b]; [reflexivity |]. simpl in Hge. lia.
Qed.

(** X22: the actions of a shutter are sent as motor commands with the 0-based
    motor index and motion 1 for up, 2 for down and 0 for stop; any other
    action name under a shutter is logged and nothing is sent.  The toggle
    action of a dimmer is sent as a light command with the 0-based index. *)
Theorem performAction_table (k : Z) (model : string) (w : World) :
  1 <= k <= 4 ->
  deviceType (self w) = VStr model ->
  model <> EmptyString ->
  let shadeID := "shade" +:+ pretty k in
  let motor motion :=
    (Return tt,
     sent model ("command/motor/" +:+ pretty (k - 1))
          (VObj [("motion", VNum motion)]) w) in
  performAction (shadeID +:+ "up") None w = motor 1
  /\ performAction (shadeID +:+ "down") None w = motor 2
  /\ performAction (shadeID +:+ "stop") None w = motor 0
  /\ (forall suffix broker,
        suffix ∉ ["stop"; "up"; "down"] ->
        performAction (shadeID +:+ suffix) broker w
        = (Return tt, mkWorld (self w) (emitted w ++ [Console "error"])))
  /\ performAction ("dimmer" +:+ pretty k +:+ "toggle") None w
     = (Return tt,
        sent model ("command/light/" +:+ pretty (k - 1))
             (VObj [("turn", VStr "toggle")]) w).
Proof.
  intros Hk Htype Hmodel shadeID motor. subst shadeID motor.
  assert (Hsend : forall path message,
             sendMqttEvent path message None w
             = (Return tt, sent model path message w))
    by (intros; by apply sendMqttEvent_typed).
  assert (Hunknown : forall (digit : ascii) suffix broker,
             suffix ∉ ["stop"; "up"; "down"] ->
             performAction ("shade" +:+ String digit suffix) broker w
             = (Return tt, mkWorld (self w) (emitted w ++ [Console "error"]))).
  { intros digit suffix broker Hsuffix. unfold performAction.
    change (Str.startsWith ("shade" +:+ String digit suffix) "shade") with true.
    cbv iota.
    change (slice ("shade" +:+ String digit suffix) 6 None)
      with (slice (("shade" +:+ String digit EmptyString) +:+ suffix)
                  (Z.of_nat (String.length ("shade" +:+ String digit EmptyString)))
                  None).
    rewrite slice_tail.
    rewrite !bool_decide_eq_false_2
      by (intros ->; apply Hsuffix; repeat constructor).
    reflexivity. }
  assert (k = 1 \/ k = 2 \/ k = 3 \/ k = 4) as [-> | [-> | [-> | ->]]] by lia.
  all: split; [exact (Hsend _ _) |].
  all: split; [exact (Hsend _ _) |].
  all: split; [exact (Hsend _ _) |].
  all: split; [| exact (Hsend _ _)].
  all: intros suffix broker Hsuffix; by apply Hunknown.
Qed.

Lemma performAction_table_witness :
  let w := mkWorld (set_deviceType (VStr "dz1") (Examples.puck Part000 3 None)) [] in
  performAction "shade2down" None w
  = (Return tt, sent "dz1" "command/motor/1" (VObj [("motion", VNum 2)]) w).
Proof.
  intros w.
  destruct (performAction_table 2 "dz1" w) as (_ & Hdown & _).
  - lia.
  - reflexivity.
  - discriminate.
  - exact Hdown.
Defined.

(** ** UDP discovery *)





(** ** The LED switch *)

Lemma sendMqttEvent_refused (model path : string) (message : Value)
    (error : Error) (w : World) :
  deviceType (self w) = VStr model ->
  model <> EmptyString ->
  sendMqttEvent path message (Some error) w
  = (Throw error, sent model path message w).
Proof.
  intros Ht Hm. unfold sendMqttEvent, bind, this, emit, throw. simpl.
  rewrite Ht. simpl. by rewrite bool_decide_eq_false_2.
Qed.

Section Led.

Context {J : Type}.
Variable super_setValue : string -> Value -> Js Value.

(** X24: switching the LED publishes [on] as 1 for a truthy value and 0 for a
    falsy one, and then performs the inherited write.  If the broker refuses
    the message the write is rejected with its error after the message was
    handed over, and the inherited write does not happen.  Without a known
    device type nothing is published and the inherited write happens all the
    same. *)
Theorem setValue_led (model : string) (value : Value) (net : FetchOutcome J)
    (w : World) :
  deviceType (self w) = VStr model ->
  model <> EmptyString ->
  let command :=
    sent model "command/led"
      (VObj [("on", VNum (if truthy value then 1 else 0))]) w in
  setValue super_setValue "led" value net None w
  = super_setValue "led" value command
  /\ (forall error,
        setValue super_setValue "led" value net (Some error) w
        = (Throw error, command))
  /\ (forall broker w0,
        truthy (deviceType (self w0)) = false ->
        setValue super_setValue "led" value net broker w0
        = super_setValue "led" value
            (mkWorld (self w0) (emitted w0 ++ [Console "error"]))).
Proof.
  intros Htype Hmodel command. subst command.
  assert (Hdef : forall broker w0,
             setValue super_setValue "led" value net broker w0
             = (sendMqttEvent "command/led"
                  (VObj [("on", VNum (if truthy value then 1 else 0))]) broker >>
                super_setValue "led" value) w0) by reflexivity.
  split; [| split].
  - rewrite Hdef. unfold bind. by rewrite (sendMqttEvent_typed model).
  - intros error. rewrite Hdef. unfold bind.
    by rewrite (sendMqttEvent_refused model).
  - intros broker w0 Hfalsy. rewrite Hdef. unfold bind.
    by rewrite sendMqttEvent_untyped.
Qed.

End Led.

Lemma setValue_led_witness :
  let w := mkWorld (set_deviceType (VStr "dz1") (Examples.puck Part000 3 None)) [] in
  setValue (J := unit) (fun _ v => ret v) "led" (VBool true)
    (Rejected (newError "down")) (Some (newError "not connected")) w
  = (Throw (newError "not connected"),
     sent "dz1" "command/led" (VObj [("on", VNum 1)]) w).
Proof.
  intros w.
  destruct (setValue_led (J := unit) (fun _ v => ret v) "dz1" (VBool true)
              (Rejected (newError "down")) w) as (_ & Hrefused & _).
  - reflexivity.
  - discriminate.
  - exact (Hrefused (newError "not connected")).
Defined.
